(** * merge_animations.py: a shallow embedding and its properties

    The script drives a host application (Blender, through [bpy]) and a few
    Python standard-library calls.  Its own control flow -- the patch, the
    argument handling, the batch loop, the export -- is embedded as functions
    in a state-and-exception monad over a [World] that holds the file system,
    [bpy.data], the patched class, what was printed and the host calls made.

    What the host and the operating system answer is a parameter, the [Host]
    record: the content of the master file and of each FBX file, whether a
    call on a file raises, what the export writes.  The shape given to the
    host's operations is the documented one:
    - an FBX import deselects everything, adds the file's objects and actions
      as new data and selects the objects it added; an import that raises
      leaves the data as it was;
    - deleting the selection unparents the children of what is deleted;
    - references to host objects are compared by identity, modelled by
      numbers that new data never reuses;
    - the host names its data: an object, an action or a strip is stored
      under the name the host makes of the name asked for ([id_name],
      [new_strip_name]), the names of the other data staying as they are,
      and the collections of [bpy.data] are iterated in the host's order of
      names ([name_before]);
    - the calls on user-supplied files ([open_mainfile], the import,
      [os.makedirs], the export) may raise, the other calls return.
    The standard-library functions used ([glob], [fnmatch], [os.path],
    [argparse]) are modelled for the arguments the script gives them. *)

From Stdlib Require Import List String Ascii Bool Arith ZArith QArith Lia.
From Stdlib Require Import Sorted Permutation.
Import ListNotations.

Close Scope Q_scope.
Local Open Scope string_scope.
Local Open Scope list_scope.
Local Open Scope nat_scope.

(* ================================================================== *)
(** * Strings and paths (the part of [os.path], [fnmatch] and [glob] used) *)
(* ================================================================== *)

(** The two path conventions of [os.path]: [posixpath] and [ntpath]. *)
Inductive os_flavour : Type := Posix | Nt.

Definition is_upper (c : ascii) : bool :=
  (65 <=? nat_of_ascii c) && (nat_of_ascii c <=? 90).

Definition lower_ascii (c : ascii) : ascii :=
  if is_upper c then ascii_of_nat (nat_of_ascii c + 32) else c.

(** [str.lower] / [str.casefold] on ASCII text. *)
Fixpoint lower (s : string) : string :=
  match s with
  | EmptyString => EmptyString
  | String c s' => String (lower_ascii c) (lower s')
  end.

Fixpoint replace_char (a b : ascii) (s : string) : string :=
  match s with
  | EmptyString => EmptyString
  | String c s' => String (if Ascii.eqb c a then b else c) (replace_char a b s')
  end.

(** [os.path.normcase]: the identity on POSIX; on Windows it lower-cases and
    turns forward slashes into backslashes. *)
Definition normcase (fl : os_flavour) (s : string) : string :=
  match fl with
  | Posix => s
  | Nt => lower (replace_char "/" "\" s)
  end.

Definition is_sep (fl : os_flavour) (c : ascii) : bool :=
  match fl with
  | Posix => Ascii.eqb c "/"
  | Nt => Ascii.eqb c "\" || Ascii.eqb c "/"
  end.

Definition sep (fl : os_flavour) : string :=
  match fl with Posix => "/" | Nt => "\" end.

Fixpoint last_char (s : string) : option ascii :=
  match s with
  | EmptyString => None
  | String c EmptyString => Some c
  | String _ s' => last_char s'
  end.

(** [os.path.join a b] for a component [b] that is relative (a directory
    entry or a pattern such as ["*.fbx"]); drive letters are not modelled. *)
Definition path_join (fl : os_flavour) (a b : string) : string :=
  match last_char a with
  | None => b
  | Some c => if is_sep fl c then a ++ b else a ++ sep fl ++ b
  end.

(** [split_last p s] cuts [s] after its last character satisfying [p]:
    the first part is empty when there is none. *)
Fixpoint split_last (p : ascii -> bool) (s : string) : string * string :=
  match s with
  | EmptyString => (EmptyString, EmptyString)
  | String c s' =>
      match split_last p s' with
      | (EmptyString, _) =>
          if p c then (String c EmptyString, s') else (EmptyString, s)
      | (h, t) => (String c h, t)
      end
  end.

(** [os.path.basename]: what follows the last separator. *)
Definition basename (fl : os_flavour) (path : string) : string :=
  snd (split_last (is_sep fl) path).

(** Cuts a separator-free name before its last dot. *)
Fixpoint rsplit_dot (s : string) : option (string * string) :=
  match s with
  | EmptyString => None
  | String c s' =>
      match rsplit_dot s' with
      | Some (r, e) => Some (String c r, e)
      | None => if Ascii.eqb c "." then Some (EmptyString, s) else None
      end
  end.

Fixpoint all_dots (s : string) : bool :=
  match s with
  | EmptyString => true
  | String c s' => Ascii.eqb c "." && all_dots s'
  end.

(** [os.path.splitext] on a name without separators (it is only applied to
    a [basename]): the extension starts at the last dot, unless only dots
    come before it. *)
Definition splitext (name : string) : string * string :=
  match rsplit_dot name with
  | Some (r, e) => if all_dots r then (name, EmptyString) else (r, e)
  | None => (name, EmptyString)
  end.

(** [fnmatch.fnmatchcase] for patterns made of literal characters, [?] and
    [*] (the script's patterns hold no bracket expression). *)
Fixpoint fnmatchcase (pat name : string) {struct pat} : bool :=
  match pat with
  | EmptyString =>
      match name with EmptyString => true | String _ _ => false end
  | String c pat' =>
      if Ascii.eqb c "*" then
        (fix star (n : string) : bool :=
           fnmatchcase pat' n
           || match n with
              | EmptyString => false
              | String _ n' => star n'
              end) name
      else
        match name with
        | EmptyString => false
        | String d name' =>
            (Ascii.eqb c "?" || Ascii.eqb c d) && fnmatchcase pat' name'
        end
  end.


(** [fnmatch.filter]: pattern and names both go through [normcase]. *)
Definition fnmatch_filter (fl : os_flavour) (names : list string) (pat : string)
  : list string :=
  filter (fun n => fnmatchcase (normcase fl pat) (normcase fl n)) names.

(** [glob._ishidden] *)
Definition ishidden (name : string) : bool :=
  match name with
  | String c _ => Ascii.eqb c "."
  | EmptyString => false
  end.

(** [glob._glob1]: a pattern that does not itself start with a dot never
    matches a name that does. *)
Definition glob1 (fl : os_flavour) (names : list string) (pat : string)
  : list string :=
  let names :=
    if ishidden pat then names else filter (fun n => negb (ishidden n)) names in
  fnmatch_filter fl names pat.

(** [sorted(set(l))]: strings ordered by code point, duplicates dropped. *)
Fixpoint insert_sorted (x : string) (l : list string) : list string :=
  match l with
  | [] => [x]
  | y :: l' =>
      match String.compare x y with
      | Lt => x :: l
      | Eq => l
      | Gt => y :: insert_sorted x l'
      end
  end.

Definition sorted_set (l : list string) : list string :=
  fold_right insert_sorted [] l.

(** The file system as the script observes it. *)
Record Fs : Type := mkFs {
  fs_exists : string -> bool;          (* os.path.exists *)
  fs_listdir : string -> list string;  (* directory entries; [] if none *)
  fs_glob : string -> string -> list string
    (* glob.glob(os.path.join(dir, pat)) for a [dir] that is not plain *)
}.

(** [glob.has_magic]: the string holds one of the characters [*], [?] and
    the opening bracket. *)
Fixpoint has_magic (s : string) : bool :=
  match s with
  | EmptyString => false
  | String c s' =>
      Ascii.eqb c "*" || Ascii.eqb c "?" || Ascii.eqb c "[" || has_magic s'
  end.

(** A directory name that [glob] takes as it is written: it holds no glob
    character, is not empty and does not end with a separator, so that
    [os.path.split] gives it back from the joined pattern; on Windows it
    is moreover no bare drive and no UNC path. *)
Definition plain_dir (fl : os_flavour) (dir : string) : bool :=
  negb (has_magic dir)
  && match last_char dir with
     | None => false
     | Some c =>
         negb (is_sep fl c)
         && match fl with Posix => true | Nt => negb (Ascii.eqb c ":") end
     end
  && match fl, dir with
     | Nt, String a (String b _) => negb (is_sep Nt a && is_sep Nt b)
     | _, _ => true
     end.

(** [glob.glob (os.path.join dir pat)] for a pattern [pat] without
    separator.  For a plain [dir] these are the matching entries of [dir],
    joined back onto it.  Otherwise [glob] matches the directory part as a
    pattern too, or splits the path elsewhere; what it finds then is left to
    the file system ([fs_glob]). *)
Definition glob_join (fl : os_flavour) (fs : Fs) (dir pat : string)
  : list string :=
  if plain_dir fl dir
  then map (path_join fl dir) (glob1 fl (fs_listdir fs dir) pat)
  else fs_glob fs dir pat.

(** Step 3 of [main]: the batch of animation files (lines 135-140). *)
Definition find_fbx_files (fl : os_flavour) (fs : Fs) (anims_dir : string)
  : list string :=
  let fbx_files := glob_join fl fs anims_dir "*.fbx" in
  let fbx_files := fbx_files ++ glob_join fl fs anims_dir "*.FBX" in
  sorted_set fbx_files.

(** What the specification says of the selection: the extension, case
    folded, is [fbx]. *)
Definition spec_selects (name : string) : bool :=
  String.eqb (lower (snd (splitext name))) ".fbx".


(* ================================================================== *)
(** * The host's data: scene objects, actions, NLA tracks *)
(* ================================================================== *)

(** Python exceptions are carried by their message. *)
Definition exn : Type := string.

(** Objects and actions are host-owned and handled by reference; a
    reference is modelled by a number ([obj_id], [act_id]).  A name is what
    the host stored, which need not be the name that was asked for. *)
Record NlaStrip : Type := mkStrip {
  strip_name : string;
  strip_frame_start : Z;
  strip_action : nat
}.

Record NlaTrack : Type := mkTrack {
  track_name : string;
  track_strips : list NlaStrip
}.

Record AnimData : Type := mkAnimData {
  ad_action : option nat;
  ad_nla_tracks : list NlaTrack
}.

Record Object : Type := mkObject {
  obj_id : nat;
  obj_name : string;
  obj_type : string;                 (* 'ARMATURE', 'MESH', ... *)
  obj_parent : option nat;
  obj_selected : bool;
  obj_animation_data : option AnimData
}.

Record Action : Type := mkAction {
  act_id : nat;
  act_name : string;
  act_frame_range : Q * Q
}.

(** [bpy.data] and the scene; there is one scene, and it holds every
    object.  [objects] are the objects in the order in which the scene
    yields them ([scene.objects], [selected_objects]), [actions] the actions
    in the order of their creation.  The collections [bpy.data.objects] and
    [bpy.data.actions] yield the same data in the host's order of names
    ([data_objects] and [data_actions] below). *)
Record BpyData : Type := mkData {
  objects : list Object;
  actions : list Action;
  lights : list nat
}.

Definition empty_data : BpyData := mkData [] [] [].

(** What an FBX file holds: objects refer to their parent and to their
    action by position inside the file. *)
Record FbxObject : Type := mkFbxObject {
  fo_name : string;
  fo_type : string;
  fo_parent : option nat;
  fo_animation : option (option nat)
    (* None: no animation_data; Some None: animation_data without action *)
}.

Record FbxAction : Type := mkFbxAction {
  fa_name : string;
  fa_frame_range : Q * Q
}.

Record FbxContents : Type := mkFbx {
  fbx_objects : list FbxObject;
  fbx_actions : list FbxAction
}.

(** The keyword arguments of [bpy.ops.export_scene.gltf]. *)
Record GltfSettings : Type := mkGltf {
  filepath : string;
  export_format : string;
  export_animations : bool;
  export_nla_strips : bool;
  export_skins : bool;
  export_morph : bool;
  export_lights : bool;
  export_cameras : bool;
  export_apply : bool;
  export_draco_mesh_compression_enable : bool;
  export_draco_mesh_compression_level : Z;
  export_draco_position_quantization : Z;
  export_draco_normal_quantization : Z;
  export_draco_texcoord_quantization : Z
}.

(** Python values and classes, as far as the patch needs them. *)
Inductive PyValue : Type :=
| PyTrue | PyFalse | PyNone
| PyStr (s : string)
| PyInt (z : Z).

(** The state of one instance of the lighting-settings class. *)
Definition Instance : Type := list (string * PyValue).

(** A Python [property(fget, fset)]; a setter is a state transformer. *)
Record PyProperty : Type := mkProperty {
  fget : Instance -> PyValue;
  fset : Instance -> PyValue -> Instance
}.

Inductive ClassAttr : Type :=
| NativeAttr
| PropertyAttr (p : PyProperty).

(** A class is the table of its attributes. *)
Definition PyClass : Type := list (string * ClassAttr).

Definition hasattr (cls : PyClass) (name : string) : bool :=
  existsb (fun kv => String.eqb (fst kv) name) cls.

Definition setattr (cls : PyClass) (name : string) (a : ClassAttr) : PyClass :=
  (name, a) :: filter (fun kv => negb (String.eqb (fst kv) name)) cls.

Fixpoint getattr (cls : PyClass) (name : string) : option ClassAttr :=
  match cls with
  | [] => None
  | (k, a) :: cls' => if String.eqb k name then Some a else getattr cls' name
  end.

Fixpoint instance_value (self : Instance) (name : string) : option PyValue :=
  match self with
  | [] => None
  | (k, v) :: self' => if String.eqb k name then Some v else instance_value self' name
  end.

(** Reading [self.name] on an instance of the class: a property answers
    through its getter, another attribute from the instance. *)
Definition read_attribute (cls : PyClass) (self : Instance) (name : string)
  : option PyValue :=
  match getattr cls name with
  | Some (PropertyAttr p) => Some (fget p self)
  | Some NativeAttr => instance_value self name
  | None => None
  end.

(** Assigning [self.name = v]: a property runs its setter, another
    attribute is stored on the instance. *)
Definition write_attribute (cls : PyClass) (self : Instance) (name : string)
  (v : PyValue) : Instance :=
  match getattr cls name with
  | Some (PropertyAttr p) => fset p self v
  | _ => (name, v) :: self
  end.

(* ================================================================== *)
(** * Effects: host calls, printed lines, exits and exceptions *)
(* ================================================================== *)

(** The host calls the script makes, with their arguments. *)
Inductive Call : Type :=
| LightsNew (name type : string)
| CyclesSettings (light : nat)
| SetAttr (name : string)
| LightsRemove (light : nat)
| ReadHomefile (use_empty : bool)
| OpenMainfile (path : string)
| ImportFbx (path : string)
    (use_anim ignore_leaf_bones force_connect_children use_custom_props : bool)
| SetActionName (action : nat) (name : string)
| AnimationDataCreate (obj : nat)
| NlaTracksNew (obj : nat)
| SetTrackName (obj : nat) (name : string)
| StripsNew (obj : nat) (name : string) (frame_start : Z) (action : nat)
| SetStripAction (obj : nat) (action : nat)
| SelectAll (action : string)
| SelectSet (obj : nat) (state : bool)
| ObjectDelete
| Makedirs (path : string) (exist_ok : bool)
| ExportGltf (settings : GltfSettings).

(** A call either returned or raised. *)
Inductive Event : Type :=
| Called (c : Call)
| Threw (c : Call) (e : exn).

(** The lines the script prints, by content (separator and blank lines are
    left out). *)
Inductive Msg : Type :=
| MsgApplyingPatch
| MsgInjectingMock
| MsgPatchApplied
| MsgPatchNotNeeded
| MsgPatchWarning (e : exn)
| MsgBanner (version : string)
| MsgConfiguration (master_path anims_dir output_path : string)
| MsgClearingScene
| MsgMasterNotFound (master_path : string)
| MsgOpeningMaster (master_path : string)
| MsgMasterLoaded
| MsgNoArmature
| MsgTargetRig (name : string)
| MsgNoFbxFiles
| MsgExportingBaseOnly
| MsgProcessing (n : nat)
| MsgImporting (anim_name : string)
| MsgImportError (anim_name : string) (e : exn)
| MsgMerged (anim_name : string) (frame_start frame_end : Z)
| MsgNoAnimationData (anim_name : string)
| MsgMergedSummary (success_count total : nat)
| MsgFinalActions (n : nat)
| MsgActionLine (name : string) (frame_range : Q * Q)
| MsgExporting (output_path : string)
| MsgSuccess (output_path : string)
| MsgExportFailed
| MsgPipelineComplete (success_count : nat).

Record World : Type := mkWorld {
  fs : Fs;
  bpy : BpyData;
  cycles_class : PyClass;      (* the class of [light.cycles] *)
  out : list Msg;              (* standard output, oldest first *)
  trace : list Event           (* host calls made, oldest first *)
}.

(** How a computation ends: it returns, the process exits ([sys.exit]), or
    an exception is raised. *)
Inductive result (A : Type) : Type :=
| Ret (a : A)
| SysExit (code : Z)
| Raised (e : exn).

Arguments Ret {A} a.
Arguments SysExit {A} code.
Arguments Raised {A} e.

Definition M (A : Type) : Type := World -> result A * World.

Definition ret {A} (a : A) : M A := fun w => (Ret a, w).

Definition bind {A B} (m : M A) (k : A -> M B) : M B :=
  fun w =>
    match m w with
    | (Ret a, w') => k a w'
    | (SysExit c, w') => (SysExit c, w')
    | (Raised e, w') => (Raised e, w')
    end.

Declare Scope script_scope.
Delimit Scope script_scope with script.
Notation "x <- m ;; k" := (bind m (fun x => k))
  (at level 100, m at next level, right associativity) : script_scope.
Notation "m ;; k" := (bind m (fun _ => k))
  (at level 100, right associativity) : script_scope.
Local Open Scope script_scope.

Definition sys_exit {A} (code : Z) : M A := fun w => (SysExit code, w).

Definition raise {A} (e : exn) : M A := fun w => (Raised e, w).

(** [try: m  except Exception as e: h e] -- [SystemExit] is not an
    [Exception] and passes through. *)
Definition try_except {A} (m : M A) (h : exn -> M A) : M A :=
  fun w =>
    match m w with
    | (Raised e, w') => h e w'
    | r => r
    end.

Definition print (m : Msg) : M unit :=
  fun w => (Ret tt, mkWorld (fs w) (bpy w) (cycles_class w) (out w ++ [m]) (trace w)).

Definition emit (e : Event) : M unit :=
  fun w => (Ret tt, mkWorld (fs w) (bpy w) (cycles_class w) (out w) (trace w ++ [e])).

Definition get_bpy : M BpyData := fun w => (Ret (bpy w), w).

Definition put_bpy (d : BpyData) : M unit :=
  fun w => (Ret tt, mkWorld (fs w) d (cycles_class w) (out w) (trace w)).

Definition get_fs : M Fs := fun w => (Ret (fs w), w).

Definition put_fs (f : Fs) : M unit :=
  fun w => (Ret tt, mkWorld f (bpy w) (cycles_class w) (out w) (trace w)).

Definition get_class : M PyClass := fun w => (Ret (cycles_class w), w).

Definition put_class (c : PyClass) : M unit :=
  fun w => (Ret tt, mkWorld (fs w) (bpy w) c (out w) (trace w)).

(** A host call that returns. *)
Definition called (c : Call) : M unit := emit (Called c).

(** A host call that raises. *)
Definition threw {A} (c : Call) (e : exn) : M A := emit (Threw c e) ;; raise e.

(** The kinds of data-block the script sees named. *)
Inductive id_kind : Type := ObjectId | ActionId.

(** What the host and the operating system answer.  The calls that read or
    write user-supplied files may raise; the other host calls return.  How
    the host names and orders its data is left to it as well. *)
Record Host : Type := mkHost {
  flavour : os_flavour;
  os_path_abspath : string -> string;
  os_path_normpath : string -> string;
  os_path_dirname : string -> string;
  version_string : string;
  blend_file : Fs -> string -> exn + BpyData;      (* open_mainfile *)
  fbx_file : Fs -> string -> exn + FbxContents;    (* import_scene.fbx *)
  os_makedirs : Fs -> string -> exn + Fs;
  gltf_export : GltfSettings -> BpyData -> Fs -> exn + Fs;
  lights_new_error : BpyData -> option exn;
  cycles_error : option exn;      (* reading [light.cycles] *)
  setattr_error : option exn;     (* assigning a class attribute *)
  lights_remove_error : BpyData -> option exn;
  id_name : id_kind -> list string -> string -> string;
    (* the name a data-block is stored under: the names of the other
       data-blocks of its kind, the name asked for *)
  new_strip_name : list string -> string -> string -> string;
    (* the name a new strip is stored under: the names of the strips the
       object has, the name passed, the name of the action *)
  name_before : string -> string -> bool
    (* the order of names in which [bpy.data] keeps a collection *)
}.

(* ================================================================== *)
(** * Host operations on [bpy.data] *)
(* ================================================================== *)

Definition is_armature (o : Object) : bool := String.eqb (obj_type o) "ARMATURE".

Definition set_selected (b : bool) (o : Object) : Object :=
  mkObject (obj_id o) (obj_name o) (obj_type o) (obj_parent o) b
           (obj_animation_data o).

Definition set_animation_data (ad : option AnimData) (o : Object) : Object :=
  mkObject (obj_id o) (obj_name o) (obj_type o) (obj_parent o) (obj_selected o) ad.

Definition set_parent (p : option nat) (o : Object) : Object :=
  mkObject (obj_id o) (obj_name o) (obj_type o) p (obj_selected o)
           (obj_animation_data o).

(** Every number an object carries as a reference. *)
Definition obj_refs (o : Object) : list nat :=
  obj_id o :: match obj_parent o with Some p => [p] | None => [] end.

(** A reference no object of the data uses yet. *)
Definition fresh_obj (d : BpyData) : nat :=
  S (list_max (flat_map obj_refs (objects d))).

Definition fresh_act (d : BpyData) : nat :=
  S (list_max (map act_id (actions d))).

Definition import_object (host : Host) (used : list string)
  (base_o base_a n_obj n_act i : nat) (fo : FbxObject) : Object :=
  mkObject (base_o + i) (id_name host ObjectId used (fo_name fo)) (fo_type fo)
    (match fo_parent fo with
     | Some p => if p <? n_obj then Some (base_o + p) else None
     | None => None
     end)
    true
    (match fo_animation fo with
     | None => None
     | Some a =>
         Some (mkAnimData
                 (match a with
                  | Some k => if k <? n_act then Some (base_a + k) else None
                  | None => None
                  end) [])
     end).

(** The objects of a file, each named among the objects that are there
    when it is created ([used]). *)
Fixpoint import_objects (host : Host) (used : list string)
  (base_o base_a n_obj n_act i : nat) (l : list FbxObject) : list Object :=
  match l with
  | [] => []
  | fo :: l' =>
      let o := import_object host used base_o base_a n_obj n_act i fo in
      o :: import_objects host (used ++ [obj_name o])
             base_o base_a n_obj n_act (S i) l'
  end.

Fixpoint import_actions (host : Host) (used : list string) (base_a i : nat)
  (l : list FbxAction) : list Action :=
  match l with
  | [] => []
  | fa :: l' =>
      let a := mkAction (base_a + i) (id_name host ActionId used (fa_name fa))
                        (fa_frame_range fa) in
      a :: import_actions host (used ++ [act_name a]) base_a (S i) l'
  end.

(** What a successful FBX import does to the data: everything is
    deselected, the file's objects and actions are added under fresh
    references and under names the host makes unique, and the new objects
    are selected. *)
Definition fbx_into (host : Host) (c : FbxContents) (d : BpyData) : BpyData :=
  mkData
    (map (set_selected false) (objects d)
     ++ import_objects host (map obj_name (objects d))
          (fresh_obj d) (fresh_act d)
          (List.length (fbx_objects c)) (List.length (fbx_actions c)) 0 (fbx_objects c))
    (actions d
     ++ import_actions host (map act_name (actions d)) (fresh_act d) 0
          (fbx_actions c))
    (lights d).

(** A collection of [bpy.data] in the order in which it is iterated: the
    host keeps it ordered by name. *)
Fixpoint insert_by {A} (before : A -> A -> bool) (x : A) (l : list A) : list A :=
  match l with
  | [] => [x]
  | y :: l' => if before y x then y :: insert_by before x l' else x :: l
  end.

Definition sort_by {A} (before : A -> A -> bool) (l : list A) : list A :=
  fold_right (insert_by before) [] l.

(** [bpy.data.objects] *)
Definition data_objects (host : Host) (d : BpyData) : list Object :=
  sort_by (fun a b => name_before host (obj_name a) (obj_name b)) (objects d).

(** [bpy.data.actions] *)
Definition data_actions (host : Host) (d : BpyData) : list Action :=
  sort_by (fun a b => name_before host (act_name a) (act_name b)) (actions d).

Definition update_object (id : nat) (f : Object -> Object) (d : BpyData)
  : BpyData :=
  mkData (map (fun o => if obj_id o =? id then f o else o) (objects d))
         (actions d) (lights d).

Definition find_object (id : nat) (d : BpyData) : option Object :=
  find (fun o => obj_id o =? id) (objects d).

Definition find_action (id : nat) (d : BpyData) : option Action :=
  find (fun a => act_id a =? id) (actions d).

(** [action.frame_range] through an action reference. *)
Definition action_frame_range (id : nat) (d : BpyData) : Q * Q :=
  match find_action id d with
  | Some a => act_frame_range a
  | None => (0 # 1, 0 # 1)%Q
  end.

(** Python's [int] on a float: truncation towards zero. *)
Definition int_of_float (x : Q) : Z := Z.quot (Qnum x) (Zpos (Qden x)).

Fixpoint update_last {A} (f : A -> A) (l : list A) : list A :=
  match l with
  | [] => []
  | [x] => [f x]
  | x :: l' => x :: update_last f l'
  end.

Definition on_tracks (f : list NlaTrack -> list NlaTrack) (o : Object) : Object :=
  match obj_animation_data o with
  | Some ad => set_animation_data (Some (mkAnimData (ad_action ad) (f (ad_nla_tracks ad)))) o
  | None => o
  end.

(** An object is deleted with the selection; objects parented to a deleted
    one lose their parent. *)
Definition unparent (gone : list nat) (o : Object) : Object :=
  match obj_parent o with
  | Some p => if existsb (Nat.eqb p) gone then set_parent None o else o
  | None => o
  end.

Definition delete_selected (d : BpyData) : BpyData :=
  let gone := map obj_id (filter obj_selected (objects d)) in
  mkData (map (unparent gone) (filter (fun o => negb (obj_selected o)) (objects d)))
         (actions d) (lights d).

(** [obj == imported_armature or (obj.parent and obj.parent == imported_armature)] *)
Definition belongs_to (imp : nat) (obj : Object) : bool :=
  (obj_id obj =? imp)
  || match obj_parent obj with
     | Some p => p =? imp
     | None => false
     end.

(** [action.name = name]: the action is stored under the name the host
    makes of [name] among the names of the other actions. *)
Definition stored_action_name (host : Host) (action : nat) (name : string)
  (d : BpyData) : string :=
  let others := filter (fun a => negb (act_id a =? action)) (actions d) in
  id_name host ActionId (map act_name others) name.

Definition rename_action (host : Host) (action : nat) (name : string)
  (d : BpyData) : BpyData :=
  let stored := stored_action_name host action name d in
  mkData (objects d)
         (map (fun a => if act_id a =? action
                        then mkAction (act_id a) stored (act_frame_range a)
                        else a) (actions d))
         (lights d).

Definition deselect_all (d : BpyData) : BpyData :=
  mkData (map (set_selected false) (objects d)) (actions d) (lights d).

(** The first selected armature other than the master (lines 169-174). *)
Definition find_imported_armature (master_armature : nat) (d : BpyData)
  : option Object :=
  find (fun obj => is_armature obj && negb (obj_id obj =? master_armature))
       (filter obj_selected (objects d)).

(** The condition of line 176: an imported armature with animation data
    holding an action; the action is returned with it. *)
Definition clip_action (imported_armature : option Object)
  : option (Object * nat) :=
  match imported_armature with
  | Some imp =>
      match obj_animation_data imp with
      | Some ad =>
          match ad_action ad with
          | Some action => Some (imp, action)
          | None => None
          end
      | None => None
      end
  | None => None
  end.

(** [not master_armature.animation_data] *)
Definition lacks_animation_data (master_armature : nat) (d : BpyData) : bool :=
  match find_object master_armature d with
  | Some m =>
      match obj_animation_data m with
      | Some _ => false
      | None => true
      end
  | None => true
  end.

(** The fixed keyword arguments of the export call (lines 220-236). *)
Definition export_settings (output_path : string) : GltfSettings :=
  mkGltf output_path "GLB" true true true true false false true
         true 10 14 10 12.

(** [property(lambda self: True, lambda self, v: None)] *)
Definition cast_shadow_mock : PyProperty :=
  mkProperty (fun self => PyTrue) (fun self v => self).

Definition path_exists (path : string) : M bool :=
  f <- get_fs ;; ret (fs_exists f path).

Definition modify_bpy (f : BpyData -> BpyData) (c : Call) : M unit :=
  d <- get_bpy ;; put_bpy (f d) ;; called c.

Definition modify_object (id : nat) (f : Object -> Object) (c : Call) : M unit :=
  modify_bpy (update_object id f) c.

(** [bpy.ops.wm.read_homefile(use_empty=True)] *)
Definition read_homefile : M unit :=
  modify_bpy (fun _ => empty_data) (ReadHomefile true).

Definition set_action_name (host : Host) (action : nat) (name : string)
  : M unit :=
  modify_bpy (rename_action host action name) (SetActionName action name).

Definition animation_data_create (obj : nat) : M unit :=
  modify_object obj (set_animation_data (Some (mkAnimData None [])))
                (AnimationDataCreate obj).

(** [obj.animation_data.nla_tracks.new()]: a new, empty track at the end. *)
Definition nla_tracks_new (obj : nat) : M unit :=
  modify_object obj (on_tracks (fun ts => ts ++ [mkTrack "NlaTrack" []]))
                (NlaTracksNew obj).

(** The track at hand is the one just created, the last of [obj]. *)
Definition set_track_name (obj : nat) (name : string) : M unit :=
  modify_object obj
    (on_tracks (update_last (fun t => mkTrack name (track_strips t))))
    (SetTrackName obj name).

(** The names of the strips an object has, over all its tracks. *)
Definition strip_names (o : Object) : list string :=
  match obj_animation_data o with
  | Some ad => flat_map (fun t => map strip_name (track_strips t)) (ad_nla_tracks ad)
  | None => []
  end.

(** [action.name] through an action reference. *)
Definition action_name (id : nat) (d : BpyData) : string :=
  match find_action id d with
  | Some a => act_name a
  | None => EmptyString
  end.

(** The strip [track.strips.new(name, frame_start, action)] creates on an
    object of the data: the host names it. *)
Definition new_strip (host : Host) (obj : nat) (name : string) (frame_start : Z)
  (action : nat) (d : BpyData) : NlaStrip :=
  let used := match find_object obj d with
              | Some o => strip_names o
              | None => []
              end in
  mkStrip (new_strip_name host used name (action_name action d))
          frame_start action.

Definition add_strip (obj : nat) (s : NlaStrip) (d : BpyData) : BpyData :=
  update_object obj
    (on_tracks (update_last (fun t =>
       mkTrack (track_name t) (track_strips t ++ [s])))) d.

Definition strips_new (host : Host) (obj : nat) (name : string) (frame_start : Z)
  (action : nat) : M unit :=
  modify_bpy
    (fun d => add_strip obj (new_strip host obj name frame_start action d) d)
    (StripsNew obj name frame_start action).

Definition set_strip_action (obj : nat) (action : nat) : M unit :=
  modify_object obj
    (on_tracks (update_last (fun t =>
       mkTrack (track_name t)
               (update_last
                  (fun s => mkStrip (strip_name s) (strip_frame_start s) action)
                  (track_strips t)))))
    (SetStripAction obj action).

(** [bpy.ops.object.select_all(action='DESELECT')] *)
Definition select_all_deselect : M unit :=
  modify_bpy deselect_all (SelectAll "DESELECT").

Definition select_set (obj : nat) (state : bool) : M unit :=
  modify_object obj (set_selected state) (SelectSet obj state).

Definition object_delete : M unit :=
  modify_bpy delete_selected ObjectDelete.

(** The loop of lines 196-198 over a snapshot of the scene's objects. *)
Fixpoint select_imported (imported_armature : nat) (snapshot : list Object)
  : M unit :=
  match snapshot with
  | [] => ret tt
  | obj :: rest =>
      (if belongs_to imported_armature obj
       then select_set (obj_id obj) true
       else ret tt) ;;
      select_imported imported_armature rest
  end.

Section Script.

Variable host : Host.

Definition lights_new (name type : string) : M nat :=
  d <- get_bpy ;;
  match lights_new_error host d with
  | Some e => threw (LightsNew name type) e
  | None =>
      let l := S (list_max (lights d)) in
      put_bpy (mkData (objects d) (actions d) (lights d ++ [l])) ;;
      called (LightsNew name type) ;;
      ret l
  end.

Definition light_cycles (light : nat) : M unit :=
  match cycles_error host with
  | Some e => threw (CyclesSettings light) e
  | None => called (CyclesSettings light)
  end.

Definition class_setattr (name : string) (a : ClassAttr) : M unit :=
  match setattr_error host with
  | Some e => threw (SetAttr name) e
  | None =>
      cls <- get_class ;;
      put_class (setattr cls name a) ;;
      called (SetAttr name)
  end.

Definition lights_remove (light : nat) : M unit :=
  d <- get_bpy ;;
  match lights_remove_error host d with
  | Some e => threw (LightsRemove light) e
  | None =>
      put_bpy (mkData (objects d) (actions d)
                      (filter (fun l => negb (l =? light)) (lights d))) ;;
      called (LightsRemove light)
  end.

(** [apply_nuclear_patch] (lines 34-58). *)
Definition apply_nuclear_patch : M unit :=
  print MsgApplyingPatch ;;
  try_except
    (temp_light <- lights_new "Patch_Probe" "POINT" ;;
     light_cycles temp_light ;;
     CyclesSettingsClass <- get_class ;;
     (if negb (hasattr CyclesSettingsClass "cast_shadow") then
        print MsgInjectingMock ;;
        class_setattr "cast_shadow" (PropertyAttr cast_shadow_mock) ;;
        print MsgPatchApplied
      else
        print MsgPatchNotNeeded) ;;
     lights_remove temp_light)
    (fun e => print (MsgPatchWarning e)).

(** [normalize_path] (lines 66-68). *)
Definition normalize_path (path : string) : string :=
  os_path_normpath host (os_path_abspath host path).

Definition open_mainfile (path : string) : M unit :=
  f <- get_fs ;;
  match blend_file host f path with
  | inl e => threw (OpenMainfile path) e
  | inr d => put_bpy d ;; called (OpenMainfile path)
  end.

(** The import call with its fixed keyword arguments (lines 157-163). *)
Definition import_call (path : string) : Call :=
  ImportFbx path true true true false.

Definition import_scene_fbx (path : string) : M unit :=
  f <- get_fs ;;
  match fbx_file host f path with
  | inl e => threw (import_call path) e
  | inr contents => modify_bpy (fbx_into host contents) (import_call path)
  end.

(** [os.path.splitext(os.path.basename(fbx_path))[0]] *)
Definition anim_name_of (fbx_path : string) : string :=
  fst (splitext (basename (flavour host) fbx_path)).

(** The body of the batch loop (lines 152-201) for one file; returns the
    updated [success_count]. *)
Definition process_file (master_armature : nat) (fbx_path : string)
  (success_count : nat) : M nat :=
  let anim_name := anim_name_of fbx_path in
  print (MsgImporting anim_name) ;;
  failure <- try_except
               (import_scene_fbx (normalize_path fbx_path) ;; ret None)
               (fun e => ret (Some e)) ;;
  match failure with
  | Some e =>
      print (MsgImportError anim_name e) ;;
      ret success_count                                    (* continue *)
  | None =>
      d <- get_bpy ;;
      let imported_armature := find_imported_armature master_armature d in
      match clip_action imported_armature with
      | Some (imported_armature, action) =>
          set_action_name host action anim_name ;;
          d <- get_bpy ;;
          (if lacks_animation_data master_armature d
           then animation_data_create master_armature
           else ret tt) ;;
          nla_tracks_new master_armature ;;
          set_track_name master_armature anim_name ;;
          d <- get_bpy ;;
          let frame_start := int_of_float (fst (action_frame_range action d)) in
          strips_new host master_armature anim_name frame_start action ;;
          set_strip_action master_armature action ;;
          d <- get_bpy ;;
          let frame_end := int_of_float (snd (action_frame_range action d)) in
          print (MsgMerged anim_name frame_start frame_end) ;;
          (* cleanup imported objects *)
          select_all_deselect ;;
          d <- get_bpy ;;
          select_imported (obj_id imported_armature) (objects d) ;;
          object_delete ;;
          ret (S success_count)
      | None =>
          print (MsgNoAnimationData anim_name) ;;
          ret success_count
      end
  end.

End Script.

(* ================================================================== *)
(** * Command line (lines 74-84)

    [argparse] as configured by the script: the implicit [-h]/[--help] and
    three required options taking one value each.  Options may be
    abbreviated to an unambiguous prefix and may carry their value after
    [=].  A usage error exits with status 2, help with status 0. *)
(* ================================================================== *)

Inductive dest : Type := Master | Anims | Output.

Inductive opt_action : Type :=
| Help
| Store (d : dest).

Definition flag (d : dest) : string :=
  match d with
  | Master => "--master"
  | Anims => "--anims"
  | Output => "--output"
  end.

Definition option_string_actions : list (string * opt_action) :=
  [ ("-h", Help); ("--help", Help);
    (flag Master, Store Master); (flag Anims, Store Anims);
    (flag Output, Store Output) ].

Fixpoint lookup_option (s : string) (l : list (string * opt_action))
  : option opt_action :=
  match l with
  | [] => None
  | (os, a) :: l' => if String.eqb os s then Some a else lookup_option s l'
  end.

(** [s.split('=', 1)] when [s] holds an [=]. *)
Fixpoint split_eq (s : string) : option (string * string) :=
  match s with
  | EmptyString => None
  | String c s' =>
      if Ascii.eqb c "=" then Some (EmptyString, s')
      else match split_eq s' with
           | Some (a, b) => Some (String c a, b)
           | None => None
           end
  end.

Fixpoint all_chars (p : ascii -> bool) (s : string) : bool :=
  match s with
  | EmptyString => true
  | String c s' => p c && all_chars p s'
  end.

Definition nonempty (s : string) : bool :=
  match s with EmptyString => false | String _ _ => true end.

(** What [\d] matches: the Unicode decimal digits (category Nd, Unicode
    14), as ranges of code points. *)
Definition decimal_ranges : list (N * N) :=
  [ (48, 57); (1632, 1641); (1776, 1785); (1984, 1993); (2406, 2415);
    (2534, 2543); (2662, 2671); (2790, 2799); (2918, 2927); (3046, 3055);
    (3174, 3183); (3302, 3311); (3430, 3439); (3558, 3567); (3664, 3673);
    (3792, 3801); (3872, 3881); (4160, 4169); (4240, 4249); (6112, 6121);
    (6160, 6169); (6470, 6479); (6608, 6617); (6784, 6793); (6800, 6809);
    (6992, 7001); (7088, 7097); (7232, 7241); (7248, 7257);
    (42528, 42537); (43216, 43225); (43264, 43273); (43472, 43481);
    (43504, 43513); (43600, 43609); (44016, 44025); (65296, 65305);
    (66720, 66729); (68912, 68921); (69734, 69743); (69872, 69881);
    (69942, 69951); (70096, 70105); (70384, 70393); (70736, 70745);
    (70864, 70873); (71248, 71257); (71360, 71369); (71472, 71481);
    (71904, 71913); (72016, 72025); (72784, 72793); (73040, 73049);
    (73120, 73129); (92768, 92777); (92864, 92873); (93008, 93017);
    (120782, 120831); (123200, 123209); (123632, 123641);
    (125264, 125273); (130032, 130041) ]%N.

Definition is_decimal (cp : N) : bool :=
  existsb (fun r => (fst r <=? cp)%N && (cp <=? snd r)%N) decimal_ranges.

(** A string, read as UTF-8, is a sequence of decimal digits.  [due] bytes
    of the character at hand are still to come, [acc] is its code point so
    far, and the next byte has to lie between [lo] and [hi]; a byte sequence
    that is no UTF-8 holds a character that is no digit. *)
Fixpoint utf8_digits (due : nat) (acc lo hi : N) (s : string) : bool :=
  match s with
  | EmptyString => match due with O => true | S _ => false end
  | String c s' =>
      let b := N_of_ascii c in
      match due with
      | O =>
          if (b <? 128)%N then is_decimal b && utf8_digits 0 0 128 191 s'
          else if (194 <=? b)%N && (b <=? 223)%N
          then utf8_digits 1 (b - 192) 128 191 s'
          else if (b =? 224)%N then utf8_digits 2 0 160 191 s'
          else if (225 <=? b)%N && (b <=? 239)%N
          then utf8_digits 2 (b - 224) 128 (if (b =? 237)%N then 159 else 191) s'
          else if (b =? 240)%N then utf8_digits 3 0 144 191 s'
          else if (241 <=? b)%N && (b <=? 243)%N
          then utf8_digits 3 (b - 240) 128 191 s'
          else if (b =? 244)%N then utf8_digits 3 4 128 143 s'
          else false
      | S due' =>
          (lo <=? b)%N && (b <=? hi)%N
          && let acc' := (acc * 64 + (b - 128))%N in
             match due' with
             | O => is_decimal acc' && utf8_digits 0 0 128 191 s'
             | S _ => utf8_digits due' acc' 128 191 s'
             end
      end
  end.

Definition all_digits (s : string) : bool := utf8_digits 0 0 128 191 s.

(** [$] matches at the end of the string and before a newline that ends
    it: the string without such a newline. *)
Fixpoint chomp (s : string) : string :=
  match s with
  | EmptyString => EmptyString
  | String c EmptyString => if Ascii.eqb c "010" then EmptyString else s
  | String c s' => String c (chomp s')
  end.

(** The regular expression [^-\d+$|^-\d*\.\d+$]. *)
Definition negative_number (s : string) : bool :=
  match chomp s with
  | String c rest =>
      Ascii.eqb c "-"
      && ((nonempty rest && all_digits rest)
          || match rsplit_dot rest with
             | Some (int_part, String _ frac) =>
                 all_digits int_part
                 && nonempty frac && all_digits frac
             | _ => false
             end)
  | EmptyString => false
  end.

Definition contains_space (s : string) : bool :=
  negb (all_chars (fun c => negb (Ascii.eqb c " ")) s).

(** How the parser reads one argument string. *)
Inductive arg_kind : Type :=
| Positional
| DashDash
| Optional (a : opt_action) (option_string : string) (explicit_arg : option string)
| Unrecognized
| Ambiguous.

(** [ArgumentParser._get_option_tuples]: the options an abbreviation may
    stand for. *)
Definition get_option_tuples (arg : string)
  : list (opt_action * string * option string) :=
  match arg with
  | String c0 (String c1 rest) =>
      if Ascii.eqb c1 "-" then
        let '(option_prefix, explicit_arg) :=
          match split_eq arg with
          | Some (o, e) => (o, Some e)
          | None => (arg, None)
          end in
        flat_map (fun '(os, a) =>
                    if String.prefix option_prefix os
                    then [(a, os, explicit_arg)] else [])
                 option_string_actions
      else
        let short_option_prefix := String c0 (String c1 EmptyString) in
        flat_map (fun '(os, a) =>
                    if String.eqb os short_option_prefix
                    then [(a, os, Some rest)]
                    else if String.prefix arg os then [(a, os, None)] else [])
                 option_string_actions
  | _ => []
  end.

(** [ArgumentParser._parse_optional] *)
Definition parse_optional (arg : string) : arg_kind :=
  match arg with
  | EmptyString => Positional
  | String c _ =>
      if negb (Ascii.eqb c "-") then Positional
      else
        match lookup_option arg option_string_actions with
        | Some a => Optional a arg None
        | None =>
            if String.length arg =? 1 then Positional
            else
              match
                match split_eq arg with
                | Some (o, e) =>
                    match lookup_option o option_string_actions with
                    | Some a => Some (Optional a o (Some e))
                    | None => None
                    end
                | None => None
                end
              with
              | Some k => k
              | None =>
                  match get_option_tuples arg with
                  | _ :: _ :: _ => Ambiguous
                  | [(a, os, e)] => Optional a os e
                  | [] =>
                      if negative_number arg then Positional
                      else if contains_space arg then Positional
                      else Unrecognized
                  end
              end
        end
  end.

(** Every argument is read before any is consumed; after a [--] all are
    positional. *)
Fixpoint classify (args : list string) : list (string * arg_kind) :=
  match args with
  | [] => []
  | a :: rest =>
      if String.eqb a "--"
      then (a, DashDash) :: map (fun s => (s, Positional)) rest
      else (a, parse_optional a) :: classify rest
  end.

(** The value an option gets: the argument string -- except that for an
    explicit value that is exactly [--] the parser drops it and stores the
    empty list. *)
Inductive arg_value : Type :=
| Str (s : string)
| EmptyList.

Definition explicit_value (v : string) : arg_value :=
  if String.eqb v "--" then EmptyList else Str v.

Record Namespace : Type := mkNamespace {
  ns_master : option arg_value;
  ns_anims : option arg_value;
  ns_output : option arg_value
}.

Definition store (d : dest) (v : arg_value) (ns : Namespace) : Namespace :=
  match d with
  | Master => mkNamespace (Some v) (ns_anims ns) (ns_output ns)
  | Anims => mkNamespace (ns_master ns) (Some v) (ns_output ns)
  | Output => mkNamespace (ns_master ns) (ns_anims ns) (Some v)
  end.

Definition ns_get (d : dest) (ns : Namespace) : option arg_value :=
  match d with
  | Master => ns_master ns
  | Anims => ns_anims ns
  | Output => ns_output ns
  end.

Record Args : Type := mkArgs {
  args_master : arg_value;
  args_anims : arg_value;
  args_output : arg_value
}.

Inductive parse_result : Type :=
| Parsed (args : Args)
| ParserExit (code : Z).

(** The consuming loop.  [pending] is an option still waiting for its
    value; [extras] records that some argument was left over. *)
Fixpoint consume (toks : list (string * arg_kind)) (ns : Namespace)
  (pending : option dest) (extras : bool) : parse_result :=
  match toks with
  | [] =>
      match pending with
      | Some _ => ParserExit 2                 (* expected one argument *)
      | None =>
          match ns_master ns, ns_anims ns, ns_output ns with
          | Some m, Some a, Some o =>
              if extras then ParserExit 2      (* unrecognized arguments *)
              else Parsed (mkArgs m a o)
          | _, _, _ => ParserExit 2            (* required arguments missing *)
          end
      end
  | (s, k) :: rest =>
      match pending with
      | Some d =>
          match k with
          | Positional => consume rest (store d (Str s) ns) None extras
          | _ => ParserExit 2                  (* expected one argument *)
          end
      | None =>
          match k with
          | Positional | DashDash | Unrecognized => consume rest ns None true
          | Ambiguous => ParserExit 2
          | Optional (Store d) _ None => consume rest ns (Some d) extras
          | Optional (Store d) _ (Some v) =>
              consume rest (store d (explicit_value v) ns) None extras
          | Optional Help _ None => ParserExit 0
          | Optional Help os (Some e) =>
              if String.eqb os "-h" && nonempty e
                 && all_chars (fun c => Ascii.eqb c "h") e
              then ParserExit 0
              else ParserExit 2                (* ignored explicit argument *)
          end
      end
  end.

Definition is_ambiguous (t : string * arg_kind) : bool :=
  match snd t with Ambiguous => true | _ => false end.

(** [parser.parse_args(argv)] *)
Definition parse_args (argv : list string) : parse_result :=
  let toks := classify argv in
  if existsb is_ambiguous toks then ParserExit 2
  else consume toks (mkNamespace None None None) None false.

Fixpoint after_first (x : string) (l : list string) : list string :=
  match l with
  | [] => []
  | y :: l' => if String.eqb y x then l' else after_first x l'
  end.

(** Lines 74-78: what follows the first [--] of [sys.argv]. *)
Definition script_args (sys_argv : list string) : list string :=
  if existsb (String.eqb "--") sys_argv
  then after_first "--" sys_argv
  else [].

(** An argument string names an option when what precedes its [=] is a
    prefix of the option, longer than the bare [--]. *)
Definition names_flag (d : dest) (arg : string) : bool :=
  let o := match split_eq arg with Some (o, _) => o | None => arg end in
  String.prefix "--" o && (2 <? String.length o) && String.prefix o (flag d).

Definition absent (d : dest) (args : list string) : Prop :=
  forall arg, In arg args -> names_flag d arg = false.

(* ================================================================== *)
(** * The pipeline ([main], lines 71-251) *)
(* ================================================================== *)

Definition type_error : exn :=
  "TypeError: expected str, bytes or os.PathLike object, not list".

Section Pipeline.

Variable host : Host.

(** The batch loop, threading [success_count]. *)
Fixpoint merge_loop (master_armature : nat) (fbx_files : list string)
  (success_count : nat) : M nat :=
  match fbx_files with
  | [] => ret success_count
  | fbx_path :: rest =>
      c <- process_file host master_armature fbx_path success_count ;;
      merge_loop master_armature rest c
  end.

Fixpoint print_all (ms : list Msg) : M unit :=
  match ms with
  | [] => ret tt
  | m :: ms' => print m ;; print_all ms'
  end.

Definition makedirs (path : string) : M unit :=
  f <- get_fs ;;
  match os_makedirs host f path with
  | inl e => threw (Makedirs path true) e
  | inr f' => put_fs f' ;; called (Makedirs path true)
  end.

Definition export_scene_gltf (s : GltfSettings) : M unit :=
  f <- get_fs ;;
  d <- get_bpy ;;
  match gltf_export host s d f with
  | inl e => threw (ExportGltf s) e
  | inr f' => put_fs f' ;; called (ExportGltf s)
  end.

(** [normalize_path] on a parsed value; [os.path.abspath] raises a
    [TypeError] on what is not a path. *)
Definition normalize_arg (v : arg_value) : M string :=
  match v with
  | Str path => ret (normalize_path host path)
  | EmptyList => raise type_error
  end.

Definition main (sys_argv : list string) : M unit :=
  let argv := script_args sys_argv in
  match parse_args argv with
  | ParserExit code => sys_exit code
  | Parsed args =>
      master_path <- normalize_arg (args_master args) ;;
      anims_dir <- normalize_arg (args_anims args) ;;
      output_path <- normalize_arg (args_output args) ;;
      print (MsgBanner (version_string host)) ;;
      print (MsgConfiguration master_path anims_dir output_path) ;;
      (* Step 1: clear and open master file *)
      print MsgClearingScene ;;
      read_homefile ;;
      master_exists <- path_exists master_path ;;
      if negb master_exists then
        print (MsgMasterNotFound master_path) ;;
        sys_exit 1
      else
        print (MsgOpeningMaster master_path) ;;
        open_mainfile host master_path ;;
        print MsgMasterLoaded ;;
        (* Step 2: identify master armature *)
        d <- get_bpy ;;
        match find is_armature (data_objects host d) with
        | None =>
            print MsgNoArmature ;;
            sys_exit 1
        | Some master_armature =>
            print (MsgTargetRig (obj_name master_armature)) ;;
            (* Step 3: find animation files *)
            f <- get_fs ;;
            let fbx_files := find_fbx_files (flavour host) f anims_dir in
            success_count <-
              match fbx_files with
              | [] =>
                  print MsgNoFbxFiles ;;
                  print MsgExportingBaseOnly ;;
                  ret 0
              | _ :: _ =>
                  print (MsgProcessing (List.length fbx_files)) ;;
                  c <- merge_loop (obj_id master_armature) fbx_files 0 ;;
                  print (MsgMergedSummary c (List.length fbx_files)) ;;
                  ret c
              end ;;
            (* list all actions *)
            d <- get_bpy ;;
            print (MsgFinalActions (List.length (data_actions host d))) ;;
            print_all (map (fun a => MsgActionLine (act_name a) (act_frame_range a))
                           (data_actions host d)) ;;
            (* Step 4: export *)
            print (MsgExporting output_path) ;;
            makedirs (os_path_dirname host output_path) ;;
            export_scene_gltf (export_settings output_path) ;;
            output_exists <- path_exists output_path ;;
            if output_exists then
              print (MsgSuccess output_path) ;;
              print (MsgPipelineComplete success_count)
            else
              print MsgExportFailed ;;
              sys_exit 1
        end
  end.

(** The whole script: the patch runs at import time, then [main]. *)
Definition script (sys_argv : list string) : M unit :=
  apply_nuclear_patch host ;; main sys_argv.

End Pipeline.

(* ================================================================== *)
(** * Definitions used to state the results *)
(* ================================================================== *)

Definition with_bpy (d : BpyData) (w : World) : World :=
  mkWorld (fs w) d (cycles_class w) (out w) (trace w).

Definition with_fs (f : Fs) (w : World) : World :=
  mkWorld f (bpy w) (cycles_class w) (out w) (trace w).

Definition printed (ms : list Msg) (w : World) : World :=
  mkWorld (fs w) (bpy w) (cycles_class w) (out w ++ ms) (trace w).

Definition traced (es : list Event) (w : World) : World :=
  mkWorld (fs w) (bpy w) (cycles_class w) (out w) (trace w ++ es).

(** The data after the selection loop of lines 196-198. *)
Definition select_imported_data (imp : nat) (snapshot : list Object)
  (d : BpyData) : BpyData :=
  fold_left (fun d obj =>
               if belongs_to imp obj
               then update_object (obj_id obj) (set_selected true) d
               else d) snapshot d.

Definition select_imported_calls (imp : nat) (snapshot : list Object)
  : list Event :=
  map (fun obj => Called (SelectSet (obj_id obj) true))
      (filter (belongs_to imp) snapshot).

(** The data after lines 177-188: the action renamed and attached to the
    master armature as one strip on a new track. *)
Definition attach_clip (host : Host) (master action : nat) (anim_name : string)
  (d : BpyData) : BpyData :=
  let d := rename_action host action anim_name d in
  let d := if lacks_animation_data master d
           then update_object master (set_animation_data (Some (mkAnimData None []))) d
           else d in
  let d := update_object master (on_tracks (fun ts => ts ++ [mkTrack "NlaTrack" []])) d in
  let d := update_object master
             (on_tracks (update_last (fun t => mkTrack anim_name (track_strips t)))) d in
  let frame_start := int_of_float (fst (action_frame_range action d)) in
  let d := add_strip master
             (new_strip host master anim_name frame_start action d) d in
  update_object master
    (on_tracks (update_last (fun t =>
       mkTrack (track_name t)
               (update_last
                  (fun s => mkStrip (strip_name s) (strip_frame_start s) action)
                  (track_strips t))))) d.

(** The data once the imported objects are selected and deleted. *)
Definition cleanup (imp : nat) (d : BpyData) : BpyData :=
  let d := deselect_all d in
  delete_selected (select_imported_data imp (objects d) d).

Definition attach_calls (host : Host) (master action : nat) (anim_name : string)
  (d : BpyData) : list Event :=
  let d1 := rename_action host action anim_name d in
  let frame_start := int_of_float (fst (action_frame_range action d1)) in
  [Called (SetActionName action anim_name)]
  ++ (if lacks_animation_data master d1
      then [Called (AnimationDataCreate master)] else [])
  ++ [Called (NlaTracksNew master);
      Called (SetTrackName master anim_name);
      Called (StripsNew master anim_name frame_start action);
      Called (SetStripAction master action)].

Definition cleanup_calls (imp : nat) (d : BpyData) : list Event :=
  [Called (SelectAll "DESELECT")]
  ++ select_imported_calls imp (objects (deselect_all d))
  ++ [Called ObjectDelete].

Definition tracks_of (o : Object) : list NlaTrack :=
  match obj_animation_data o with
  | Some ad => ad_nla_tracks ad
  | None => []
  end.

Definition action_of (o : Object) : option nat :=
  match obj_animation_data o with
  | Some ad => ad_action ad
  | None => None
  end.

(** A transformation of an object that leaves its references alone. *)
Definition keeps_refs (f : Object -> Object) : Prop :=
  forall o, obj_id (f o) = obj_id o /\ obj_parent (f o) = obj_parent o.

(** Relative to a bound [n]: an object is [stale] when all its references
    lie below [n], [recent] when its own reference does not. *)
Definition stale (n : nat) (o : Object) : Prop :=
  obj_id o < n /\ forall p, obj_parent o = Some p -> p < n.

Definition recent (n : nat) (o : Object) : Prop := n <= obj_id o.

(** An object with one more track holding one strip. *)
Definition with_clip (name : string) (strip : NlaStrip) (o : Object) : Object :=
  mkObject (obj_id o) (obj_name o) (obj_type o) (obj_parent o) (obj_selected o)
    (Some (mkAnimData (action_of o) (tracks_of o ++ [mkTrack name [strip]]))).

(** [after] is the armature [before] with the tracks [new] added on top:
    same reference, name, type, parent and action, earlier tracks intact. *)
Definition same_rig (before after : Object) (new : list NlaTrack) : Prop :=
  obj_id after = obj_id before
  /\ obj_name after = obj_name before
  /\ obj_type after = obj_type before
  /\ obj_parent after = obj_parent before
  /\ action_of after = action_of before
  /\ tracks_of after = tracks_of before ++ new.

(** The same object, the selection flag apart. *)
Definition same_object (before after : Object) : Prop :=
  set_selected false after = set_selected false before.

(** The host calls one pass of the batch loop may make for the master
    armature [m]. *)
Definition file_call (m : nat) (c : Call) : bool :=
  match c with
  | ImportFbx _ true true true false => true
  | SetActionName _ _ => true
  | AnimationDataCreate o | NlaTracksNew o | SetTrackName o _
  | StripsNew o _ _ _ | SetStripAction o _ => o =? m
  | SelectAll a => String.eqb a "DESELECT"
  | SelectSet _ true => true
  | ObjectDelete => true
  | _ => false
  end.

Definition file_event (m : nat) (e : Event) : bool :=
  match e with
  | Called c => file_call m c
  | Threw (ImportFbx _ _ _ _ _ as c) _ => file_call m c
  | Threw _ _ => false
  end.

(** The lines the batch step of [main] may print. *)
Definition batch_msg (m : Msg) : bool :=
  match m with
  | MsgNoFbxFiles | MsgExportingBaseOnly | MsgProcessing _
  | MsgImporting _ | MsgImportError _ _ | MsgMerged _ _ _
  | MsgNoAnimationData _ | MsgMergedSummary _ _ => true
  | _ => false
  end.

Section Steps.
Variable host : Host.

(** Step 3 of [main] (lines 135-204), named apart for the proofs. *)
Definition merge_phase (master_armature : nat) (anims_dir : string) : M nat :=
  f <- get_fs ;;
  let fbx_files := find_fbx_files (flavour host) f anims_dir in
  match fbx_files with
  | [] =>
      print MsgNoFbxFiles ;;
      print MsgExportingBaseOnly ;;
      ret 0
  | _ :: _ =>
      print (MsgProcessing (List.length fbx_files)) ;;
      c <- merge_loop host master_armature fbx_files 0 ;;
      print (MsgMergedSummary c (List.length fbx_files)) ;;
      ret c
  end.

(** The listing of the actions and step 4 of [main] (lines 206-251). *)
Definition export_phase (output_path : string) (success_count : nat) : M unit :=
  d <- get_bpy ;;
  print (MsgFinalActions (List.length (data_actions host d))) ;;
  print_all (map (fun a => MsgActionLine (act_name a) (act_frame_range a))
                 (data_actions host d)) ;;
  print (MsgExporting output_path) ;;
  makedirs host (os_path_dirname host output_path) ;;
  export_scene_gltf host (export_settings output_path) ;;
  output_exists <- path_exists output_path ;;
  if output_exists then
    print (MsgSuccess output_path) ;;
    print (MsgPipelineComplete success_count)
  else
    print MsgExportFailed ;;
    sys_exit 1.

(** The three normalised paths, when the three parsed values are strings. *)
Definition paths_of (args : Args) : option (string * string * string) :=
  match args_master args, args_anims args, args_output args with
  | Str master, Str anims, Str output =>
      Some (normalize_path host master, normalize_path host anims,
            normalize_path host output)
  | _, _, _ => None
  end.

(** What is printed before the export. *)
Definition export_header (output_path : string) (d : BpyData) : list Msg :=
  [MsgFinalActions (List.length (data_actions host d))]
  ++ map (fun a => MsgActionLine (act_name a) (act_frame_range a))
         (data_actions host d)
  ++ [MsgExporting output_path].

End Steps.

(** The class of [light.cycles] once the patch has run. *)
Definition patched_class (host : Host) (w : World) : PyClass :=
  match lights_new_error host (bpy w), cycles_error host, setattr_error host with
  | None, None, None =>
      if hasattr (cycles_class w) "cast_shadow" then cycles_class w
      else setattr (cycles_class w) "cast_shadow" (PropertyAttr cast_shadow_mock)
  | _, _, _ => cycles_class w
  end.

Definition is_patch_warning (m : Msg) : bool :=
  match m with MsgPatchWarning _ => true | _ => false end.


(** The object a call creating animation data, a track or a strip acts
    on. *)
Definition track_owner (e : Event) : option nat :=
  match e with
  | Called (AnimationDataCreate o) | Called (NlaTracksNew o)
  | Called (SetTrackName o _) | Called (StripsNew o _ _ _)
  | Called (SetStripAction o _) => Some o
  | _ => None
  end.

(** The lines that speak of the armature of the master file. *)
Definition about_armature (m : Msg) : bool :=
  match m with
  | MsgNoArmature | MsgTargetRig _ => true
  | _ => false
  end.

(** What the specification says of the cleanup: once a file is processed
    the scene holds no object that was not there before. *)
Definition spec_no_imported_left (before after : BpyData) : Prop :=
  forall o, In o (objects after) -> In (obj_id o) (map obj_id (objects before)).

(** The clip a file brings: the action of the first armature in it. *)
Definition file_clip (c : FbxContents) : option FbxAction :=
  match find (fun fo => String.eqb (fo_type fo) "ARMATURE") (fbx_objects c) with
  | Some fo =>
      match fo_animation fo with
      | Some (Some k) => nth_error (fbx_actions c) k
      | _ => None
      end
  | None => None
  end.

(* ------------------------------------------------------------------ *)
(** ** A concrete host, for instances of the results *)

(** A master file with a mesh and two armatures. *)
Definition demo_master : BpyData :=
  mkData [ mkObject 1 "Body" "MESH" (Some 2) false None;
           mkObject 2 "Rig" "ARMATURE" None true None;
           mkObject 3 "SpareRig" "ARMATURE" None false None ]
         [] [].

(** A clip: an armature with an action, its mesh, and a prop on the mesh. *)
Definition walk_fbx : FbxContents :=
  mkFbx [ mkFbxObject "Armature" "ARMATURE" None (Some (Some 0));
          mkFbxObject "Mesh" "MESH" (Some 0) None;
          mkFbxObject "Hat" "MESH" (Some 1) None ]
        [ mkFbxAction "Armature|Layer0" ((1 # 1)%Q, (30 # 1)%Q) ].

(** A file whose armature carries no animation data. *)
Definition still_fbx : FbxContents :=
  mkFbx [ mkFbxObject "Armature" "ARMATURE" None None;
          mkFbxObject "Mesh" "MESH" (Some 0) None ]
        [].

Definition demo_fs : Fs :=
  mkFs (fun p => String.eqb p "/work/master.blend")
       (fun dir =>
          if String.eqb dir "/work/anims"
          then ["walk.fbx"; "still.fbx"; "bad.FBX"; "notes.txt"]
          else [])
       (fun _ _ => []).

(** Naming for the instances: a name is stored as asked for unless it is
    taken, and then with the first free one of three numbered suffixes. *)
Definition demo_name (used : list string) (name : string) : string :=
  match find (fun n => negb (existsb (String.eqb n) used))
             (name :: map (String.append name) [".001"; ".002"; ".003"]) with
  | Some n => n
  | None => name
  end.

(** Names in code-point order. *)
Definition demo_before (a b : string) : bool :=
  match String.compare a b with
  | Lt => true
  | _ => false
  end.

Definition demo_host : Host :=
  mkHost Posix (fun p => p) (fun p => p) (fun _ => "/out") "5.0.0"
    (fun _ p => if String.eqb p "/work/master.blend"
                then inr demo_master else inl "cannot read file")
    (fun _ p => if String.eqb p "/work/anims/walk.fbx" then inr walk_fbx
                else if String.eqb p "/work/anims/still.fbx" then inr still_fbx
                else inl "import failed")
    (fun f _ => inr f)
    (fun s _ f => inr (mkFs (fun p => String.eqb p (filepath s) || fs_exists f p)
                            (fs_listdir f) (fs_glob f)))
    (fun _ => None) None None (fun _ => None)
    (fun _ => demo_name)
    (fun used _ action_name => demo_name used action_name)
    demo_before.

Definition demo_world : World := mkWorld demo_fs empty_data [] [] [].

(** A master file whose scene yields the armature [Rig] before the
    armature [Armature], and the host that opens it. *)
Definition two_rigs : BpyData :=
  mkData [ mkObject 1 "Rig" "ARMATURE" None false None;
           mkObject 2 "Armature" "ARMATURE" None false None ]
         [] [].

Definition two_rigs_host : Host :=
  mkHost (flavour demo_host) (os_path_abspath demo_host)
    (os_path_normpath demo_host) (os_path_dirname demo_host)
    (version_string demo_host)
    (fun _ _ => inr two_rigs)
    (fbx_file demo_host) (os_makedirs demo_host) (gltf_export demo_host)
    (lights_new_error demo_host) (cycles_error demo_host)
    (setattr_error demo_host) (lights_remove_error demo_host)
    (id_name demo_host) (new_strip_name demo_host) (name_before demo_host).

(** The world once the master file is open. *)
Definition demo_loaded : World := mkWorld demo_fs demo_master [] [] [].

Definition demo_argv (anims_dir : string) : list string :=
  ["blender"; "--background"; "--python"; "merge_animations.py"; "--";
   "--master"; "/work/master.blend"; "--anims"; anims_dir;
   "--output"; "/out/cortex.glb"].

(** At or above the bound [n] a reference is carried by one object: two
    objects of the data with such a reference in common agree on their
    parent. *)
Definition one_per_reference (n : nat) (l : list Object) : Prop :=
  forall x y, In x l -> In y l -> n <= obj_id x -> obj_id x = obj_id y ->
              obj_parent x = obj_parent y.

(** The files of a batch that bring a clip: the import returns, and the
    first armature of the file has an action. *)
Definition brings_clip (host : Host) (f : Fs) (fbx_path : string) : bool :=
  match fbx_file host f (normalize_path host fbx_path) with
  | inr c => match file_clip c with Some _ => true | None => false end
  | inl _ => false
  end.

(** [t] is the track of the clip of the file [fbx_path], in the data [d]:
    it is named after the file and holds one strip; the strip starts at the
    first frame of the clip, truncated, and refers to an action of
    [bpy.data.actions] that has the frame range of the clip; action and
    strip are stored under the names the host made of the name of the
    file. *)
Definition clip_track (host : Host) (f : Fs) (d : BpyData) (fbx_path : string)
  (t : NlaTrack) : Prop :=
  exists c fa a s,
    fbx_file host f (normalize_path host fbx_path) = inr c
    /\ file_clip c = Some fa
    /\ t = mkTrack (anim_name_of host fbx_path) [s]
    /\ strip_frame_start s = int_of_float (fst (fa_frame_range fa))
    /\ strip_action s = act_id a
    /\ In a (data_actions host d)
    /\ act_frame_range a = fa_frame_range fa
    /\ (exists used,
          act_name a = id_name host ActionId used (anim_name_of host fbx_path))
    /\ (exists used,
          strip_name s
          = new_strip_name host used (anim_name_of host fbx_path) (act_name a)).

(* ------------------------------------------------------------------ *)
(** ** Definitions used to state further properties *)

(** Strings in increasing code-point order, the order of [sorted]. *)
Definition str_lt (a b : string) : Prop := String.compare a b = Lt.




(** The value parsed for an option. *)
Definition arg_of (d : dest) (args : Args) : arg_value :=
  match d with
  | Master => args_master args
  | Anims => args_anims args
  | Output => args_output args
  end.

(** [args], with the value of one option replaced. *)
Definition with_arg (d : dest) (v : arg_value) (args : Args) : Args :=
  match d with
  | Master => mkArgs v (args_anims args) (args_output args)
  | Anims => mkArgs (args_master args) v (args_output args)
  | Output => mkArgs (args_master args) (args_anims args) v
  end.

(** The namespace in which the three options have the values of [args]. *)
Definition namespace_of (args : Args) : Namespace :=
  mkNamespace (Some (args_master args)) (Some (args_anims args))
              (Some (args_output args)).

(** The non-empty prefixes of a string. *)
Fixpoint prefixes (s : string) : list string :=
  match s with
  | EmptyString => []
  | String c s' => String c EmptyString :: map (String c) (prefixes s')
  end.

(** The reference the probe light of the patch gets. *)
Definition probe_light (d : BpyData) : nat := S (list_max (lights d)).

(** The data once the probe light is created. *)
Definition with_probe (d : BpyData) : BpyData :=
  mkData (objects d) (actions d) (lights d ++ [probe_light d]).

(** The first step of the patch that raises, if one does: creating the
    light, reading its settings, assigning the class attribute (only
    attempted when the class lacks it), removing the light. *)
Definition patch_failure (host : Host) (w : World) : option exn :=
  match lights_new_error host (bpy w) with
  | Some e => Some e
  | None =>
      match cycles_error host with
      | Some e => Some e
      | None =>
          match (if hasattr (cycles_class w) "cast_shadow"
                 then None else setattr_error host) with
          | Some e => Some e
          | None => lights_remove_error host (with_probe (bpy w))
          end
      end
  end.

(** How one pass of the batch loop ends: the import raised (lines 164-166),
    no usable clip was found (line 201), or the clip was merged (lines
    177-199) with the frames printed and the action attached. *)
Inductive FileOutcome : Type :=
| ImportFailed (e : exn)
| NoAnimation
| MergedClip (frame_start frame_end : Z) (action : nat).

Definition merged (o : FileOutcome) : bool :=
  match o with MergedClip _ _ _ => true | _ => false end.

(** The two lines one pass prints. *)
Definition report (host : Host) (fbx_path : string) (o : FileOutcome)
  : list Msg :=
  let anim_name := anim_name_of host fbx_path in
  [ MsgImporting anim_name;
    match o with
    | ImportFailed e => MsgImportError anim_name e
    | NoAnimation => MsgNoAnimationData anim_name
    | MergedClip frame_start frame_end _ =>
        MsgMerged anim_name frame_start frame_end
    end ].

Definition batch_report (host : Host) (files : list string)
  (outcomes : list FileOutcome) : list Msg :=
  flat_map (fun po => report host (fst po) (snd po)) (combine files outcomes).

(** A file with two armatures, of which only the second carries an
    action. *)
Definition twin_fbx : FbxContents :=
  mkFbx [ mkFbxObject "Root" "ARMATURE" None None;
          mkFbxObject "Armature" "ARMATURE" None (Some (Some 0)) ]
        [ mkFbxAction "Armature|Take" ((0 # 1)%Q, (24 # 1)%Q) ].

Definition twin_host : Host :=
  mkHost Posix (fun p => p) (fun p => p) (fun _ => "/out") "5.0.0"
    (fun _ _ => inl "cannot read file")
    (fun _ _ => inr twin_fbx)
    (fun f _ => inr f)
    (fun _ _ f => inr f)
    (fun _ => None) None None (fun _ => None)
    (fun _ => demo_name)
    (fun used _ action_name => demo_name used action_name)
    demo_before.

(** The world of the instances with one action in the data. *)
Definition demo_with_action : World :=
  mkWorld demo_fs
    (mkData (objects demo_master)
            [mkAction 1 "idle" ((0 # 1)%Q, (10 # 1)%Q)] [])
    [] [] [].

(* ================================================================== *)
(** * Lemmas *)
(* ================================================================== *)

(* ------------------------------------------------------------------ *)
(** ** Lemmas on strings *)

Lemma in_insert_sorted (x y : string) (l : list string) :
  In y (insert_sorted x l) <-> y = x \/ In y l.
Proof.
  induction l as [|z l IH]; simpl.
  - intuition.
  - destruct (String.compare x z) eqn:E; simpl.
    + apply String.compare_eq_iff in E. subst z. intuition.
    + intuition.
    + rewrite IH. intuition.
Qed.





(* ================================================================== *)
(** * Selection of the animation files *)
(* ================================================================== *)



(* ------------------------------------------------------------------ *)
(** ** The command line *)

Lemma lookup_option_store (s : string) (d : dest) :
  lookup_option s option_string_actions = Some (Store d) -> s = flag d.
Proof.
  unfold option_string_actions. cbn [lookup_option].
  repeat match goal with
         | |- context [String.eqb ?a s] => destruct (String.eqb_spec a s)
         end; intros H; inversion H; subst; reflexivity.
Qed.

Lemma names_flag_exact (d : dest) : names_flag d (flag d) = true.
Proof. destruct d; reflexivity. Qed.

Lemma split_eq_dashes (rest : string) :
  split_eq (String "-" (String "-" rest)) =
  match split_eq rest with
  | Some (a, b) => Some (String "-" (String "-" a), b)
  | None => None
  end.
Proof. cbn. destruct (split_eq rest) as [[a b]|]; reflexivity. Qed.

Lemma long_tuples_store (o : string) (e : option string) (d : dest) os e' :
  flat_map (fun '(os, a) =>
              if String.prefix o os then [(a, os, e)] else [])
           option_string_actions = [(Store d, os, e')] ->
  String.prefix o (flag d) = true /\ String.prefix o "--help" = false.
Proof.
  unfold option_string_actions. cbn [flat_map app flag].
  destruct (String.prefix o "-h"), (String.prefix o "--help"),
    (String.prefix o "--master") eqn:E1, (String.prefix o "--anims") eqn:E2,
    (String.prefix o "--output") eqn:E3; cbn; intros H; inversion H; subst;
    cbn; auto.
Qed.

Lemma short_tuples_help (c1 : ascii) (rest : string) :
  Ascii.eqb c1 "-" = false ->
  forall t, In t (get_option_tuples (String "-" (String c1 rest))) ->
            fst (fst t) = Help.
Proof.
  intros Hc t. unfold get_option_tuples. rewrite Hc.
  unfold option_string_actions. cbn [flat_map flag].
  assert (P : forall os, String.prefix (String "-" (String c1 rest))
                                 (String "-" (String "-" os)) = false).
  { intros os. cbn. destruct (ascii_dec c1 "-") as [->|]; [discriminate Hc | reflexivity]. }
  unfold flag. cbn [flag]. rewrite !P.
  repeat match goal with
         | |- context [String.eqb ?a ?b] =>
             let E := fresh "E" in
             destruct (String.eqb_spec a b) as [E|_]; [try discriminate E|]
         | |- context [String.prefix ?a ?b] => destruct (String.prefix a b)
         end; cbn; intuition (subst; auto).
Qed.

Lemma names_flag_long (rest o : string) (v : option string) (d : dest) :
  (o, v) = match split_eq (String "-" (String "-" rest)) with
           | Some (o, e) => (o, Some e)
           | None => (String "-" (String "-" rest), None)
           end ->
  String.prefix o (flag d) = true ->
  String.prefix o "--help" = false ->
  names_flag d (String "-" (String "-" rest)) = true.
Proof.
  intros E P1 P2. unfold names_flag.
  rewrite split_eq_dashes in *.
  assert (exists a, o = String "-" (String "-" a)
                    /\ match split_eq rest with
                       | Some (a0, _) => String "-" (String "-" a0)
                       | None => String "-" (String "-" rest)
                       end = o) as [a [-> Ho]].
  { destruct (split_eq rest) as [[a b]|]; inversion E; eauto. }
  replace (match
              match split_eq rest with
              | Some (a0, b) => Some (String "-" (String "-" a0), b)
              | None => None
              end
            with
            | Some (o, _) => o
            | None => String "-" (String "-" rest)
            end) with (String "-" (String "-" a))
    by (rewrite <- Ho; destruct (split_eq rest) as [[? ?]|]; reflexivity).
  rewrite P1. destruct a; [discriminate P2 | reflexivity].
Qed.

Lemma parse_optional_store (arg os : string) (e : option string) (d : dest) :
  parse_optional arg = Optional (Store d) os e -> names_flag d arg = true.
Proof.
  unfold parse_optional. destruct arg as [|c0 arg']; [discriminate|].
  destruct (Ascii.eqb_spec c0 "-") as [->|]; [cbn [negb]|discriminate].
  destruct (lookup_option _ _) as [a|] eqn:L.
  { intros H. inversion H; subst. apply lookup_option_store in L.
    rewrite L. apply names_flag_exact. }
  destruct (String.length _ =? 1); [discriminate|].
  assert (T : forall a os' e',
             get_option_tuples (String "-" arg') = [(a, os', e')] ->
             a = Store d -> names_flag d (String "-" arg') = true).
  { intros a os' e' T ->.
    destruct arg' as [|c1 rest]; [discriminate T|].
    destruct (Ascii.eqb_spec c1 "-") as [->|Hn].
    - unfold get_option_tuples in T.
      change (Ascii.eqb "-" "-") with true in T. cbv iota in T.
      destruct (match split_eq (String "-" (String "-" rest)) with
                | Some (o, e0) => (o, Some e0)
                | None => (String "-" (String "-" rest), None)
                end) as [o v] eqn:S.
      apply long_tuples_store in T as [T1 T2].
      exact (names_flag_long rest o v d (eq_sym S) T1 T2).
    - apply Ascii.eqb_neq in Hn.
      pose proof (short_tuples_help c1 rest Hn (Store d, os', e')) as F.
      rewrite T in F. specialize (F (or_introl eq_refl)). discriminate F. }
  destruct (split_eq (String "-" arg')) as [[o v]|] eqn:S.
  - destruct (lookup_option o _) as [a|] eqn:Lo.
    { intros H. inversion H; subst. apply lookup_option_store in Lo. subst.
      unfold names_flag. rewrite S. destruct d; reflexivity. }
    destruct (get_option_tuples _) as [|[[a os'] e'] [|]] eqn:G; try discriminate.
    { destruct (negative_number _); [discriminate|].
      destruct (contains_space _); discriminate. }
    intros H. inversion H; subst. eapply T; eauto.
  - destruct (get_option_tuples _) as [|[[a os'] e'] [|]] eqn:G; try discriminate.
    { destruct (negative_number _); [discriminate|].
      destruct (contains_space _); discriminate. }
    intros H. inversion H; subst. eapply T; eauto.
Qed.

Lemma dest_eq_dec (a b : dest) : {a = b} + {a <> b}.
Proof. decide equality. Qed.

Lemma classify_kind (args : list string) (s : string) (k : arg_kind) :
  In (s, k) (classify args) ->
  In s args /\ (k = Positional \/ k = DashDash \/ k = parse_optional s).
Proof.
  induction args as [|a rest IH]; [contradiction|].
  cbn [classify]. destruct (String.eqb a "--").
  - intros [H | H].
    + inversion H; subst. split; [left; reflexivity | auto].
    + apply in_map_iff in H as [x [H Hx]]. inversion H; subst.
      split; [right; exact Hx | auto].
  - intros [H | H].
    + inversion H; subst. split; [left; reflexivity | auto].
    + destruct (IH H) as [H1 H2]. split; [right; exact H1 | exact H2].
Qed.

(** A value is stored only for an option that was given. *)
Lemma consume_parsed (toks : list (string * arg_kind)) (ns : Namespace)
  (pending : option dest) (extras : bool) (a : Args) (d : dest) :
  consume toks ns pending extras = Parsed a ->
  ns_get d ns <> None \/ pending = Some d
  \/ exists s os e, In (s, Optional (Store d) os e) toks.
Proof.
  revert ns pending extras.
  induction toks as [|[s k] rest IH]; intros ns pending extras.
  - cbn [consume]. destruct pending; [discriminate|].
    destruct (ns_master ns) eqn:M; [|discriminate].
    destruct (ns_anims ns) eqn:A; [|discriminate].
    destruct (ns_output ns) eqn:O; [|discriminate].
    intros _. left. destruct d; cbn; congruence.
  - cbn [consume]. destruct pending as [d0|].
    + destruct k; try discriminate. intros H.
      destruct (IH _ _ _ H) as [G | [G | [s' [os [e G]]]]].
      * destruct d, d0; cbn in G |- *; auto.
      * discriminate.
      * right. right. exists s', os, e. right. exact G.
    + destruct k as [| |[|d0] os [v|]| |]; try discriminate; intros H.
      * destruct (IH _ _ _ H) as [G | [G | [s' [os' [e G]]]]];
          [auto | discriminate | right; right; exists s', os', e; right; exact G].
      * destruct (IH _ _ _ H) as [G | [G | [s' [os' [e G]]]]];
          [auto | discriminate | right; right; exists s', os', e; right; exact G].
      * destruct (String.eqb os "-h" && nonempty v && _); discriminate.
      * destruct (IH _ _ _ H) as [G | [G | [s' [os' [e G]]]]].
        -- destruct (dest_eq_dec d d0) as [->|N].
           ++ right. right. exists s, os, (Some v). left. reflexivity.
           ++ left. destruct d, d0; cbn in G |- *; auto; contradiction.
        -- discriminate.
        -- right. right. exists s', os', e. right. exact G.
      * destruct (IH _ _ _ H) as [G | [G | [s' [os' [e G]]]]].
        -- auto.
        -- inversion G; subst. right. right. exists s, os, None. left. reflexivity.
        -- right. right. exists s', os', e. right. exact G.
      * destruct (IH _ _ _ H) as [G | [G | [s' [os' [e G]]]]];
          [auto | discriminate | right; right; exists s', os', e; right; exact G].
Qed.

(** Every required option must be named in the arguments. *)
Lemma parse_args_requires (d : dest) (args : list string) :
  absent d args -> exists code, parse_args args = ParserExit code.
Proof.
  intros Ab. unfold parse_args.
  destruct (existsb is_ambiguous (classify args)); [eauto|].
  destruct (consume _ _ _ _) as [a|code] eqn:C; [|eauto]. exfalso.
  destruct (consume_parsed _ _ _ _ a d C) as [G | [G | [s [os [e G]]]]].
  - destruct d; cbn in G; congruence.
  - discriminate.
  - apply classify_kind in G as [Hin [K | [K | K]]]; try discriminate.
    symmetry in K. apply parse_optional_store in K.
    rewrite (Ab s Hin) in K. discriminate.
Qed.

(** The parser leaves with status 0 (help) or 2 (usage error), never 1. *)
Lemma consume_exit_code (toks : list (string * arg_kind)) (ns : Namespace)
  (pending : option dest) (extras : bool) (code : Z) :
  consume toks ns pending extras = ParserExit code -> code = 0%Z \/ code = 2%Z.
Proof.
  revert ns pending extras.
  induction toks as [|[s k] rest IH]; intros ns pending extras; cbn [consume].
  - destruct pending; [intros H; inversion H; auto|].
    destruct (ns_master ns), (ns_anims ns), (ns_output ns), extras;
      intros H; inversion H; auto.
  - destruct pending as [d0|].
    + destruct k; try (intros H; inversion H; auto; fail). apply IH.
    + destruct k as [| |[|d0] os [v|]| |];
        try (intros H; inversion H; auto; fail); try apply IH.
      destruct (String.eqb os "-h" && nonempty v && _); intros H; inversion H; auto.
Qed.

Lemma parse_args_exit_code (args : list string) (code : Z) :
  parse_args args = ParserExit code -> code = 0%Z \/ code = 2%Z.
Proof.
  unfold parse_args. destruct (existsb is_ambiguous (classify args)).
  - intros H. inversion H. auto.
  - apply consume_exit_code.
Qed.

Lemma script_args_without_separator (sys_argv : list string) :
  ~ In "--" sys_argv -> script_args sys_argv = [].
Proof.
  intros N. unfold script_args.
  destruct (existsb (String.eqb "--") sys_argv) eqn:E; [|reflexivity].
  apply existsb_exists in E as [x [Hx E]]. apply String.eqb_eq in E. subst x.
  contradiction.
Qed.

Ltac run :=
  unfold modify_object, modify_bpy, called, threw, path_exists;
  unfold bind, ret, print, emit, get_bpy, put_bpy, get_fs, put_fs,
    get_class, put_class, sys_exit, raise, try_except;
  cbn [fs bpy cycles_class out trace fst snd].

Lemma printed_mk f b c o t (ms : list Msg) :
  printed ms (mkWorld f b c o t) = mkWorld f b c (o ++ ms) t.
Proof. reflexivity. Qed.

Lemma traced_mk f b c o t (es : list Event) :
  traced es (mkWorld f b c o t) = mkWorld f b c o (t ++ es).
Proof. reflexivity. Qed.

Lemma with_bpy_mk f b c o t (d : BpyData) :
  with_bpy d (mkWorld f b c o t) = mkWorld f d c o t.
Proof. reflexivity. Qed.

Lemma with_fs_mk f b c o t (f' : Fs) :
  with_fs f' (mkWorld f b c o t) = mkWorld f' b c o t.
Proof. reflexivity. Qed.

(** Brings a world built by successive changes to one record. *)
Ltac norm_world :=
  repeat (rewrite printed_mk || rewrite traced_mk
          || rewrite with_bpy_mk || rewrite with_fs_mk);
  cbn [fs bpy cycles_class out trace].

Lemma world_eta (w : World) :
  mkWorld (fs w) (bpy w) (cycles_class w) (out w) (trace w) = w.
Proof. destruct w; reflexivity. Qed.

(** Running a sequence: the first computation returns, the rest goes on
    from there. *)
Lemma bind_ret {A B} (m : M A) (k : A -> M B) (w w' : World) (a : A) :
  m w = (Ret a, w') -> bind m k w = k a w'.
Proof. unfold bind. intros ->. reflexivity. Qed.

Lemma bind_get_bpy {B} (k : BpyData -> M B) (w : World) :
  bind get_bpy k w = k (bpy w) w.
Proof. reflexivity. Qed.

Lemma bind_get_fs {B} (k : Fs -> M B) (w : World) :
  bind get_fs k w = k (fs w) w.
Proof. reflexivity. Qed.

Lemma print_run (m : Msg) (w : World) :
  print m w = (Ret tt, mkWorld (fs w) (bpy w) (cycles_class w) (out w ++ [m]) (trace w)).
Proof. reflexivity. Qed.

Lemma modify_bpy_run (f : BpyData -> BpyData) (c : Call) (w : World) :
  modify_bpy f c w =
  (Ret tt, mkWorld (fs w) (f (bpy w)) (cycles_class w) (out w)
                   (trace w ++ [Called c])).
Proof. reflexivity. Qed.

Ltac step_by tac :=
  erewrite bind_ret by tac; cbn [fs bpy cycles_class out trace].

Ltac step_print := step_by ltac:(apply print_run).
Ltac step_modify := step_by ltac:(apply modify_bpy_run).
Ltac step_ret := step_by ltac:(reflexivity).

Lemma select_imported_run (imp : nat) (snapshot : list Object) (w : World) :
  select_imported imp snapshot w =
  (Ret tt, mkWorld (fs w) (select_imported_data imp snapshot (bpy w))
                   (cycles_class w) (out w)
                   (trace w ++ select_imported_calls imp snapshot)).
Proof.
  revert w. induction snapshot as [|obj rest IH]; intros w.
  - cbn. unfold ret. rewrite app_nil_r, world_eta. reflexivity.
  - cbn [select_imported]. unfold select_imported_data, select_imported_calls.
    cbn [fold_left filter].
    destruct (belongs_to imp obj).
    + unfold select_set, modify_object. step_modify.
      rewrite IH. cbn [fs bpy cycles_class out trace map].
      rewrite <- app_assoc. reflexivity.
    + step_ret. rewrite IH. reflexivity.
Qed.

Section Files.
Variable host : Host.

Lemma import_raises (path : string) (w : World) (e : exn) :
  fbx_file host (fs w) path = inl e ->
  try_except (import_scene_fbx host path ;; ret None) (fun e => ret (Some e)) w =
  (Ret (Some e),
   mkWorld (fs w) (bpy w) (cycles_class w) (out w)
           (trace w ++ [Threw (import_call path) e])).
Proof. intros E. unfold import_scene_fbx. run. rewrite E. reflexivity. Qed.

Lemma import_returns (path : string) (w : World) (contents : FbxContents) :
  fbx_file host (fs w) path = inr contents ->
  try_except (import_scene_fbx host path ;; ret None) (fun e => ret (Some e)) w =
  (Ret None,
   mkWorld (fs w) (fbx_into host contents (bpy w)) (cycles_class w) (out w)
           (trace w ++ [Called (import_call path)])).
Proof. intros E. unfold import_scene_fbx. run. rewrite E. reflexivity. Qed.

Lemma process_file_import_error (m : nat) (p : string) (c : nat) (w : World) (e : exn) :
  fbx_file host (fs w) (normalize_path host p) = inl e ->
  process_file host m p c w =
  (Ret c,
   mkWorld (fs w) (bpy w) (cycles_class w)
     (out w ++ [MsgImporting (anim_name_of host p);
                MsgImportError (anim_name_of host p) e])
     (trace w ++ [Threw (import_call (normalize_path host p)) e])).
Proof.
  intros E. unfold process_file. cbv zeta.
  step_print. step_by ltac:(apply import_raises; exact E).
  step_print. rewrite <- app_assoc. reflexivity.
Qed.

Lemma process_file_no_clip (m : nat) (p : string) (c : nat) (w : World)
  (contents : FbxContents) :
  fbx_file host (fs w) (normalize_path host p) = inr contents ->
  clip_action (find_imported_armature m (fbx_into host contents (bpy w))) = None ->
  process_file host m p c w =
  (Ret c,
   mkWorld (fs w) (fbx_into host contents (bpy w)) (cycles_class w)
     (out w ++ [MsgImporting (anim_name_of host p);
                MsgNoAnimationData (anim_name_of host p)])
     (trace w ++ [Called (import_call (normalize_path host p))])).
Proof.
  intros E N. unfold process_file. cbv zeta.
  step_print. step_by ltac:(apply import_returns; exact E).
  rewrite bind_get_bpy. cbn [bpy]. rewrite N.
  step_print. rewrite <- app_assoc. reflexivity.
Qed.

Lemma process_file_merged (m : nat) (p : string) (c : nat) (w : World)
  (contents : FbxContents) (imp : Object) (action : nat) :
  fbx_file host (fs w) (normalize_path host p) = inr contents ->
  clip_action (find_imported_armature m (fbx_into host contents (bpy w)))
  = Some (imp, action) ->
  let anim_name := anim_name_of host p in
  let d0 := fbx_into host contents (bpy w) in
  let d1 := attach_clip host m action anim_name d0 in
  process_file host m p c w =
  (Ret (S c),
   mkWorld (fs w) (cleanup (obj_id imp) d1) (cycles_class w)
     (out w ++ [MsgImporting anim_name;
                MsgMerged anim_name
                  (int_of_float (fst (action_frame_range action d1)))
                  (int_of_float (snd (action_frame_range action d1)))])
     (trace w ++ [Called (import_call (normalize_path host p))]
              ++ attach_calls host m action anim_name d0
              ++ cleanup_calls (obj_id imp) d1)).
Proof.
  intros E N anim_name d0 d1. unfold process_file. cbv zeta.
  step_print. step_by ltac:(apply import_returns; exact E).
  rewrite bind_get_bpy. cbn [bpy]. rewrite N. fold d0. fold anim_name.
  unfold set_action_name, animation_data_create, nla_tracks_new, set_track_name,
    strips_new, set_strip_action, select_all_deselect, object_delete, modify_object.
  step_modify. rewrite bind_get_bpy. cbn [bpy].
  unfold d1, attach_clip, attach_calls, cleanup, cleanup_calls. cbv zeta.
  destruct (lacks_animation_data m (rename_action host action anim_name d0)).
  - step_modify. step_modify.
    step_modify. rewrite bind_get_bpy. cbn [bpy].
    step_modify. step_modify.
    rewrite bind_get_bpy. cbn [bpy].
    step_print. step_modify.
    rewrite bind_get_bpy. cbn [bpy].
    step_by ltac:(apply select_imported_run). step_modify.
    unfold ret. repeat rewrite <- app_assoc. reflexivity.
  - step_ret. step_modify.
    step_modify. rewrite bind_get_bpy. cbn [bpy].
    step_modify. step_modify.
    rewrite bind_get_bpy. cbn [bpy].
    step_print. step_modify.
    rewrite bind_get_bpy. cbn [bpy].
    step_by ltac:(apply select_imported_run). step_modify.
    unfold ret. repeat rewrite <- app_assoc. reflexivity.
Qed.

End Files.

(* ---------- generic list facts ---------- *)

Lemma find_map_same {A} (p : A -> bool) (h : A -> A) (l : list A) :
  (forall x, p (h x) = p x) ->
  find p (map h l) = option_map h (find p l).
Proof.
  intros Hp. induction l as [|x l IH]; [reflexivity|].
  cbn. rewrite Hp. destruct (p x); [reflexivity | exact IH].
Qed.

Lemma find_app_found {A} (p : A -> bool) (l1 l2 : list A) (x : A) :
  find p l1 = Some x -> find p (l1 ++ l2) = Some x.
Proof.
  induction l1 as [|y l1 IH]; [discriminate|].
  cbn. destruct (p y); auto.
Qed.

Lemma find_filter_keep {A} (p q : A -> bool) (l : list A) :
  (forall x, In x l -> p x = true -> q x = true) ->
  find p (filter q l) = find p l.
Proof.
  induction l as [|x l IH]; intros H; [reflexivity|].
  cbn. destruct (q x) eqn:Q; cbn.
  - destruct (p x); [reflexivity|]. apply IH. intros; apply H; cbn; auto.
  - destruct (p x) eqn:P.
    + rewrite (H x (or_introl eq_refl) P) in Q. discriminate.
    + apply IH. intros; apply H; cbn; auto.
Qed.

Lemma update_last_app {A} (f : A -> A) (l : list A) (x : A) :
  update_last f (l ++ [x]) = l ++ [f x].
Proof.
  induction l as [|y l IH]; [reflexivity|].
  cbn [app update_last]. rewrite IH.
  destruct (l ++ [x]) eqn:E; [destruct l; discriminate | reflexivity].
Qed.

Lemma list_max_ge (l : list nat) (x : nat) : In x l -> x <= list_max l.
Proof.
  intros H. pose proof (proj1 (list_max_le l (list_max l)) (le_n _)) as F.
  rewrite Forall_forall in F. auto.
Qed.

(* ---------- references ---------- *)

Lemma fresh_obj_stale (d : BpyData) (o : Object) :
  In o (objects d) -> stale (fresh_obj d) o.
Proof.
  intros H. unfold stale, fresh_obj.
  assert (R : forall r, In r (obj_refs o) ->
                        r <= list_max (flat_map obj_refs (objects d))).
  { intros r Hr. apply list_max_ge, in_flat_map. eauto. }
  split.
  - apply Nat.lt_succ_r, R. left. reflexivity.
  - intros p Hp. apply Nat.lt_succ_r, R. unfold obj_refs. rewrite Hp.
    right. left. reflexivity.
Qed.

Lemma import_objects_recent (host : Host) (used : list string)
  (bo ba no na i : nat) (l : list FbxObject) (o : Object) :
  In o (import_objects host used bo ba no na i l) ->
  recent bo o /\ obj_selected o = true.
Proof.
  revert used i. induction l as [|fo l IH]; intros used i; [contradiction|].
  cbn. intros [<- | H].
  - unfold recent. cbn. split; [lia | reflexivity].
  - eapply IH; eauto.
Qed.

Lemma keeps_refs_stale (f : Object -> Object) (n : nat) (o : Object) :
  keeps_refs f -> stale n o -> stale n (f o).
Proof.
  intros K [S1 S2]. destruct (K o) as [K1 K2]. unfold stale.
  rewrite K1, K2. auto.
Qed.

Lemma keeps_refs_recent (f : Object -> Object) (n : nat) (o : Object) :
  keeps_refs f -> recent n o -> recent n (f o).
Proof.
  intros K R. destruct (K o) as [K1 _]. unfold recent. rewrite K1. exact R.
Qed.

Lemma keeps_refs_set_selected (b : bool) : keeps_refs (set_selected b).
Proof. intros o. split; reflexivity. Qed.

Lemma keeps_refs_set_animation_data (ad : option AnimData) :
  keeps_refs (set_animation_data ad).
Proof. intros o. split; reflexivity. Qed.

Lemma keeps_refs_on_tracks (f : list NlaTrack -> list NlaTrack) :
  keeps_refs (on_tracks f).
Proof.
  intros o. unfold on_tracks. destruct (obj_animation_data o); split; reflexivity.
Qed.

Create HintDb refs.
#[local] Hint Resolve keeps_refs_set_selected keeps_refs_set_animation_data
  keeps_refs_on_tracks keeps_refs_stale keeps_refs_recent : refs.

Lemma keeps_refs_at (m : nat) (f : Object -> Object) :
  keeps_refs f -> keeps_refs (fun o => if obj_id o =? m then f o else o).
Proof.
  intros F o. destruct (obj_id o =? m); [apply F | split; reflexivity].
Qed.

Lemma stale_not_belongs (n imp : nat) (o : Object) :
  stale n o -> n <= imp -> belongs_to imp o = false.
Proof.
  intros [S1 S2] L. unfold belongs_to.
  destruct (Nat.eqb_spec (obj_id o) imp); [lia|]. cbn.
  destruct (obj_parent o) as [p|]; [|reflexivity].
  specialize (S2 p eq_refl). destruct (Nat.eqb_spec p imp); [lia | reflexivity].
Qed.

(* ---------- the transformations of the data ---------- *)

Lemma find_object_update (m m' : nat) (f : Object -> Object) (d : BpyData) :
  keeps_refs f ->
  find_object m (update_object m' f d) =
  option_map (fun o => if obj_id o =? m' then f o else o) (find_object m d).
Proof.
  intros F. unfold find_object, update_object. cbn [objects].
  apply find_map_same. intros o.
  destruct (keeps_refs_at m' f F o) as [-> _]. reflexivity.
Qed.

Lemma select_imported_objects (imp : nat) (snapshot : list Object) (d : BpyData) :
  objects (select_imported_data imp snapshot d) =
  map (fun o =>
         if existsb (fun s => belongs_to imp s && (obj_id o =? obj_id s)) snapshot
         then set_selected true o else o) (objects d).
Proof.
  revert d. induction snapshot as [|s rest IH]; intros d.
  - cbn. symmetry. apply map_id.
  - unfold select_imported_data in *. cbn [fold_left existsb]. rewrite IH.
    destruct (belongs_to imp s); cbn [andb orb].
    + unfold update_object. cbn [objects]. rewrite map_map. apply map_ext.
      intros o. destruct (obj_id o =? obj_id s); cbn [orb]; [|reflexivity].
      cbn [set_selected obj_id].
      destruct (existsb _ rest); reflexivity.
    + reflexivity.
Qed.

Lemma select_imported_rest (imp : nat) (snapshot : list Object) (d : BpyData) :
  actions (select_imported_data imp snapshot d) = actions d
  /\ lights (select_imported_data imp snapshot d) = lights d.
Proof.
  revert d. induction snapshot as [|s rest IH]; intros d; [split; reflexivity|].
  unfold select_imported_data in *. cbn [fold_left].
  destruct (belongs_to imp s); [|apply IH].
  destruct (IH (update_object (obj_id s) (set_selected true) d)) as [A B].
  rewrite A, B. split; reflexivity.
Qed.

Lemma cleanup_objects (imp : nat) (d : BpyData) :
  let snap := map (set_selected false) (objects d) in
  let marked :=
    map (fun o =>
           if existsb (fun s => belongs_to imp s && (obj_id o =? obj_id s)) snap
           then set_selected true o else o) snap in
  objects (cleanup imp d) =
  map (unparent (map obj_id (filter obj_selected marked)))
      (filter (fun o => negb (obj_selected o)) marked).
Proof.
  cbv zeta. unfold cleanup, delete_selected. cbn [objects].
  rewrite select_imported_objects. reflexivity.
Qed.

Lemma unparent_keeps_id (gone : list nat) (o : Object) :
  obj_id (unparent gone o) = obj_id o.
Proof.
  unfold unparent. destruct (obj_parent o); [|reflexivity].
  destruct (existsb _ gone); reflexivity.
Qed.

Lemma unparent_not_belongs (gone : list nat) (imp : nat) (o : Object) :
  belongs_to imp o = false -> belongs_to imp (unparent gone o) = false.
Proof.
  unfold unparent. destruct (obj_parent o) eqn:P; [|auto].
  destruct (existsb _ gone); [|auto].
  unfold belongs_to. cbn. rewrite P. intros H.
  apply orb_false_iff in H as [-> _]. reflexivity.
Qed.

(** After the cleanup nothing that belonged to the imported armature is
    left. *)
Lemma cleanup_removes (imp : nat) (d : BpyData) (o : Object) :
  In o (objects (cleanup imp d)) -> belongs_to imp o = false.
Proof.
  rewrite cleanup_objects. rewrite in_map_iff.
  intros [o8 [<- H8]]. apply unparent_not_belongs.
  apply filter_In in H8 as [H8 U]. apply in_map_iff in H8 as [o7 [<- H7]].
  destruct (existsb _ _) eqn:X; [discriminate U|].
  destruct (belongs_to imp o7) eqn:B; [|reflexivity].
  assert (T : existsb (fun s => belongs_to imp s && (obj_id o7 =? obj_id s))
                (map (set_selected false) (objects d)) = true).
  { apply existsb_exists. exists o7. split; [exact H7|].
    rewrite B, Nat.eqb_refl. reflexivity. }
  congruence.
Qed.

Definition placed (n : nat) (o : Object) : Prop := stale n o \/ recent n o.

Lemma placed_below (n : nat) (o : Object) :
  placed n o -> obj_id o < n -> stale n o.
Proof. intros [S | R] L; [exact S | unfold recent in R; lia]. Qed.

Section Cleanup.

(** The cleanup seen from a bound [n] that separates what was in the scene
    (below) from the imported armature (at or above). *)
Variables (n imp : nat) (d : BpyData).
Hypothesis bound_imp : n <= imp.
Hypothesis all_placed : forall o, In o (objects d) -> placed n o.

Let snap := map (set_selected false) (objects d).

Let mark (o : Object) : Object :=
  if existsb (fun s => belongs_to imp s && (obj_id o =? obj_id s)) snap
  then set_selected true o else o.

Lemma snap_placed (o : Object) :
  In o snap -> placed n o /\ obj_selected o = false.
Proof.
  intros Ho. apply in_map_iff in Ho as [o0 [<- H0]].
  split; [|reflexivity].
  destruct (all_placed o0 H0) as [S | R]; [left | right].
  - auto with refs.
  - auto with refs.
Qed.

Lemma mark_keeps_id (o : Object) : obj_id (mark o) = obj_id o.
Proof. unfold mark. destruct (existsb _ snap); reflexivity. Qed.

(** An object below the bound is never marked for deletion. *)
Lemma mark_skips_stale (o : Object) :
  In o snap -> obj_id o < n -> mark o = o.
Proof.
  intros Ho Lo. unfold mark.
  destruct (existsb _ snap) eqn:X; [|reflexivity].
  apply existsb_exists in X as [s [Hs X]].
  apply andb_true_iff in X as [B E]. apply Nat.eqb_eq in E.
  destruct (snap_placed s Hs) as [Ps _].
  assert (Ss : stale n s) by (apply placed_below; [exact Ps | lia]).
  rewrite (stale_not_belongs n imp s Ss bound_imp) in B. discriminate.
Qed.

(** What is deleted lies at or above the bound. *)
Lemma deleted_recent (x : nat) :
  In x (map obj_id (filter obj_selected (map mark snap))) -> n <= x.
Proof.
  intros Hx. apply in_map_iff in Hx as [o8 [<- H8]].
  apply filter_In in H8 as [H8 S8]. apply in_map_iff in H8 as [o [<- Ho]].
  rewrite mark_keeps_id. destruct (le_lt_dec n (obj_id o)) as [L|L]; [exact L|].
  rewrite (mark_skips_stale o Ho L) in S8.
  destruct (snap_placed o Ho) as [_ U]. congruence.
Qed.

Lemma unparent_stale (o : Object) :
  stale n o ->
  unparent (map obj_id (filter obj_selected (map mark snap))) o = o.
Proof.
  intros [_ So]. unfold unparent.
  destruct (obj_parent o) as [p|] eqn:P; [|reflexivity].
  destruct (existsb (Nat.eqb p) _) eqn:X; [|reflexivity].
  apply existsb_exists in X as [x [Hx E]]. apply Nat.eqb_eq in E. subst x.
  apply deleted_recent in Hx. specialize (So p eq_refl). lia.
Qed.

(** The reference [m] of an object below the bound still finds it after
    the cleanup. *)
Lemma cleanup_find_stale (m : nat) :
  m < n ->
  find_object m (cleanup imp d) =
  option_map (set_selected false) (find_object m d).
Proof.
  intros Hm. unfold find_object. rewrite cleanup_objects. fold snap. fold mark.
  rewrite find_map_same by (intros o; rewrite unparent_keeps_id; reflexivity).
  rewrite find_filter_keep.
  2:{ intros o8 H8 E8. apply in_map_iff in H8 as [o [<- Ho]].
      rewrite mark_keeps_id in E8. apply Nat.eqb_eq in E8.
      rewrite (mark_skips_stale o Ho) by lia.
      destruct (snap_placed o Ho) as [_ ->]. reflexivity. }
  rewrite find_map_same by (intros o; rewrite mark_keeps_id; reflexivity).
  unfold snap at 2.
  rewrite find_map_same by reflexivity.
  destruct (find (fun o => obj_id o =? m) (objects d)) as [o|] eqn:F; [|reflexivity].
  cbn [option_map]. f_equal.
  apply find_some in F as [Fin Fid]. apply Nat.eqb_eq in Fid.
  assert (Ho : In (set_selected false o) snap) by (apply in_map; exact Fin).
  rewrite (mark_skips_stale _ Ho) by (cbn; lia).
  apply unparent_stale. apply keeps_refs_stale; [apply keeps_refs_set_selected|].
  apply placed_below; [auto | lia].
Qed.

(** Every object below the bound survives the cleanup, deselected. *)
Lemma cleanup_keeps_stale (o : Object) :
  In o (objects d) -> stale n o ->
  In (set_selected false o) (objects (cleanup imp d)).
Proof.
  intros Ho So. rewrite cleanup_objects. fold snap. fold mark.
  assert (Hs : In (set_selected false o) snap) by (apply in_map; exact Ho).
  assert (So' : stale n (set_selected false o))
    by (apply keeps_refs_stale; [apply keeps_refs_set_selected | exact So]).
  apply in_map_iff. exists (set_selected false o). split.
  - apply unparent_stale. exact So'.
  - apply filter_In. split; [|reflexivity].
    apply in_map_iff. exists (set_selected false o). split; [|exact Hs].
    apply mark_skips_stale; [exact Hs | exact (proj1 So')].
Qed.

End Cleanup.

Lemma fbx_into_placed (host : Host) (c : FbxContents) (d : BpyData) (o : Object) :
  In o (objects (fbx_into host c d)) -> placed (fresh_obj d) o.
Proof.
  unfold fbx_into. cbn [objects]. rewrite in_app_iff, in_map_iff.
  intros [[o0 [<- H0]] | H].
  - left. apply keeps_refs_stale; [apply keeps_refs_set_selected|].
    apply fresh_obj_stale; exact H0.
  - right. eapply import_objects_recent; eauto.
Qed.

Lemma fbx_into_find (host : Host) (c : FbxContents) (d : BpyData) (m : nat) (mo : Object) :
  find_object m d = Some mo ->
  find_object m (fbx_into host c d) = Some (set_selected false mo).
Proof.
  intros F. unfold find_object, fbx_into. cbn [objects].
  apply find_app_found. rewrite find_map_same by reflexivity.
  unfold find_object in F. rewrite F. reflexivity.
Qed.

Lemma find_object_below (d : BpyData) (m : nat) (mo : Object) :
  find_object m d = Some mo -> obj_id mo = m /\ In mo (objects d).
Proof.
  intros F. apply find_some in F as [H E]. apply Nat.eqb_eq in E. auto.
Qed.

Lemma imported_armature_recent (host : Host) (c : FbxContents) (d : BpyData) (m : nat)
  (imp : Object) (action : nat) :
  clip_action (find_imported_armature m (fbx_into host c d)) = Some (imp, action) ->
  fresh_obj d <= obj_id imp
  /\ In imp (objects (fbx_into host c d))
  /\ is_armature imp = true /\ obj_id imp <> m
  /\ exists ad, obj_animation_data imp = Some ad /\ ad_action ad = Some action.
Proof.
  unfold clip_action, find_imported_armature.
  destruct (find _ _) as [o|] eqn:F; [|discriminate].
  destruct (obj_animation_data o) as [ad|] eqn:A; [|discriminate].
  destruct (ad_action ad) as [a|] eqn:B; [|discriminate].
  intros H. inversion H; subst. clear H.
  apply find_some in F as [Hin Hp]. apply filter_In in Hin as [Hin Hsel].
  apply andb_true_iff in Hp as [Harm Hne].
  apply negb_true_iff, Nat.eqb_neq in Hne.
  repeat split; eauto.
  unfold fbx_into in Hin. cbn [objects] in Hin.
  apply in_app_iff in Hin as [Hin | Hin].
  - apply in_map_iff in Hin as [o0 [<- _]]. discriminate Hsel.
  - apply import_objects_recent in Hin as [R _]. exact R.
Qed.

Lemma attach_tracks (name : string) (strip : NlaStrip) (o : Object)
  (ad : AnimData) :
  obj_animation_data o = Some ad ->
  on_tracks (update_last (fun t =>
     mkTrack (track_name t)
             (update_last
                (fun s => mkStrip (strip_name s) (strip_frame_start s)
                                  (strip_action strip))
                (track_strips t))))
    (on_tracks (update_last (fun t =>
        mkTrack (track_name t) (track_strips t ++ [strip])))
       (on_tracks (update_last (fun t => mkTrack name (track_strips t)))
          (on_tracks (fun ts => ts ++ [mkTrack "NlaTrack" []]) o)))
  = mkObject (obj_id o) (obj_name o) (obj_type o) (obj_parent o) (obj_selected o)
      (Some (mkAnimData (ad_action ad)
               (ad_nla_tracks ad ++ [mkTrack name [strip]]))).
Proof.
  intros A. unfold on_tracks at 4. rewrite A.
  unfold on_tracks, set_animation_data.
  cbn [obj_animation_data obj_id obj_name obj_type obj_parent obj_selected
       ad_action ad_nla_tracks].
  rewrite !update_last_app. destruct strip. reflexivity.
Qed.

Lemma at_id (m : nat) (f : Object -> Object) (o : Object) :
  obj_id o = m -> (if obj_id o =? m then f o else o) = f o.
Proof. intros ->. rewrite Nat.eqb_refl. reflexivity. Qed.

Lemma strip_names_tracks (o : Object) :
  strip_names o = flat_map (fun t => map strip_name (track_strips t)) (tracks_of o).
Proof. unfold strip_names, tracks_of. destruct (obj_animation_data o); reflexivity. Qed.

(** The master armature after lines 177-188: one more track, named after
    the file, holding the strip the host made for the action. *)
Lemma attach_clip_find (host : Host) (m action : nat) (name : string)
  (d : BpyData) (mo : Object) :
  find_object m d = Some mo ->
  find_object m (attach_clip host m action name d) =
  Some (with_clip name
          (mkStrip (new_strip_name host (strip_names mo) name
                      (action_name action (rename_action host action name d)))
                   (int_of_float
                      (fst (action_frame_range action
                              (rename_action host action name d))))
                   action)
          mo).
Proof.
  intros F. set (d1 := rename_action host action name d).
  destruct (find_object_below d m mo F) as [Hid _].
  unfold attach_clip, add_strip. cbv zeta.
  assert (F1 : find_object m (rename_action host action name d) = Some mo) by exact F.
  fold d1 in F1 |- *.
  set (d2 := if lacks_animation_data m d1
             then update_object m (set_animation_data (Some (mkAnimData None []))) d1
             else d1).
  assert (F2 : exists o2 ad,
             find_object m d2 = Some o2 /\ obj_id o2 = m
             /\ obj_animation_data o2 = Some ad
             /\ ad_action ad = action_of mo /\ ad_nla_tracks ad = tracks_of mo
             /\ obj_name o2 = obj_name mo /\ obj_type o2 = obj_type mo
             /\ obj_parent o2 = obj_parent mo /\ obj_selected o2 = obj_selected mo).
  { unfold d2, lacks_animation_data, action_of, tracks_of. rewrite F1.
    destruct (obj_animation_data mo) as [ad|] eqn:A.
    - exists mo, ad. rewrite A. auto 12.
    - rewrite find_object_update by apply keeps_refs_set_animation_data.
      rewrite F1. cbn [option_map]. rewrite (at_id _ _ _ Hid).
      eexists _, _. split; [reflexivity|]. cbn. auto 12. }
  destruct F2 as [o2 [ad [F2 [I2 [A2 [B2 [T2 [N2 [Y2 [P2 S2]]]]]]]]]].
  set (d3 := update_object m
               (on_tracks (update_last (fun t => mkTrack name (track_strips t))))
               (update_object m
                  (on_tracks (fun ts => ts ++ [mkTrack "NlaTrack" []])) d2)).
  assert (K : forall f o, obj_id o = m -> obj_id (on_tracks f o) = m).
  { intros f o H. destruct (keeps_refs_on_tracks f o) as [-> _]. exact H. }
  assert (F3 : find_object m d3 =
               Some (on_tracks (update_last (fun t => mkTrack name (track_strips t)))
                       (on_tracks (fun ts => ts ++ [mkTrack "NlaTrack" []]) o2))).
  { unfold d3. rewrite !find_object_update by apply keeps_refs_on_tracks.
    rewrite F2. cbn [option_map].
    rewrite (at_id m _ o2 I2). rewrite (at_id m _ _ (K _ _ I2)). reflexivity. }
  assert (A3 : actions d3 = actions d1).
  { unfold d3, d2. destruct (lacks_animation_data m d1); reflexivity. }
  assert (S3 : new_strip host m name
                 (int_of_float (fst (action_frame_range action d3))) action d3
               = mkStrip (new_strip_name host (strip_names mo) name
                            (action_name action d1))
                         (int_of_float (fst (action_frame_range action d1)))
                         action).
  { unfold new_strip. rewrite F3.
    unfold action_name, action_frame_range, find_action. rewrite A3.
    f_equal. f_equal.
    rewrite !strip_names_tracks. unfold tracks_of, on_tracks at 1.
    unfold on_tracks at 1. rewrite A2.
    cbn [obj_animation_data set_animation_data ad_nla_tracks].
    rewrite update_last_app. cbn [ad_nla_tracks].
    rewrite flat_map_app. cbn [flat_map track_strips map app].
    rewrite app_nil_r, T2. unfold tracks_of. reflexivity. }
  rewrite S3.
  rewrite !find_object_update by apply keeps_refs_on_tracks.
  rewrite F3. cbn [option_map].
  rewrite (at_id m _ _ (K _ _ (K _ _ I2))).
  rewrite (at_id m _ _ (K _ _ (K _ _ (K _ _ I2)))).
  match goal with
  | |- context [mkStrip ?n ?f action] =>
      change action with (strip_action (mkStrip n f action)) at 1
  end.
  rewrite (attach_tracks _ _ _ _ A2).
  unfold with_clip. rewrite B2, T2, N2, Y2, P2, S2, I2, Hid. reflexivity.
Qed.

Lemma update_object_placed (n m : nat) (f : Object -> Object) (d : BpyData) :
  keeps_refs f ->
  (forall o, In o (objects d) -> placed n o) ->
  forall o, In o (objects (update_object m f d)) -> placed n o.
Proof.
  intros F H o Ho. unfold update_object in Ho. cbn [objects] in Ho.
  apply in_map_iff in Ho as [o0 [<- H0]].
  pose proof (keeps_refs_at m f F) as K.
  destruct (H o0 H0) as [S | R]; [left | right].
  - exact (keeps_refs_stale _ n o0 K S).
  - exact (keeps_refs_recent _ n o0 K R).
Qed.

Lemma update_object_other (m : nat) (f : Object -> Object) (d : BpyData) (o : Object) :
  In o (objects d) -> obj_id o <> m -> In o (objects (update_object m f d)).
Proof.
  intros H N. unfold update_object. cbn [objects]. apply in_map_iff.
  exists o. split; [|exact H].
  destruct (Nat.eqb_spec (obj_id o) m); [contradiction | reflexivity].
Qed.

Lemma attach_clip_placed (host : Host) (n m action : nat) (name : string) (d : BpyData) :
  (forall o, In o (objects d) -> placed n o) ->
  forall o, In o (objects (attach_clip host m action name d)) -> placed n o.
Proof.
  intros H. unfold attach_clip. cbv zeta.
  repeat apply update_object_placed; try apply keeps_refs_on_tracks.
  destruct (lacks_animation_data m _).
  - apply update_object_placed; [apply keeps_refs_set_animation_data | exact H].
  - exact H.
Qed.

Lemma attach_clip_other (host : Host) (m action : nat) (name : string) (d : BpyData) (o : Object) :
  In o (objects d) -> obj_id o <> m ->
  In o (objects (attach_clip host m action name d)).
Proof.
  intros H N. unfold attach_clip. cbv zeta.
  repeat apply update_object_other; try exact N.
  destruct (lacks_animation_data m _); [apply update_object_other|]; auto.
Qed.

Lemma same_rig_refl (o : Object) : same_rig o o [].
Proof. unfold same_rig. rewrite app_nil_r. auto 10. Qed.

Lemma same_rig_deselect (o : Object) : same_rig o (set_selected false o) [].
Proof. unfold same_rig, tracks_of, action_of. cbn. rewrite app_nil_r. auto 10. Qed.

Lemma same_rig_trans (a b c : Object) (n1 n2 : list NlaTrack) :
  same_rig a b n1 -> same_rig b c n2 -> same_rig a c (n1 ++ n2).
Proof.
  unfold same_rig. intros [A1 [A2 [A3 [A4 [A5 A6]]]]] [B1 [B2 [B3 [B4 [B5 B6]]]]].
  rewrite B6, A6, app_assoc. repeat split; congruence.
Qed.

Section Master.
Variable host : Host.

(** One file: the script comes back, and the master armature is still
    referenced by [m], with at most one track more. *)
Lemma process_file_keeps_master (m : nat) (p : string) (c : nat) (w : World)
  (mo : Object) :
  find_object m (bpy w) = Some mo ->
  exists c' w' mo' new,
    process_file host m p c w = (Ret c', w')
    /\ find_object m (bpy w') = Some mo'
    /\ same_rig mo mo' new
    /\ c' = c + List.length new
    /\ (forall o, In o (objects (bpy w)) -> obj_id o <> m ->
                  exists o', In o' (objects (bpy w')) /\ same_object o o').
Proof.
  intros F.
  destruct (fbx_file host (fs w) (normalize_path host p)) as [e|contents] eqn:E.
  - rewrite (process_file_import_error host m p c w e E).
    eexists c, _, mo, []. split; [reflexivity|].
    cbn [bpy]. split; [exact F|]. split; [apply same_rig_refl|].
    split; [cbn; lia|].
    intros o Ho _. exists o. split; [exact Ho | reflexivity].
  - destruct (clip_action (find_imported_armature m (fbx_into host contents (bpy w))))
      as [[imp action]|] eqn:C.
    + pose proof (process_file_merged host m p c w contents imp action E C) as R.
      cbv zeta in R. rewrite R. clear R.
      destruct (imported_armature_recent _ _ _ _ _ _ C) as [Himp _].
      destruct (find_object_below _ _ _ F) as [Hid Hin].
      pose proof (fresh_obj_stale _ _ Hin) as [Hm _]. rewrite Hid in Hm.
      set (d0 := fbx_into host contents (bpy w)).
      set (d1 := attach_clip host m action (anim_name_of host p) d0).
      assert (P1 : forall o, In o (objects d1) -> placed (fresh_obj (bpy w)) o).
      { apply attach_clip_placed. apply fbx_into_placed. }
      eexists (S c), _, _, [_]. split; [reflexivity|]. cbn [bpy].
      split.
      { rewrite (cleanup_find_stale _ _ _ Himp P1 m Hm).
        unfold d1. rewrite (attach_clip_find host _ _ _ _ _ (fbx_into_find host contents _ _ _ F)).
        reflexivity. }
      split; [unfold same_rig, with_clip, tracks_of, action_of; cbn; auto 10|].
      split; [cbn; lia|].
      intros o Ho No. exists (set_selected false (set_selected false o)).
      split; [|reflexivity].
      apply (cleanup_keeps_stale _ _ _ Himp P1).
      * apply attach_clip_other; [|exact No].
        unfold d0, fbx_into. cbn [objects]. apply in_app_iff. left.
        apply in_map. exact Ho.
      * apply keeps_refs_stale; [apply keeps_refs_set_selected|].
        apply fresh_obj_stale. exact Ho.
    + rewrite (process_file_no_clip host m p c w contents E C).
      eexists c, _, (set_selected false mo), []. split; [reflexivity|]. cbn [bpy].
      split; [apply fbx_into_find; exact F|].
      split; [apply same_rig_deselect|]. split; [cbn; lia|].
      intros o Ho _. exists (set_selected false o). split; [|reflexivity].
      unfold fbx_into. cbn [objects]. apply in_app_iff. left.
      apply in_map. exact Ho.
Qed.

End Master.

Lemma forallb_app_true {A} (p : A -> bool) (l1 l2 : list A) :
  forallb p l1 = true -> forallb p l2 = true -> forallb p (l1 ++ l2) = true.
Proof. intros H1 H2. rewrite forallb_app, H1, H2. reflexivity. Qed.

Lemma select_imported_calls_ok (m imp : nat) (snap : list Object) :
  forallb (file_event m) (select_imported_calls imp snap) = true.
Proof.
  unfold select_imported_calls. induction snap as [|o l IH]; [reflexivity|].
  cbn [filter]. destruct (belongs_to imp o); [cbn; exact IH | exact IH].
Qed.

Section Loop.
Variable host : Host.

(** One pass always returns; it touches neither the file system nor the
    patched class, and only makes per-file calls. *)
Lemma process_file_run (m : nat) (p : string) (c : nat) (w : World) :
  exists c' w' evs msgs,
    process_file host m p c w = (Ret c', w')
    /\ fs w' = fs w /\ cycles_class w' = cycles_class w
    /\ trace w' = trace w ++ evs /\ forallb (file_event m) evs = true
    /\ out w' = out w ++ msgs /\ forallb batch_msg msgs = true
    /\ c <= c'.
Proof.
  destruct (fbx_file host (fs w) (normalize_path host p)) as [e|contents] eqn:E.
  - rewrite (process_file_import_error host m p c w e E).
    eexists _, _, _, _. split; [reflexivity|]. cbn [fs cycles_class out trace].
    repeat (split; [reflexivity|]). lia.
  - destruct (clip_action (find_imported_armature m (fbx_into host contents (bpy w))))
      as [[imp action]|] eqn:C.
    + pose proof (process_file_merged host m p c w contents imp action E C) as R.
      cbv zeta in R. rewrite R. clear R.
      eexists _, _, _, _. split; [reflexivity|]. cbn [fs cycles_class out trace].
      do 3 (split; [reflexivity|]).
      split; [|split; [reflexivity | split; [reflexivity | lia]]].
      unfold attach_calls, cleanup_calls.
      repeat apply forallb_app_true; try reflexivity.
      * destruct (lacks_animation_data m _); cbn; [rewrite Nat.eqb_refl|]; reflexivity.
      * cbn. rewrite !Nat.eqb_refl. reflexivity.
      * apply select_imported_calls_ok.
    + rewrite (process_file_no_clip host m p c w contents E C).
      eexists _, _, _, _. split; [reflexivity|]. cbn [fs cycles_class out trace].
      repeat (split; [reflexivity|]). lia.
Qed.

Lemma merge_loop_run (m : nat) (files : list string) (c : nat) (w : World) :
  exists c' w' evs msgs,
    merge_loop host m files c w = (Ret c', w')
    /\ fs w' = fs w /\ cycles_class w' = cycles_class w
    /\ trace w' = trace w ++ evs /\ forallb (file_event m) evs = true
    /\ out w' = out w ++ msgs /\ forallb batch_msg msgs = true
    /\ c <= c'.
Proof.
  revert c w. induction files as [|p rest IH]; intros c w.
  - exists c, w, [], []. cbn. unfold ret. rewrite !app_nil_r. auto 10.
  - destruct (process_file_run m p c w)
      as [c1 [w1 [ev1 [ms1 [R1 [F1 [K1 [T1 [E1 [O1 [B1 L1]]]]]]]]]]].
    destruct (IH c1 w1)
      as [c2 [w2 [ev2 [ms2 [R2 [F2 [K2 [T2 [E2 [O2 [B2 L2]]]]]]]]]]].
    exists c2, w2, (ev1 ++ ev2), (ms1 ++ ms2).
    cbn [merge_loop]. rewrite (bind_ret _ _ _ _ _ R1), R2.
    rewrite T2, T1, O2, O1, !app_assoc.
    split; [reflexivity|]. split; [congruence|]. split; [congruence|].
    split; [reflexivity|]. split; [apply forallb_app_true; assumption|].
    split; [reflexivity|]. split; [apply forallb_app_true; assumption | lia].
Qed.

Lemma merge_loop_keeps_master (m : nat) (files : list string) (c : nat) (w : World)
  (mo : Object) :
  find_object m (bpy w) = Some mo ->
  exists c' w' mo' new,
    merge_loop host m files c w = (Ret c', w')
    /\ find_object m (bpy w') = Some mo'
    /\ same_rig mo mo' new
    /\ c' = c + List.length new
    /\ (forall o, In o (objects (bpy w)) -> obj_id o <> m ->
                  exists o', In o' (objects (bpy w')) /\ same_object o o').
Proof.
  revert c w mo. induction files as [|p rest IH]; intros c w mo F.
  - exists c, w, mo, []. cbn [merge_loop List.length]. unfold ret.
    split; [reflexivity|]. split; [exact F|]. split; [apply same_rig_refl|].
    split; [lia|].
    intros o Ho _. exists o. split; [exact Ho | reflexivity].
  - destruct (process_file_keeps_master host m p c w mo F)
      as [c1 [w1 [mo1 [n1 [R1 [F1 [S1 [C1 O1]]]]]]]].
    destruct (IH c1 w1 mo1 F1) as [c2 [w2 [mo2 [n2 [R2 [F2 [S2 [C2 O2]]]]]]]].
    exists c2, w2, mo2, (n1 ++ n2).
    cbn [merge_loop]. rewrite (bind_ret _ _ _ _ _ R1), R2.
    split; [reflexivity|]. split; [exact F2|].
    split; [eapply same_rig_trans; eauto|].
    split; [rewrite length_app; lia|].
    intros o Ho No. destruct (O1 o Ho No) as [o1 [H1 E1]].
    assert (N1 : obj_id o1 <> m).
    { unfold same_object in E1.
      assert (X : obj_id (set_selected false o1) = obj_id (set_selected false o))
        by (rewrite E1; reflexivity).
      cbn in X. congruence. }
    destruct (O2 o1 H1 N1) as [o2 [H2 E2]].
    exists o2. split; [exact H2|]. unfold same_object in *. congruence.
Qed.

End Loop.

(* ------------------------------------------------------------------ *)
(** ** The collections of [bpy.data], in the host's order *)

Lemma insert_by_perm {A} (before : A -> A -> bool) (x : A) (l : list A) :
  Permutation (insert_by before x l) (x :: l).
Proof.
  induction l as [|y l IH]; [reflexivity|].
  cbn [insert_by]. destruct (before y x); [|reflexivity].
  rewrite IH. apply perm_swap.
Qed.

Lemma sort_by_perm {A} (before : A -> A -> bool) (l : list A) :
  Permutation (sort_by before l) l.
Proof.
  induction l as [|x l IH]; [reflexivity|].
  unfold sort_by in *. cbn [fold_right]. rewrite insert_by_perm.
  apply perm_skip. exact IH.
Qed.

Lemma in_data_objects (host : Host) (d : BpyData) (o : Object) :
  In o (data_objects host d) <-> In o (objects d).
Proof.
  split; apply Permutation_in;
    [|symmetry]; apply sort_by_perm.
Qed.

Lemma in_data_actions (host : Host) (d : BpyData) (a : Action) :
  In a (data_actions host d) <-> In a (actions d).
Proof.
  split; apply Permutation_in;
    [|symmetry]; apply sort_by_perm.
Qed.

Lemma find_none_iff {A} (p : A -> bool) (l : list A) :
  find p l = None <-> forall x, In x l -> p x = false.
Proof.
  split; [apply find_none|].
  induction l as [|x l IH]; intros H; [reflexivity|].
  cbn. rewrite (H x (or_introl eq_refl)). apply IH.
  intros y Hy. apply H. right. exact Hy.
Qed.

(** Whether a collection holds an object that passes a test does not depend
    on the order in which it is gone through. *)
Lemma find_data_objects_none (host : Host) (p : Object -> bool) (d : BpyData) :
  find p (data_objects host d) = None <-> find p (objects d) = None.
Proof.
  rewrite !find_none_iff. split; intros H x Hx; apply H;
    apply (in_data_objects host d x); exact Hx.
Qed.

Lemma find_data_objects_some (host : Host) (p : Object -> bool) (d : BpyData) :
  (exists o, find p (data_objects host d) = Some o)
  <-> (exists o, find p (objects d) = Some o).
Proof.
  split; intros [o H].
  - destruct (find p (objects d)) as [o'|] eqn:F; [eauto|].
    apply (find_data_objects_none host) in F. congruence.
  - destruct (find p (data_objects host d)) as [o'|] eqn:F; [eauto|].
    apply find_data_objects_none in F. congruence.
Qed.


Lemma print_all_run (ms : list Msg) (w : World) :
  print_all ms w = (Ret tt, printed ms w).
Proof.
  revert w. induction ms as [|m ms IH]; intros w.
  - unfold printed. cbn. unfold ret. rewrite app_nil_r, world_eta. reflexivity.
  - cbn [print_all]. step_print. rewrite IH. unfold printed.
    cbn [fs bpy cycles_class out trace]. rewrite <- app_assoc. reflexivity.
Qed.

Lemma read_homefile_run (w : World) :
  read_homefile w =
  (Ret tt, mkWorld (fs w) empty_data (cycles_class w) (out w)
                   (trace w ++ [Called (ReadHomefile true)])).
Proof. reflexivity. Qed.

Lemma path_exists_run (path : string) (w : World) :
  path_exists path w = (Ret (fs_exists (fs w) path), w).
Proof. reflexivity. Qed.

Section Main.
Variable host : Host.

Lemma open_mainfile_run (path : string) (w : World) :
  open_mainfile host path w =
  match blend_file host (fs w) path with
  | inl e => (Raised e, traced [Threw (OpenMainfile path) e] w)
  | inr d => (Ret tt, traced [Called (OpenMainfile path)] (with_bpy d w))
  end.
Proof.
  unfold open_mainfile. rewrite bind_get_fs.
  destruct (blend_file host (fs w) path); reflexivity.
Qed.

Lemma makedirs_run (path : string) (w : World) :
  makedirs host path w =
  match os_makedirs host (fs w) path with
  | inl e => (Raised e, traced [Threw (Makedirs path true) e] w)
  | inr f => (Ret tt, traced [Called (Makedirs path true)] (with_fs f w))
  end.
Proof.
  unfold makedirs. rewrite bind_get_fs.
  destruct (os_makedirs host (fs w) path); reflexivity.
Qed.

Lemma export_scene_gltf_run (s : GltfSettings) (w : World) :
  export_scene_gltf host s w =
  match gltf_export host s (bpy w) (fs w) with
  | inl e => (Raised e, traced [Threw (ExportGltf s) e] w)
  | inr f => (Ret tt, traced [Called (ExportGltf s)] (with_fs f w))
  end.
Proof.
  unfold export_scene_gltf. rewrite bind_get_fs, bind_get_bpy.
  destruct (gltf_export host s (bpy w) (fs w)); reflexivity.
Qed.

Lemma bind_raised {A B} (m : M A) (k : A -> M B) (w w' : World) (e : exn) :
  m w = (Raised e, w') -> bind m k w = (Raised e, w').
Proof. unfold bind. intros ->. reflexivity. Qed.

Lemma export_phase_run (output_path : string) (c : nat) (w : World) :
  let s := export_settings output_path in
  let dir := os_path_dirname host output_path in
  let w1 := printed (export_header host output_path (bpy w)) w in
  export_phase host output_path c w =
  match os_makedirs host (fs w) dir with
  | inl e => (Raised e, traced [Threw (Makedirs dir true) e] w1)
  | inr f1 =>
      match gltf_export host s (bpy w) f1 with
      | inl e =>
          (Raised e,
           traced [Called (Makedirs dir true); Threw (ExportGltf s) e]
                  (with_fs f1 w1))
      | inr f2 =>
          let w2 := traced [Called (Makedirs dir true); Called (ExportGltf s)]
                           (with_fs f2 w1) in
          if fs_exists f2 output_path
          then (Ret tt, printed [MsgSuccess output_path; MsgPipelineComplete c] w2)
          else (SysExit 1, printed [MsgExportFailed] w2)
      end
  end.
Proof.
  cbv zeta. unfold export_phase, export_header.
  rewrite bind_get_bpy. step_print.
  step_by ltac:(apply print_all_run). step_print.
  unfold printed, traced, with_fs. cbn [fs bpy cycles_class out trace].
  repeat rewrite <- app_assoc.
  match goal with
  | |- bind (makedirs host ?p) _ ?w0 = _ =>
      pose proof (makedirs_run p w0) as Mk; cbn [fs] in Mk
  end.
  destruct (os_makedirs host (fs w) _) as [e|f1].
  { rewrite (bind_raised _ _ _ _ _ Mk). reflexivity. }
  rewrite (bind_ret _ _ _ _ _ Mk). clear Mk.
  unfold traced, with_fs. cbn [fs bpy cycles_class out trace].
  match goal with
  | |- bind (export_scene_gltf host ?s0) _ ?w0 = _ =>
      pose proof (export_scene_gltf_run s0 w0) as Ex; cbn [fs bpy] in Ex
  end.
  destruct (gltf_export host _ (bpy w) f1) as [e|f2].
  { rewrite (bind_raised _ _ _ _ _ Ex). unfold traced.
    cbn [fs bpy cycles_class out trace]. rewrite <- app_assoc. reflexivity. }
  rewrite (bind_ret _ _ _ _ _ Ex). clear Ex.
  unfold traced, with_fs. cbn [fs bpy cycles_class out trace].
  step_by ltac:(apply path_exists_run).
  destruct (fs_exists f2 output_path).
  - step_print. rewrite print_run. cbn [fs bpy cycles_class out trace].
    repeat rewrite <- app_assoc. reflexivity.
  - step_print. unfold sys_exit. repeat rewrite <- app_assoc. reflexivity.
Qed.

Lemma merge_phase_empty (m : nat) (anims_dir : string) (w : World) :
  find_fbx_files (flavour host) (fs w) anims_dir = [] ->
  merge_phase host m anims_dir w =
  (Ret 0, printed [MsgNoFbxFiles; MsgExportingBaseOnly] w).
Proof.
  intros E. unfold merge_phase. rewrite bind_get_fs, E.
  step_print. step_print. unfold ret, printed. rewrite <- app_assoc. reflexivity.
Qed.

Lemma merge_phase_run (m : nat) (anims_dir : string) (w : World) :
  exists c w' evs msgs,
    merge_phase host m anims_dir w = (Ret c, w')
    /\ fs w' = fs w /\ cycles_class w' = cycles_class w
    /\ trace w' = trace w ++ evs /\ forallb (file_event m) evs = true
    /\ out w' = out w ++ msgs /\ forallb batch_msg msgs = true.
Proof.
  destruct (find_fbx_files (flavour host) (fs w) anims_dir) as [|p rest] eqn:F.
  - rewrite (merge_phase_empty m anims_dir w F).
    eexists 0, _, [], _. unfold printed. cbn [fs cycles_class out trace].
    rewrite app_nil_r. repeat (split; [reflexivity|]). reflexivity.
  - unfold merge_phase. rewrite bind_get_fs, F. step_print.
    match goal with
    | |- context [bind (merge_loop host m ?fl 0) _ ?w0] =>
        destruct (merge_loop_run host m fl 0 w0)
          as [c [w' [evs [msgs [R [F1 [K1 [T1 [E1 [O1 [B1 _]]]]]]]]]]]
    end.
    cbn [fs cycles_class out trace] in *.
    rewrite (bind_ret _ _ _ _ _ R). step_print. unfold ret.
    eexists c, _, evs, (_ :: msgs ++ [_]). cbn [fs cycles_class out trace].
    rewrite O1, <- !app_assoc. cbn [app].
    split; [reflexivity|]. do 4 (split; [eassumption || reflexivity|]).
    split; [reflexivity|].
    cbn [forallb batch_msg andb]. rewrite forallb_app, B1. reflexivity.
Qed.

Lemma main_run (sys_argv : list string) (w : World) :
  main host sys_argv w =
  match parse_args (script_args sys_argv) with
  | ParserExit code => (SysExit code, w)
  | Parsed args =>
      match paths_of host args with
      | None => (Raised type_error, w)
      | Some (master_path, anims_dir, output_path) =>
          let w1 :=
            mkWorld (fs w) empty_data (cycles_class w)
              (out w ++ [MsgBanner (version_string host);
                         MsgConfiguration master_path anims_dir output_path;
                         MsgClearingScene])
              (trace w ++ [Called (ReadHomefile true)]) in
          if fs_exists (fs w) master_path then
            match blend_file host (fs w) master_path with
            | inl e =>
                (Raised e,
                 traced [Threw (OpenMainfile master_path) e]
                        (printed [MsgOpeningMaster master_path] w1))
            | inr d =>
                let w2 :=
                  traced [Called (OpenMainfile master_path)]
                    (printed [MsgOpeningMaster master_path]
                             (with_bpy d w1)) in
                match find is_armature (data_objects host d) with
                | None => (SysExit 1, printed [MsgMasterLoaded; MsgNoArmature] w2)
                | Some master_armature =>
                    bind (merge_phase host (obj_id master_armature) anims_dir)
                         (export_phase host output_path)
                         (printed [MsgMasterLoaded;
                                   MsgTargetRig (obj_name master_armature)] w2)
                end
            end
          else (SysExit 1, printed [MsgMasterNotFound master_path] w1)
      end
  end.
Proof.
  unfold main. destruct (parse_args (script_args sys_argv)) as [args|code];
    [|reflexivity].
  unfold paths_of, normalize_arg.
  destruct (args_master args) as [master|]; [|reflexivity].
  destruct (args_anims args) as [anims|]; [|reflexivity].
  destruct (args_output args) as [output|]; [|reflexivity].
  cbv zeta. step_ret. step_ret. step_ret.
  step_print. step_print. step_print.
  step_by ltac:(apply read_homefile_run).
  step_by ltac:(apply path_exists_run).
  repeat rewrite <- app_assoc. cbn [app].
  destruct (fs_exists (fs w) _); cbn [negb].
  2:{ step_print. reflexivity. }
  step_print.
  match goal with
  | |- bind (open_mainfile host ?p) _ ?w0 = _ =>
      pose proof (open_mainfile_run p w0) as Op; cbn [fs] in Op
  end.
  destruct (blend_file host (fs w) _) as [e|d].
  { rewrite (bind_raised _ _ _ _ _ Op). reflexivity. }
  rewrite (bind_ret _ _ _ _ _ Op). clear Op.
  unfold traced, with_bpy, printed. cbn [fs bpy cycles_class out trace].
  step_print. rewrite bind_get_bpy. cbn [bpy].
  destruct (find is_armature (data_objects host d)) as [mo|].
  - step_print. repeat rewrite <- app_assoc. cbn [app].
    unfold merge_phase, export_phase. reflexivity.
  - step_print. unfold sys_exit. repeat rewrite <- app_assoc. reflexivity.
Qed.

End Main.

Lemma hasattr_setattr (cls : PyClass) (name : string) (a : ClassAttr) :
  hasattr (setattr cls name a) name = true.
Proof. unfold hasattr, setattr. cbn. rewrite String.eqb_refl. reflexivity. Qed.

Lemma getattr_setattr (cls : PyClass) (name : string) (a : ClassAttr) :
  getattr (setattr cls name a) name = Some a.
Proof. unfold setattr. cbn. rewrite String.eqb_refl. reflexivity. Qed.

Section Patch.
Variable host : Host.

(** The patch always returns.  Its effect on the class is [patched_class];
    the data is left as it was when creating the probe light fails; and
    when the class lacks the attribute and does not get it, a warning is
    printed. *)
Lemma apply_nuclear_patch_run (w : World) :
  exists w',
    apply_nuclear_patch host w = (Ret tt, w')
    /\ cycles_class w' = patched_class host w
    /\ fs w' = fs w
    /\ (lights_new_error host (bpy w) <> None -> bpy w' = bpy w)
    /\ (exists msgs, out w' = out w ++ MsgApplyingPatch :: msgs
          /\ (hasattr (cycles_class w) "cast_shadow" = false ->
              cycles_class w' = cycles_class w ->
              existsb is_patch_warning msgs = true)).
Proof.
  unfold apply_nuclear_patch, patched_class, lights_new, light_cycles,
    class_setattr, lights_remove.
  run.
  destruct (lights_new_error host (bpy w)) as [e|] eqn:LN; run.
  { eexists. split; [reflexivity|]. cbn [fs bpy cycles_class out trace].
    repeat split; auto.
    eexists. rewrite <- app_assoc. split; [reflexivity|]. reflexivity. }
  destruct (cycles_error host) as [e|] eqn:CE; run.
  { eexists. split; [reflexivity|]. cbn [fs bpy cycles_class out trace].
    repeat split; try reflexivity; try congruence.
    eexists. rewrite <- app_assoc. split; reflexivity. }
  destruct (hasattr (cycles_class w) "cast_shadow") eqn:HA; cbn [negb]; run.
  - destruct (lights_remove_error host _) as [e|]; run;
      (eexists; split; [reflexivity|]; cbn [fs bpy cycles_class out trace];
       split; [destruct (setattr_error host); reflexivity|];
       split; [reflexivity|]; split; [congruence|];
       eexists; rewrite <- !app_assoc; split; [reflexivity | discriminate]).
  - destruct (setattr_error host) as [e|] eqn:SE; run.
    { eexists. split; [reflexivity|]. cbn [fs bpy cycles_class out trace].
      repeat split; try reflexivity; try congruence.
      eexists. rewrite <- !app_assoc. split; reflexivity. }
    destruct (lights_remove_error host _) as [e|]; run;
      (eexists; split; [reflexivity|]; cbn [fs bpy cycles_class out trace];
       split; [reflexivity|]; split; [reflexivity|]; split; [congruence|];
       eexists; rewrite <- !app_assoc; split; [reflexivity|];
       intros _ X; exfalso;
       assert (Y : hasattr (cycles_class w) "cast_shadow" = true)
         by (rewrite <- X; apply hasattr_setattr);
       congruence).
Qed.

Lemma patched_class_cases (w : World) :
  patched_class host w = cycles_class w
  \/ (hasattr (cycles_class w) "cast_shadow" = false
      /\ patched_class host w
         = setattr (cycles_class w) "cast_shadow" (PropertyAttr cast_shadow_mock)).
Proof.
  unfold patched_class.
  destruct (lights_new_error host (bpy w)), (cycles_error host),
    (setattr_error host), (hasattr (cycles_class w) "cast_shadow"); auto.
Qed.

Lemma patched_class_twice (w w' : World) :
  cycles_class w' = patched_class host w ->
  (lights_new_error host (bpy w) <> None -> bpy w' = bpy w) ->
  patched_class host w' = patched_class host w.
Proof.
  intros C B. unfold patched_class at 1. rewrite C.
  unfold patched_class in *.
  destruct (lights_new_error host (bpy w)) as [e|] eqn:L.
  { rewrite B, L by discriminate. reflexivity. }
  destruct (cycles_error host); [destruct (lights_new_error host (bpy w')); reflexivity|].
  destruct (setattr_error host);
    [destruct (lights_new_error host (bpy w')); reflexivity|].
  destruct (hasattr (cycles_class w) "cast_shadow") eqn:H.
  - rewrite H. destruct (lights_new_error host (bpy w')); reflexivity.
  - rewrite hasattr_setattr. destruct (lights_new_error host (bpy w')); reflexivity.
Qed.

End Patch.

(* ------------------------------------------------------------------ *)
(** ** The imported action *)

Lemma find_app_skip {A} (p : A -> bool) (l1 l2 : list A) :
  (forall x, In x l1 -> p x = false) -> find p (l1 ++ l2) = find p l2.
Proof.
  induction l1 as [|x l1 IH]; intros H; [reflexivity|].
  cbn. rewrite (H x (or_introl eq_refl)). apply IH. intros; apply H; right; auto.
Qed.

Lemma import_objects_action (host : Host) (used : list string)
  (bo ba no na i : nat) (l : list FbxObject)
  (o : Object) (ad : AnimData) (a : nat) :
  In o (import_objects host used bo ba no na i l) ->
  obj_animation_data o = Some ad -> ad_action ad = Some a ->
  exists k, k < na /\ a = ba + k.
Proof.
  revert used i. induction l as [|fo l IH]; intros used i; [contradiction|].
  cbn [import_objects]. intros [<- | H]; [|eapply IH; eauto].
  unfold import_object. cbn [obj_animation_data].
  destruct (fo_animation fo) as [[k|]|]; try discriminate;
    intros X; inversion X; subst; cbn [ad_action]; try discriminate.
  destruct (Nat.ltb_spec k na); [|discriminate].
  intros Y. inversion Y. eauto.
Qed.

(** The first imported object that passes a test on what the file says of
    it. *)
Lemma import_objects_find (host : Host) (p : Object -> bool)
  (q : FbxObject -> bool) (bo ba no na : nat) (l : list FbxObject) :
  (forall used i fo, p (import_object host used bo ba no na i fo) = q fo) ->
  forall used i,
    match find q l with
    | Some fo =>
        exists used' i',
          find p (import_objects host used bo ba no na i l)
          = Some (import_object host used' bo ba no na i' fo)
    | None => find p (import_objects host used bo ba no na i l) = None
    end.
Proof.
  intros H. induction l as [|fo l IH]; intros used i; [reflexivity|].
  cbn [import_objects find]. rewrite H.
  destruct (q fo); [eauto | apply IH].
Qed.

Lemma import_objects_selected (host : Host) (used : list string)
  (bo ba no na i : nat) (l : list FbxObject) :
  filter obj_selected (import_objects host used bo ba no na i l)
  = import_objects host used bo ba no na i l.
Proof.
  revert used i. induction l as [|fo l IH]; intros used i; [reflexivity|].
  cbn [import_objects filter import_object obj_selected]. f_equal. apply IH.
Qed.

Lemma import_actions_nth (host : Host) (ba : nat) (l : list FbxAction)
  (k : nat) (fa : FbxAction) :
  nth_error l k = Some fa ->
  forall used i,
  exists n,
    find (fun a => act_id a =? ba + (i + k)) (import_actions host used ba i l)
    = Some (mkAction (ba + (i + k)) n (fa_frame_range fa)).
Proof.
  revert k. induction l as [|fa0 l IH]; intros k N used i.
  { destruct k; discriminate N. }
  cbn [import_actions find act_id]. destruct k as [|k].
  - cbn in N. inversion N; subst fa0. rewrite Nat.add_0_r, Nat.eqb_refl. eauto.
  - cbn in N. destruct (Nat.eqb_spec (ba + i) (ba + (i + S k))); [lia|].
    replace (i + S k) with (S i + k) by lia. apply IH. exact N.
Qed.

Lemma find_old_action (host : Host) (c : FbxContents) (d : BpyData) (action : nat) :
  fresh_act d <= action ->
  find_action action (fbx_into host c d)
  = find (fun a => act_id a =? action)
         (import_actions host (map act_name (actions d)) (fresh_act d) 0
            (fbx_actions c)).
Proof.
  intros F. unfold find_action, fbx_into. cbn [actions].
  apply find_app_skip. intros a Ha. apply Nat.eqb_neq.
  assert (act_id a <= list_max (map act_id (actions d)))
    by (apply list_max_ge, in_map; exact Ha).
  unfold fresh_act in F. lia.
Qed.

Lemma filter_deselected (l : list Object) :
  filter obj_selected (map (set_selected false) l) = [].
Proof. induction l as [|o l IH]; [reflexivity | exact IH]. Qed.

(** Whether a pass finds a clip is decided by the file alone: the first
    armature of the file is the imported armature, and its action, if it
    has one, comes into the data under a new reference with the frame
    range the file gives. *)
Lemma clip_action_file (host : Host) (c : FbxContents) (d : BpyData) (m : nat) :
  m < fresh_obj d ->
  match file_clip c with
  | Some fa =>
      exists imp action n,
        clip_action (find_imported_armature m (fbx_into host c d))
        = Some (imp, action)
        /\ fresh_act d <= action
        /\ find_action action (fbx_into host c d)
           = Some (mkAction action n (fa_frame_range fa))
  | None =>
      clip_action (find_imported_armature m (fbx_into host c d)) = None
  end.
Proof.
  intros Hm. unfold file_clip, find_imported_armature.
  replace (filter obj_selected (objects (fbx_into host c d)))
    with (import_objects host (map obj_name (objects d))
            (fresh_obj d) (fresh_act d)
            (List.length (fbx_objects c)) (List.length (fbx_actions c)) 0
            (fbx_objects c))
    by (unfold fbx_into; cbn [objects];
        rewrite filter_app, filter_deselected, import_objects_selected;
        reflexivity).
  pose proof (import_objects_find host
                (fun obj => is_armature obj && negb (obj_id obj =? m))
                (fun fo => String.eqb (fo_type fo) "ARMATURE")
                (fresh_obj d) (fresh_act d)
                (List.length (fbx_objects c)) (List.length (fbx_actions c))
                (fbx_objects c)) as F.
  specialize (F ltac:(intros used i fo; unfold is_armature, import_object;
                      cbn [obj_type obj_id];
                      destruct (Nat.eqb_spec (fresh_obj d + i) m); [lia|];
                      apply andb_true_r)
                (map obj_name (objects d)) 0).
  destruct (find _ (fbx_objects c)) as [fo|].
  2:{ rewrite F. reflexivity. }
  destruct F as [used' [i' F]]. rewrite F.
  unfold clip_action, import_object. cbn [obj_animation_data].
  destruct (fo_animation fo) as [[k|]|]; [|reflexivity|reflexivity].
  cbn [ad_action].
  destruct (nth_error (fbx_actions c) k) as [fa|] eqn:N.
  - assert (K : k < List.length (fbx_actions c))
      by (apply nth_error_Some; congruence).
    apply Nat.ltb_lt in K. rewrite K.
    destruct (import_actions_nth host (fresh_act d) _ _ _ N
                (map act_name (actions d)) 0) as [n Fn].
    cbn [Nat.add] in Fn.
    eexists _, _, n. split; [reflexivity|]. split; [lia|].
    rewrite find_old_action by lia. exact Fn.
  - apply nth_error_None in N. apply Nat.ltb_ge in N. rewrite N. reflexivity.
Qed.

Lemma clip_action_stored (host : Host) (c : FbxContents) (d : BpyData) (m : nat)
  (imp : Object) (action : nat) :
  clip_action (find_imported_armature m (fbx_into host c d)) = Some (imp, action) ->
  exists fa n, In fa (fbx_actions c)
    /\ fresh_act d <= action
    /\ find_action action (fbx_into host c d)
       = Some (mkAction action n (fa_frame_range fa)).
Proof.
  intros C.
  destruct (imported_armature_recent _ _ _ _ _ _ C)
    as [R [Hin [_ [_ [ad [A B]]]]]].
  unfold fbx_into in Hin. cbn [objects] in Hin.
  apply in_app_iff in Hin as [Hin | Hin].
  { apply in_map_iff in Hin as [o0 [<- H0]].
    destruct (fresh_obj_stale _ _ H0) as [S _]. cbn in R. lia. }
  destruct (import_objects_action _ _ _ _ _ _ _ _ _ _ _ Hin A B) as [k [Hk ->]].
  destruct (nth_error (fbx_actions c) k) as [fa|] eqn:N.
  2:{ apply nth_error_None in N. lia. }
  destruct (import_actions_nth host (fresh_act d) _ _ _ N
              (map act_name (actions d)) 0) as [n Fn].
  cbn [Nat.add] in Fn.
  exists fa, n. split; [exact (nth_error_In _ _ N)|]. split; [lia|].
  rewrite find_old_action by lia. exact Fn.
Qed.

Lemma rename_action_find (host : Host) (action : nat) (name : string)
  (d : BpyData) (a : Action) :
  find_action action d = Some a ->
  find_action action (rename_action host action name d)
  = Some (mkAction action (stored_action_name host action name d)
                   (act_frame_range a)).
Proof.
  intros F. unfold find_action, rename_action in *. cbn [actions].
  rewrite find_map_same.
  - rewrite F. cbn [option_map].
    apply find_some in F as [_ E]. rewrite E.
    apply Nat.eqb_eq in E. rewrite E. reflexivity.
  - intros x. destruct (act_id x =? action) eqn:E; [exact E | exact E].
Qed.

Lemma attach_clip_actions (host : Host) (m action : nat) (name : string)
  (d : BpyData) :
  actions (attach_clip host m action name d)
  = actions (rename_action host action name d).
Proof.
  unfold attach_clip. cbv zeta.
  destruct (lacks_animation_data m _); reflexivity.
Qed.

Lemma cleanup_actions (imp : nat) (d : BpyData) :
  actions (cleanup imp d) = actions d.
Proof.
  unfold cleanup, delete_selected. cbn [actions].
  destruct (select_imported_rest imp (objects (deselect_all d)) (deselect_all d))
    as [A _].
  rewrite A. reflexivity.
Qed.

(* ------------------------------------------------------------------ *)
(** ** The whole pipeline *)



Section Outcome.
Variable host : Host.

(** Steps 3 and 4 in a row: the batch step returns, then the export step
    runs from where it ends. *)
Lemma merge_then_export (m : nat) (anims_dir output_path : string) (w : World) :
  exists c w' evs msgs,
    bind (merge_phase host m anims_dir) (export_phase host output_path) w
    = export_phase host output_path c w'
    /\ fs w' = fs w /\ cycles_class w' = cycles_class w
    /\ trace w' = trace w ++ evs /\ forallb (file_event m) evs = true
    /\ out w' = out w ++ msgs /\ forallb batch_msg msgs = true.
Proof.
  destruct (merge_phase_run host m anims_dir w)
    as [c [w' [evs [msgs [R H]]]]].
  exists c, w', evs, msgs. split; [apply bind_ret; exact R | exact H].
Qed.

End Outcome.



Lemma file_events_owner (m : nat) (evs : list Event) (e : Event) (o : nat) :
  forallb (file_event m) evs = true -> In e evs -> track_owner e = Some o ->
  o = m.
Proof.
  intros H Hin T. rewrite forallb_forall in H. specialize (H e Hin).
  destruct e as [c|c x]; destruct c; try discriminate T;
    cbn in H, T; inversion T; subst; apply Nat.eqb_eq; exact H.
Qed.

Lemma batch_msgs_quiet (msgs : list Msg) :
  forallb batch_msg msgs = true ->
  forallb (fun m => negb (about_armature m)) msgs = true.
Proof.
  intros H. rewrite forallb_forall in *. intros m Hm. specialize (H m Hm).
  destruct m; try reflexivity; discriminate H.
Qed.

Lemma export_header_quiet (host : Host) (output_path : string) (d : BpyData) :
  forallb (fun m => negb (about_armature m)) (export_header host output_path d) = true.
Proof.
  unfold export_header. cbn [app forallb about_armature negb andb].
  rewrite forallb_app. cbn [forallb about_armature negb andb].
  rewrite andb_true_r. rewrite forallb_forall. intros m Hm.
  apply in_map_iff in Hm as [a [<- _]]. reflexivity.
Qed.

Lemma find_first {A} (p : A -> bool) (before after : list A) (x : A) :
  (forall y, In y before -> p y = false) -> p x = true ->
  find p (before ++ x :: after) = Some x.
Proof.
  intros H Hx. rewrite find_app_skip by exact H. cbn. rewrite Hx. reflexivity.
Qed.

(* ------------------------------------------------------------------ *)
(** ** Runs on the concrete host *)

Example demo_names :
  map (fun p => anim_name_of demo_host p)
      ["/work/anims/walk.fbx"; "/work/anims/idle.loop.FBX"; "/work/anims/.fbx"]
  = ["walk"; "idle.loop"; ".fbx"].
Proof. reflexivity. Qed.

Example demo_batch :
  find_fbx_files Posix demo_fs "/work/anims"
  = ["/work/anims/bad.FBX"; "/work/anims/still.fbx"; "/work/anims/walk.fbx"].
Proof. reflexivity. Qed.

Example demo_parse :
  parse_args (script_args (demo_argv "/work/anims"))
  = Parsed (mkArgs (Str "/work/master.blend") (Str "/work/anims")
                   (Str "/out/cortex.glb"))
  /\ parse_args ["--mas=a.blend"; "--an"; "clips"; "--out"; "o.glb"]
     = Parsed (mkArgs (Str "a.blend") (Str "clips") (Str "o.glb"))
  /\ parse_args ["--master=--"; "--anims"; "clips"; "--output"; "o.glb"]
     = Parsed (mkArgs EmptyList (Str "clips") (Str "o.glb"))
  /\ parse_args ["--master"; "a.blend"; "--anims"; "clips"] = ParserExit 2
  /\ parse_args ["--master"; "a.blend"; "-h"] = ParserExit 0
  /\ parse_args ["--master"; "--anims"; "clips"; "--output"; "o.glb"]
     = ParserExit 2.
Proof. repeat split; reflexivity. Qed.

(** The batch of the concrete host: one file fails to import, one has no
    animation data, one is merged. *)
Example demo_run :
  fst (main demo_host (demo_argv "/work/anims") demo_world) = Ret tt
  /\ out (snd (main demo_host (demo_argv "/work/anims") demo_world))
     = [ MsgBanner "5.0.0";
         MsgConfiguration "/work/master.blend" "/work/anims" "/out/cortex.glb";
         MsgClearingScene;
         MsgOpeningMaster "/work/master.blend";
         MsgMasterLoaded;
         MsgTargetRig "Rig";
         MsgProcessing 3;
         MsgImporting "bad"; MsgImportError "bad" "import failed";
         MsgImporting "still"; MsgNoAnimationData "still";
         MsgImporting "walk"; MsgMerged "walk" 1 30;
         MsgMergedSummary 1 3;
         MsgFinalActions 1;
         MsgActionLine "walk" ((1 # 1)%Q, (30 # 1)%Q);
         MsgExporting "/out/cortex.glb";
         MsgSuccess "/out/cortex.glb";
         MsgPipelineComplete 1 ]
  /\ find_object 2 (bpy (snd (main demo_host (demo_argv "/work/anims") demo_world)))
     = Some (mkObject 2 "Rig" "ARMATURE" None false
               (Some (mkAnimData None
                        [mkTrack "walk" [mkStrip "walk" 1 1]]))).
Proof. repeat split; vm_compute; reflexivity. Qed.

Example demo_value_not_a_path :
  main demo_host
    ["blender"; "--"; "--master=--"; "--anims"; "/work/anims";
     "--output"; "/out/cortex.glb"]
    demo_world
  = (Raised type_error, demo_world).
Proof. reflexivity. Qed.

Example demo_missing_master :
  fst (main demo_host
         ["blender"; "--"; "--master"; "/work/nothing.blend";
          "--anims"; "/work/anims"; "--output"; "/out/cortex.glb"]
         demo_world)
  = SysExit 1.
Proof. reflexivity. Qed.

Example demo_patch :
  fst (apply_nuclear_patch demo_host demo_world) = Ret tt
  /\ hasattr (cycles_class (snd (apply_nuclear_patch demo_host demo_world)))
             "cast_shadow" = true
  /\ lights (bpy (snd (apply_nuclear_patch demo_host demo_world))) = []
  /\ out (snd (apply_nuclear_patch demo_host demo_world))
     = [MsgApplyingPatch; MsgInjectingMock; MsgPatchApplied].
Proof. repeat split; reflexivity. Qed.

(* ------------------------------------------------------------------ *)
(** ** What the cleanup deletes *)

Lemma keeps_refs_belongs (g : Object -> Object) (imp : nat) (o : Object) :
  keeps_refs g -> belongs_to imp (g o) = belongs_to imp o.
Proof.
  intros K. destruct (K o) as [I P]. unfold belongs_to. rewrite I, P.
  reflexivity.
Qed.

Lemma filter_map_same {A} (p : A -> bool) (g : A -> A) (l : list A) :
  (forall x, p (g x) = p x) ->
  filter p (map g l) = map g (filter p l).
Proof.
  intros H. induction l as [|x l IH]; [reflexivity|].
  cbn. rewrite H. destruct (p x); cbn; rewrite IH; reflexivity.
Qed.

Lemma map_id_map (g : Object -> Object) (l : list Object) :
  keeps_refs g -> map obj_id (map g l) = map obj_id l.
Proof.
  intros K. rewrite map_map. apply map_ext. intros o. apply (K o).
Qed.

Lemma one_per_reference_map (n : nat) (g : Object -> Object) (l : list Object) :
  keeps_refs g -> one_per_reference n l -> one_per_reference n (map g l).
Proof.
  intros K H x y Hx Hy L E.
  apply in_map_iff in Hx as [x0 [<- Hx]].
  apply in_map_iff in Hy as [y0 [<- Hy]].
  destruct (K x0) as [Ix Px]. destruct (K y0) as [Iy Py].
  rewrite Px, Py. apply H; congruence.
Qed.

Lemma import_objects_in (host : Host) (used : list string)
  (bo ba no na i : nat) (l : list FbxObject) (x : Object) :
  In x (import_objects host used bo ba no na i l) ->
  exists used' k fo,
    nth_error l k = Some fo
    /\ x = import_object host used' bo ba no na (i + k) fo.
Proof.
  revert used i. induction l as [|fo l IH]; intros used i; [contradiction|].
  cbn [import_objects]. intros [<- | H].
  - exists used, 0, fo. rewrite Nat.add_0_r. auto.
  - destruct (IH _ _ H) as [used' [k [fo' [N ->]]]].
    exists used', (S k), fo'. split; [exact N|]. f_equal. lia.
Qed.

Lemma fbx_into_one_per_reference (host : Host) (c : FbxContents) (d : BpyData) :
  one_per_reference (fresh_obj d) (objects (fbx_into host c d)).
Proof.
  assert (Old : forall o, In o (map (set_selected false) (objects d)) ->
                          obj_id o < fresh_obj d).
  { intros o Ho. apply in_map_iff in Ho as [o0 [<- H0]].
    destruct (fresh_obj_stale d o0 H0) as [S _]. exact S. }
  intros x y Hx Hy L E. unfold fbx_into in Hx, Hy. cbn [objects] in Hx, Hy.
  apply in_app_iff in Hx as [Hx | Hx]; [apply Old in Hx; lia|].
  apply in_app_iff in Hy as [Hy | Hy]; [apply Old in Hy; lia|].
  apply import_objects_in in Hx as [u1 [k1 [f1 [N1 ->]]]].
  apply import_objects_in in Hy as [u2 [k2 [f2 [N2 ->]]]].
  cbn [import_object obj_id obj_parent] in *.
  assert (k1 = k2) by lia. subst k2.
  rewrite N1 in N2. inversion N2. reflexivity.
Qed.

Section Deleted.

Variables (n imp : nat) (d : BpyData).
Hypothesis bound_imp : n <= imp.
Hypothesis all_placed : forall o, In o (objects d) -> placed n o.
Hypothesis one_each : one_per_reference n (objects d).

(** An object is marked for deletion exactly when it is the imported
    armature or a direct child of it. *)
Lemma marked_iff_belongs (o : Object) :
  In o (objects d) ->
  existsb (fun s => belongs_to imp s && (obj_id o =? obj_id s))
          (map (set_selected false) (objects d))
  = belongs_to imp o.
Proof.
  intros Ho. destruct (belongs_to imp o) eqn:B.
  - apply existsb_exists. exists (set_selected false o).
    split; [apply in_map; exact Ho|].
    change (belongs_to imp (set_selected false o)) with (belongs_to imp o).
    rewrite B. cbn [set_selected obj_id]. rewrite Nat.eqb_refl. reflexivity.
  - destruct (existsb _ _) eqn:X; [|reflexivity].
    apply existsb_exists in X as [s [Hs X]].
    apply in_map_iff in Hs as [s0 [<- Hs]].
    change (belongs_to imp (set_selected false s0)) with (belongs_to imp s0) in X.
    cbn [set_selected obj_id] in X.
    apply andb_true_iff in X as [Bs E]. apply Nat.eqb_eq in E.
    assert (Rs : n <= obj_id s0).
    { destruct (all_placed s0 Hs) as [S | R]; [|exact R].
      rewrite (stale_not_belongs n imp s0 S bound_imp) in Bs. discriminate. }
    pose proof (one_each s0 o Hs Ho Rs (eq_sym E)) as P.
    unfold belongs_to in B, Bs. rewrite E, <- P, Bs in B. discriminate.
Qed.

Lemma unmarked_ids (l : list Object) :
  incl l (objects d) ->
  map obj_id
    (filter (fun o => negb (obj_selected o))
       (map (fun o =>
               if existsb (fun s => belongs_to imp s && (obj_id o =? obj_id s))
                          (map (set_selected false) (objects d))
               then set_selected true o else o)
            (map (set_selected false) l)))
  = map obj_id (filter (fun o => negb (belongs_to imp o)) l).
Proof.
  induction l as [|o l IH]; intros I; [reflexivity|].
  cbn [map filter]. cbn [set_selected obj_id] in *.
  rewrite (marked_iff_belongs o) by (apply I; left; reflexivity).
  specialize (IH (fun x Hx => I x (or_intror Hx))).
  destruct (belongs_to imp o); cbn [obj_selected set_selected negb map obj_id].
  - exact IH.
  - f_equal. exact IH.
Qed.

(** The objects left by the cleanup are, in the order of the scene, those
    that are neither the imported armature nor a direct child of it. *)
Lemma cleanup_ids :
  map obj_id (objects (cleanup imp d))
  = map obj_id (filter (fun o => negb (belongs_to imp o)) (objects d)).
Proof.
  rewrite cleanup_objects. rewrite map_map.
  erewrite map_ext by (intros o; apply unparent_keeps_id).
  apply unmarked_ids. apply incl_refl.
Qed.

(** No object left by the cleanup carries the reference of the imported
    armature or of a direct child of it. *)
Lemma cleanup_absent (o : Object) :
  In o (objects d) -> belongs_to imp o = true ->
  ~ In (obj_id o) (map obj_id (objects (cleanup imp d))).
Proof.
  intros Ho B H. rewrite cleanup_ids in H.
  apply in_map_iff in H as [y [E Hy]]. apply filter_In in Hy as [Hy By].
  apply negb_true_iff in By.
  assert (Ro : n <= obj_id o).
  { destruct (all_placed o Ho) as [S | R]; [|exact R].
    rewrite (stale_not_belongs n imp o S bound_imp) in B. discriminate. }
  pose proof (one_each o y Ho Hy Ro (eq_sym E)) as P.
  unfold belongs_to in B, By. rewrite E, <- P, B in By. discriminate.
Qed.

End Deleted.

(* ------------------------------------------------------------------ *)
(** ** One pass of the loop and the whole loop, by what the files hold *)

Lemma keeps_refs_id : keeps_refs (fun o => o).
Proof. intros o. split; reflexivity. Qed.

Lemma keeps_refs_compose (f g : Object -> Object) :
  keeps_refs f -> keeps_refs g -> keeps_refs (fun o => g (f o)).
Proof.
  intros F G o. destruct (F o) as [F1 F2]. destruct (G (f o)) as [G1 G2].
  split; congruence.
Qed.

(** The attachment of the clip changes the objects in place and leaves
    their references as they are. *)
Lemma attach_clip_objects (host : Host) (m action : nat) (name : string)
  (d : BpyData) :
  exists g, keeps_refs g
            /\ objects (attach_clip host m action name d) = map g (objects d).
Proof.
  assert (U : forall f d0 g0,
             keeps_refs f -> keeps_refs g0 -> objects d0 = map g0 (objects d) ->
             exists g, keeps_refs g
                       /\ objects (update_object m f d0) = map g (objects d)).
  { intros f d0 g0 Kf K0 E.
    exists (fun o => (fun x => if obj_id x =? m then f x else x) (g0 o)).
    split; [exact (keeps_refs_compose g0
                     (fun x => if obj_id x =? m then f x else x)
                     K0 (keeps_refs_at m f Kf))|].
    unfold update_object. cbn [objects]. rewrite E, map_map. reflexivity. }
  unfold attach_clip, add_strip. cbv zeta.
  set (d1 := rename_action host action name d).
  assert (S2 : exists g, keeps_refs g
                 /\ objects (if lacks_animation_data m d1
                             then update_object m
                                    (set_animation_data (Some (mkAnimData None []))) d1
                             else d1) = map g (objects d)).
  { destruct (lacks_animation_data m d1).
    - apply (U _ d1 (fun o => o));
        [apply keeps_refs_set_animation_data | apply keeps_refs_id|].
      symmetry. apply map_id.
    - exists (fun o => o). split; [apply keeps_refs_id|].
      symmetry. apply map_id. }
  destruct S2 as [g2 [K2 E2]].
  edestruct U as [g3 [K3 E3]]; [apply keeps_refs_on_tracks | exact K2 | exact E2 |].
  edestruct U as [g4 [K4 E4]]; [apply keeps_refs_on_tracks | exact K3 | exact E3 |].
  edestruct U as [g5 [K5 E5]]; [apply keeps_refs_on_tracks | exact K4 | exact E4 |].
  edestruct U as [g6 [K6 E6]]; [apply keeps_refs_on_tracks | exact K5 | exact E5 |].
  exists g6. split; [exact K6 | exact E6].
Qed.

Lemma rename_keeps_others (host : Host) (action : nat) (name : string)
  (d : BpyData) (a : Action) :
  In a (actions d) -> act_id a <> action ->
  In a (actions (rename_action host action name d)).
Proof.
  intros H N. unfold rename_action. cbn [actions]. apply in_map_iff.
  exists a. split; [|exact H].
  destruct (Nat.eqb_spec (act_id a) action); [contradiction | reflexivity].
Qed.

Lemma old_action_below (d : BpyData) (a : Action) :
  In a (actions d) -> act_id a < fresh_act d.
Proof.
  intros H. unfold fresh_act.
  assert (act_id a <= list_max (map act_id (actions d)))
    by (apply list_max_ge, in_map; exact H).
  lia.
Qed.

Lemma clip_track_later (host : Host) (f : Fs) (d d' : BpyData) (p : string)
  (t : NlaTrack) :
  (forall a, In a (actions d) -> In a (actions d')) ->
  clip_track host f d p t -> clip_track host f d' p t.
Proof.
  intros K [c [fa [a [s [H1 [H2 [H3 [H4 [H5 [H6 H7]]]]]]]]]].
  exists c, fa, a, s. repeat (split; [assumption|]).
  split; [|exact H7].
  apply (proj2 (in_data_actions host d' a)), K.
  apply (proj1 (in_data_actions host d a)). exact H6.
Qed.

Section Spec.
Variable host : Host.

Lemma process_file_spec (m : nat) (p : string) (c : nat) (w : World)
  (mo : Object) :
  find_object m (bpy w) = Some mo ->
  exists w' mo' new,
    process_file host m p c w = (Ret (c + List.length new), w')
    /\ fs w' = fs w
    /\ find_object m (bpy w') = Some mo'
    /\ same_rig mo mo' new
    /\ Forall2 (clip_track host (fs w) (bpy w'))
               (filter (brings_clip host (fs w)) [p]) new
    /\ (forall o, In o (objects (bpy w)) -> obj_id o <> m ->
          exists o', In o' (objects (bpy w')) /\ same_object o o')
    /\ (forall a, In a (actions (bpy w)) -> In a (actions (bpy w'))).
Proof.
  intros F. cbn [filter]. unfold brings_clip.
  destruct (find_object_below _ _ _ F) as [Hid Hin].
  pose proof (fresh_obj_stale _ _ Hin) as [Hm _]. rewrite Hid in Hm.
  destruct (fbx_file host (fs w) (normalize_path host p)) as [e|contents] eqn:E.
  { rewrite (process_file_import_error host m p c w e E).
    eexists _, mo, []. cbn [List.length]. rewrite Nat.add_0_r.
    split; [reflexivity|]. cbn [fs bpy].
    split; [reflexivity|]. split; [exact F|]. split; [apply same_rig_refl|].
    split; [constructor|].
    split; [|auto]. intros o Ho _. exists o. split; [exact Ho | reflexivity]. }
  pose proof (clip_action_file host contents (bpy w) m Hm) as CF.
  destruct (file_clip contents) as [fa|] eqn:FC.
  2:{ rewrite (process_file_no_clip host m p c w contents E CF).
      eexists _, (set_selected false mo), []. cbn [List.length].
      rewrite Nat.add_0_r.
      split; [reflexivity|]. cbn [fs bpy].
      split; [reflexivity|]. split; [apply fbx_into_find; exact F|].
      split; [apply same_rig_deselect|]. split; [constructor|].
      split.
      - intros o Ho _. exists (set_selected false o). split; [|reflexivity].
        unfold fbx_into. cbn [objects]. apply in_app_iff. left.
        apply in_map. exact Ho.
      - intros a Ha. unfold fbx_into. cbn [actions]. apply in_app_iff.
        left. exact Ha. }
  destruct CF as [imp [action [n [C [Fresh Fa]]]]].
  pose proof (process_file_merged host m p c w contents imp action E C) as R.
  cbv zeta in R.
  set (name := anim_name_of host p) in *.
  set (d0 := fbx_into host contents (bpy w)) in *.
  set (d1 := attach_clip host m action name d0) in *.
  pose proof (rename_action_find host action name d0 _ Fa) as Fr.
  cbn [act_frame_range] in Fr.
  destruct (imported_armature_recent _ _ _ _ _ _ C) as [Himp _].
  assert (P1 : forall o, In o (objects d1) -> placed (fresh_obj (bpy w)) o).
  { apply attach_clip_placed. apply fbx_into_placed. }
  assert (Fm : find_object m (cleanup (obj_id imp) d1)
               = Some (set_selected false
                         (with_clip name
                            (mkStrip
                               (new_strip_name host
                                  (strip_names (set_selected false mo)) name
                                  (stored_action_name host action name d0))
                               (int_of_float (fst (fa_frame_range fa)))
                               action)
                            (set_selected false mo)))).
  { rewrite (cleanup_find_stale _ _ _ Himp P1 m Hm).
    unfold d1.
    rewrite (attach_clip_find host _ _ _ _ _ (fbx_into_find host contents _ _ _ F)).
    fold d0. unfold action_name, action_frame_range. rewrite Fr.
    reflexivity. }
  eexists _, _, [_]. cbn [List.length]. replace (c + 1) with (S c) by lia.
  split; [exact R|]. cbn [fs bpy].
  split; [reflexivity|]. split; [exact Fm|].
  split; [unfold same_rig, with_clip, tracks_of, action_of; cbn; auto 10|].
  split.
  { constructor; [|constructor].
    eexists contents, fa,
      (mkAction action (stored_action_name host action name d0)
                (fa_frame_range fa)), _.
    split; [exact E|]. split; [exact FC|]. split; [reflexivity|].
    cbn [strip_frame_start strip_action strip_name act_id act_name
         act_frame_range].
    split; [reflexivity|]. split; [reflexivity|].
    split.
    { apply in_data_actions. rewrite cleanup_actions. unfold d1.
      rewrite attach_clip_actions.
      unfold find_action in Fr. apply find_some in Fr as [Fr _]. exact Fr. }
    split; [reflexivity|]. split; eexists; reflexivity. }
  split.
  - intros o Ho No. exists (set_selected false (set_selected false o)).
    split; [|reflexivity].
    apply (cleanup_keeps_stale _ _ _ Himp P1).
    + apply attach_clip_other; [|exact No].
      unfold d0, fbx_into. cbn [objects]. apply in_app_iff. left.
      apply in_map. exact Ho.
    + apply keeps_refs_stale; [apply keeps_refs_set_selected|].
      apply fresh_obj_stale. exact Ho.
  - intros a Ha. rewrite cleanup_actions. unfold d1.
    rewrite attach_clip_actions. apply rename_keeps_others.
    + unfold d0, fbx_into. cbn [actions]. apply in_app_iff. left. exact Ha.
    + apply old_action_below in Ha. lia.
Qed.

(** The loop: it returns, its count grows by the number of files that bring
    a clip, and the master armature gets one track for each of them, in the
    order of the batch, on top of the tracks it had; the other objects and
    the actions that were there stay. *)
Lemma merge_loop_spec (m : nat) (files : list string) (c : nat) (w : World)
  (mo : Object) :
  find_object m (bpy w) = Some mo ->
  exists w' mo' new,
    merge_loop host m files c w = (Ret (c + List.length new), w')
    /\ fs w' = fs w
    /\ find_object m (bpy w') = Some mo'
    /\ same_rig mo mo' new
    /\ Forall2 (clip_track host (fs w) (bpy w'))
               (filter (brings_clip host (fs w)) files) new
    /\ (forall o, In o (objects (bpy w)) -> obj_id o <> m ->
          exists o', In o' (objects (bpy w')) /\ same_object o o')
    /\ (forall a, In a (actions (bpy w)) -> In a (actions (bpy w'))).
Proof.
  revert c w mo. induction files as [|p rest IH]; intros c w mo F.
  - exists w, mo, []. cbn. unfold ret. rewrite Nat.add_0_r.
    split; [reflexivity|]. split; [reflexivity|]. split; [exact F|].
    split; [apply same_rig_refl|]. split; [constructor|].
    split; [|auto]. intros o Ho _. exists o. split; [exact Ho | reflexivity].
  - destruct (process_file_spec m p c w mo F)
      as [w1 [mo1 [new1 [R1 [F1 [M1 [S1 [T1 [O1 A1]]]]]]]]].
    destruct (IH (c + List.length new1) w1 mo1 M1)
      as [w2 [mo2 [new2 [R2 [F2 [M2 [S2 [T2 [O2 A2]]]]]]]]].
    exists w2, mo2, (new1 ++ new2).
    cbn [merge_loop]. rewrite (bind_ret _ _ _ _ _ R1), R2.
    rewrite length_app, Nat.add_assoc.
    split; [reflexivity|]. split; [congruence|]. split; [exact M2|].
    split; [eapply same_rig_trans; eassumption|].
    split.
    { change (p :: rest) with ([p] ++ rest). rewrite filter_app.
      apply Forall2_app.
      - eapply Forall2_impl; [|exact T1]. intros q t.
        apply clip_track_later. exact A2.
      - rewrite F1 in T2. exact T2. }
    split; [|auto].
    intros o Ho No. destruct (O1 o Ho No) as [o1 [H1 E1]].
    assert (N1 : obj_id o1 <> m).
    { unfold same_object in E1.
      apply (f_equal obj_id) in E1. cbn in E1. congruence. }
    destruct (O2 o1 H1 N1) as [o2 [H2 E2]].
    exists o2. split; [exact H2|]. unfold same_object in *. congruence.
Qed.

End Spec.

Section Batch.
Variable host : Host.

(** Step 3 of [main], by what the files hold. *)
Lemma merge_phase_spec (m : nat) (anims_dir : string) (w : World)
  (mo : Object) :
  find_object m (bpy w) = Some mo ->
  exists w' mo' new evs msgs,
    merge_phase host m anims_dir w = (Ret (List.length new), w')
    /\ fs w' = fs w /\ cycles_class w' = cycles_class w
    /\ trace w' = trace w ++ evs /\ forallb (file_event m) evs = true
    /\ out w' = out w ++ msgs /\ forallb batch_msg msgs = true
    /\ find_object m (bpy w') = Some mo'
    /\ same_rig mo mo' new
    /\ Forall2 (clip_track host (fs w) (bpy w'))
               (filter (brings_clip host (fs w))
                       (find_fbx_files (flavour host) (fs w) anims_dir))
               new
    /\ (forall o, In o (objects (bpy w)) -> obj_id o <> m ->
          exists o', In o' (objects (bpy w')) /\ same_object o o')
    /\ (forall a, In a (actions (bpy w)) -> In a (actions (bpy w'))).
Proof.
  intros F.
  destruct (find_fbx_files (flavour host) (fs w) anims_dir) as [|p rest] eqn:Fl.
  - rewrite (merge_phase_empty host m anims_dir w Fl).
    eexists _, mo, [], [], _. unfold printed. cbn [fs bpy cycles_class out trace].
    rewrite app_nil_r.
    split; [reflexivity|]. do 6 (split; [reflexivity|]).
    split; [exact F|]. split; [apply same_rig_refl|]. split; [constructor|].
    split; [|auto]. intros o Ho _. exists o. split; [exact Ho | reflexivity].
  - unfold merge_phase. rewrite bind_get_fs, Fl. step_print.
    match goal with
    | |- context [bind (merge_loop host m ?fl 0) _ ?w0] =>
        destruct (merge_loop_run host m fl 0 w0)
          as [c [w' [evs [msgs [R [F1 [K1 [T1 [E1 [O1 [B1 _]]]]]]]]]]];
        destruct (merge_loop_spec host m fl 0 w0 mo F)
          as [w2 [mo' [new [R2 [_ [M2 [S2 [C2 [H2 A2]]]]]]]]]
    end.
    rewrite R in R2. inversion R2; subst w2 c. clear R2.
    cbn [fs bpy cycles_class out trace] in *.
    rewrite (bind_ret _ _ _ _ _ R). step_print. unfold ret.
    eexists _, mo', new, evs, (_ :: msgs ++ [_]).
    cbn [fs bpy cycles_class out trace Nat.add].
    rewrite O1, <- !app_assoc. cbn [app].
    split; [reflexivity|]. do 4 (split; [eassumption || reflexivity|]).
    split; [reflexivity|].
    split; [cbn [forallb batch_msg andb]; rewrite forallb_app, B1; reflexivity|].
    auto 10.
Qed.

(** Once the master armature is found, [main] is the export step run from
    where the batch step ends: the file system is as at the start, and the
    data is the data of the master file with, on the master armature, one
    new track for each file that brought a clip. *)
Lemma main_batch (sys_argv : list string) (w : World) (args : Args)
  (master_path anims_dir output_path : string) (d : BpyData)
  (master mo : Object) :
  parse_args (script_args sys_argv) = Parsed args ->
  paths_of host args = Some (master_path, anims_dir, output_path) ->
  fs_exists (fs w) master_path = true ->
  blend_file host (fs w) master_path = inr d ->
  find is_armature (data_objects host d) = Some master ->
  find_object (obj_id master) d = Some mo ->
  exists w4 mo' new evs msgs,
    main host sys_argv w = export_phase host output_path (List.length new) w4
    /\ fs w4 = fs w /\ cycles_class w4 = cycles_class w
    /\ trace w4 = trace w ++ [Called (ReadHomefile true);
                              Called (OpenMainfile master_path)] ++ evs
    /\ forallb (file_event (obj_id master)) evs = true
    /\ out w4 = out w ++ [MsgBanner (version_string host);
                          MsgConfiguration master_path anims_dir output_path;
                          MsgClearingScene;
                          MsgOpeningMaster master_path;
                          MsgMasterLoaded;
                          MsgTargetRig (obj_name master)] ++ msgs
    /\ forallb batch_msg msgs = true
    /\ find_object (obj_id master) (bpy w4) = Some mo'
    /\ same_rig mo mo' new
    /\ Forall2 (clip_track host (fs w) (bpy w4))
               (filter (brings_clip host (fs w))
                       (find_fbx_files (flavour host) (fs w) anims_dir))
               new
    /\ (forall o, In o (objects d) -> obj_id o <> obj_id master ->
          exists o', In o' (objects (bpy w4)) /\ same_object o o')
    /\ (forall a, In a (actions d) -> In a (actions (bpy w4))).
Proof.
  intros P Pa Ex Bl Fa Fm. rewrite main_run, P, Pa. cbv zeta. rewrite Ex, Bl, Fa.
  match goal with
  | |- context [bind (merge_phase host ?m ?a) (export_phase host ?o) ?w0] =>
      destruct (merge_phase_spec m a w0 mo Fm)
        as [w4 [mo' [new [evs [msgs [R H]]]]]]
  end.
  exists w4, mo', new, evs, msgs.
  rewrite (bind_ret _ _ _ _ _ R).
  unfold traced, printed, with_bpy in H. cbn [fs bpy cycles_class out trace] in H.
  destruct H as [H1 [H2 [H3 [H4 [H5 [H6 H7]]]]]].
  split; [reflexivity|]. split; [exact H1|]. split; [exact H2|].
  split; [rewrite H3, <- !app_assoc; reflexivity|]. split; [exact H4|].
  split; [rewrite H5, <- !app_assoc; reflexivity|]. split; [exact H6|].
  exact H7.
Qed.

Lemma export_phase_bpy (output_path : string) (c : nat) (w : World) :
  bpy (snd (export_phase host output_path c w)) = bpy w.
Proof.
  rewrite export_phase_run. cbv zeta.
  destruct (os_makedirs host (fs w) _) as [e|f1];
    [|destruct (gltf_export host _ (bpy w) f1) as [e|f2];
      [|destruct (fs_exists f2 output_path)]];
    reflexivity.
Qed.

End Batch.

(* ------------------------------------------------------------------ *)
(** ** The cleanup after a merge, in terms of what the import left *)


Section AfterMerge.
Variables (host : Host) (m action : nat) (name : string).
Variables (contents : FbxContents) (d : BpyData) (imp : Object).
Hypothesis clip :
  clip_action (find_imported_armature m (fbx_into host contents d))
  = Some (imp, action).

Let d0 := fbx_into host contents d.
Let d1 := attach_clip host m action name d0.

(** The selection calls of the cleanup: one for each object of the scene
    that is the imported armature or a direct child of it, in the order
    of the scene. *)
Lemma cleanup_calls_after_merge :
  cleanup_calls (obj_id imp) d1
  = [Called (SelectAll "DESELECT")]
    ++ map (fun o => Called (SelectSet (obj_id o) true))
           (filter (belongs_to (obj_id imp)) (objects d0))
    ++ [Called ObjectDelete].
Proof.
  unfold cleanup_calls, select_imported_calls, deselect_all. cbn [objects].
  destruct (attach_clip_objects host m action name d0) as [g [K E]].
  fold d1 in E. rewrite E, map_map.
  assert (K' : keeps_refs (fun o => set_selected false (g o))).
  { exact (keeps_refs_compose g (set_selected false) K
             (keeps_refs_set_selected false)). }
  rewrite filter_map_same by (intros o; apply (keeps_refs_belongs _ _ _ K')).
  rewrite map_map. do 2 f_equal. apply map_ext. intros o.
  destruct (K' o) as [-> _]. reflexivity.
Qed.

Lemma objects_after_merge :
  map obj_id (objects (cleanup (obj_id imp) d1))
  = map obj_id (filter (fun o => negb (belongs_to (obj_id imp) o)) (objects d0))
  /\ (forall o, In o (objects d0) -> belongs_to (obj_id imp) o = true ->
        ~ In (obj_id o) (map obj_id (objects (cleanup (obj_id imp) d1))))
  /\ In imp (objects d0).
Proof.
  destruct (imported_armature_recent _ _ _ _ _ _ clip) as [Himp [Hin _]].
  destruct (attach_clip_objects host m action name d0) as [g [K E]].
  fold d1 in E.
  assert (P1 : forall o, In o (objects d1) -> placed (fresh_obj d) o).
  { apply attach_clip_placed. apply fbx_into_placed. }
  assert (O1 : one_per_reference (fresh_obj d) (objects d1)).
  { rewrite E. apply one_per_reference_map; [exact K|].
    apply fbx_into_one_per_reference. }
  split; [|split; [|exact Hin]].
  - rewrite (cleanup_ids _ _ _ Himp P1 O1), E.
    rewrite filter_map_same
      by (intros o; rewrite (keeps_refs_belongs _ _ _ K); reflexivity).
    apply map_id_map. exact K.
  - intros o Ho B.
    assert (Hg : In (g o) (objects d1)) by (rewrite E; apply in_map; exact Ho).
    assert (Bg : belongs_to (obj_id imp) (g o) = true)
      by (rewrite (keeps_refs_belongs _ _ _ K); exact B).
    pose proof (cleanup_absent _ _ _ Himp P1 O1 (g o) Hg Bg) as A.
    destruct (K o) as [I _]. rewrite I in A. exact A.
Qed.

End AfterMerge.

(* ================================================================== *)
(** * The claims *)
(* ================================================================== *)


(** C2: a file whose import raises, or whose import leaves no selected
    armature (other than the master) with animation data and an action, is
    skipped: the pass returns normally with the success count unchanged and
    one line logged, and the loop goes on with the remaining files and
    itself returns. *)
Theorem recoverable_failures (host : Host) (m : nat) (p : string)
  (rest : list string) (c : nat) (w : World) :
  (exists e, fbx_file host (fs w) (normalize_path host p) = inl e)
  \/ (exists contents,
        fbx_file host (fs w) (normalize_path host p) = inr contents
        /\ clip_action (find_imported_armature m (fbx_into host contents (bpy w)))
           = None) ->
  exists w' msg,
    process_file host m p c w = (Ret c, w')
    /\ out w' = out w ++ [MsgImporting (anim_name_of host p); msg]
    /\ ((exists e, msg = MsgImportError (anim_name_of host p) e)
        \/ msg = MsgNoAnimationData (anim_name_of host p))
    /\ merge_loop host m (p :: rest) c w = merge_loop host m rest c w'
    /\ exists c' w'', merge_loop host m rest c w' = (Ret c', w'').
Proof.
  intros [[e E] | [contents [E C]]].
  - pose proof (process_file_import_error host m p c w e E) as R.
    eexists _, _. split; [exact R|]. cbn [out].
    split; [reflexivity|]. split; [left; eauto|].
    split; [cbn [merge_loop]; rewrite (bind_ret _ _ _ _ _ R); reflexivity|].
    match goal with
    | |- exists c' w'', merge_loop host m rest c ?w0 = _ =>
        destruct (merge_loop_run host m rest c w0) as [c' [w'' [_ [_ [L _]]]]]
    end.
    eauto.
  - pose proof (process_file_no_clip host m p c w contents E C) as R.
    eexists _, _. split; [exact R|]. cbn [out].
    split; [reflexivity|]. split; [right; reflexivity|].
    split; [cbn [merge_loop]; rewrite (bind_ret _ _ _ _ _ R); reflexivity|].
    match goal with
    | |- exists c' w'', merge_loop host m rest c ?w0 = _ =>
        destruct (merge_loop_run host m rest c w0) as [c' [w'' [_ [_ [L _]]]]]
    end.
    eauto.
Qed.

Lemma recoverable_failures_witness :
  exists w' msg,
    process_file demo_host 2 "/work/anims/bad.FBX" 0 demo_loaded = (Ret 0, w')
    /\ out w' = out demo_loaded ++ [MsgImporting (anim_name_of demo_host "/work/anims/bad.FBX"); msg]
    /\ ((exists e, msg = MsgImportError (anim_name_of demo_host "/work/anims/bad.FBX") e)
        \/ msg = MsgNoAnimationData (anim_name_of demo_host "/work/anims/bad.FBX"))
    /\ merge_loop demo_host 2 ["/work/anims/bad.FBX"; "/work/anims/walk.fbx"] 0 demo_loaded
       = merge_loop demo_host 2 ["/work/anims/walk.fbx"] 0 w'
    /\ exists c' w'', merge_loop demo_host 2 ["/work/anims/walk.fbx"] 0 w' = (Ret c', w'').
Proof.
  apply (recoverable_failures demo_host 2 "/work/anims/bad.FBX"
           ["/work/anims/walk.fbx"] 0 demo_loaded).
  left. exists "import failed". reflexivity.
Defined.

(** C3, as the code has it.  One pass of the loop imports the file; when
    the import raises, or leaves no usable clip, nothing else is called and
    what was imported stays in the scene.  Otherwise the calls are, in
    order: the import, the renaming of the action to the file's base name
    without extension, the creation of the master's animation data if it has
    none, a new track named after the file, one strip on it holding the
    action and starting at the action's first frame (truncated), then the
    deselection, one selection call for each object of the scene that is
    the imported armature or has it as its parent, and the deletion.
    Afterwards the action is in the data under the name the host made of
    the file's name among the other actions; the master armature has the
    new track on top of its tracks, with the strip under the name the host
    gave it; and the scene holds, in its order, the objects it held after
    the import except the imported armature and its direct children, of
    which none is left. *)
Theorem per_file_procedure (host : Host) (m : nat) (p : string) (c : nat)
  (w : World) :
  let name := anim_name_of host p in
  let path := normalize_path host p in
  match fbx_file host (fs w) path with
  | inl e =>
      process_file host m p c w =
      (Ret c,
       mkWorld (fs w) (bpy w) (cycles_class w)
         (out w ++ [MsgImporting name; MsgImportError name e])
         (trace w ++ [Threw (import_call path) e]))
  | inr contents =>
      let d0 := fbx_into host contents (bpy w) in
      match clip_action (find_imported_armature m d0) with
      | None =>
          process_file host m p c w =
          (Ret c,
           mkWorld (fs w) d0 (cycles_class w)
             (out w ++ [MsgImporting name; MsgNoAnimationData name])
             (trace w ++ [Called (import_call path)]))
      | Some (imp, action) =>
          let stored := stored_action_name host action name d0 in
          let doomed := filter (belongs_to (obj_id imp)) (objects d0) in
          exists w' fa create,
            process_file host m p c w = (Ret (S c), w')
            /\ In fa (fbx_actions contents)
            /\ trace w' =
               trace w
               ++ [Called (import_call path);
                   Called (SetActionName action name)]
               ++ create
               ++ [Called (NlaTracksNew m);
                   Called (SetTrackName m name);
                   Called (StripsNew m name
                             (int_of_float (fst (fa_frame_range fa))) action);
                   Called (SetStripAction m action);
                   Called (SelectAll "DESELECT")]
               ++ map (fun o => Called (SelectSet (obj_id o) true)) doomed
               ++ [Called ObjectDelete]
            /\ out w' =
               out w
               ++ [MsgImporting name;
                   MsgMerged name (int_of_float (fst (fa_frame_range fa)))
                             (int_of_float (snd (fa_frame_range fa)))]
            /\ (create = [] \/ create = [Called (AnimationDataCreate m)])
            /\ (forall master, find_object m (bpy w) = Some master ->
                  create = match obj_animation_data master with
                           | Some _ => []
                           | None => [Called (AnimationDataCreate m)]
                           end)
            /\ find_action action (bpy w')
               = Some (mkAction action stored (fa_frame_range fa))
            /\ (forall master, find_object m (bpy w) = Some master ->
                  find_object m (bpy w')
                  = Some (with_clip name
                            (mkStrip
                               (new_strip_name host (strip_names master)
                                               name stored)
                               (int_of_float (fst (fa_frame_range fa)))
                               action)
                            (set_selected false master)))
            /\ In imp doomed
            /\ map obj_id (objects (bpy w'))
               = map obj_id
                   (filter (fun o => negb (belongs_to (obj_id imp) o))
                           (objects d0))
            /\ (forall o, In o doomed ->
                  ~ In (obj_id o) (map obj_id (objects (bpy w'))))
            /\ (forall o, In o (objects (bpy w')) ->
                  belongs_to (obj_id imp) o = false)
      end
  end.
Proof.
  cbv zeta.
  destruct (fbx_file host (fs w) (normalize_path host p)) as [e|contents] eqn:E.
  { apply process_file_import_error. exact E. }
  destruct (clip_action (find_imported_armature m (fbx_into host contents (bpy w))))
    as [[imp action]|] eqn:C.
  2:{ apply process_file_no_clip; assumption. }
  pose proof (process_file_merged host m p c w contents imp action E C) as R.
  cbv zeta in R.
  destruct (clip_action_stored _ _ _ _ _ _ C) as [fa [n [Hfa [_ Ffa]]]].
  pose proof (cleanup_calls_after_merge host m action (anim_name_of host p)
                contents (bpy w) imp) as CC.
  destruct (objects_after_merge host m action (anim_name_of host p)
              contents (bpy w) imp C) as [Ids [Gone Himp]].
  set (name := anim_name_of host p) in *.
  set (d0 := fbx_into host contents (bpy w)) in *.
  pose proof (rename_action_find host action name d0 _ Ffa) as Fr.
  cbn [act_frame_range] in Fr.
  assert (Fs1 : action_frame_range action (rename_action host action name d0)
                = fa_frame_range fa).
  { unfold action_frame_range. rewrite Fr. reflexivity. }
  assert (Fs2 : action_frame_range action (attach_clip host m action name d0)
                = fa_frame_range fa).
  { unfold action_frame_range, find_action in *.
    rewrite attach_clip_actions. exact Fs1. }
  eexists _, fa,
    (if lacks_animation_data m (rename_action host action name d0)
     then [Called (AnimationDataCreate m)] else []).
  split; [exact R|]. cbn [bpy trace out].
  split; [exact Hfa|]. split.
  { rewrite CC. unfold attach_calls. cbv zeta. rewrite Fs1.
    repeat rewrite <- app_assoc. reflexivity. }
  split; [rewrite Fs2; reflexivity|].
  split; [destruct (lacks_animation_data m _); auto|].
  split.
  { intros master F. unfold lacks_animation_data.
    change (find_object m (rename_action host action name d0))
      with (find_object m d0).
    unfold d0. rewrite (fbx_into_find host contents _ _ _ F).
    cbn [obj_animation_data set_selected].
    destruct (obj_animation_data master); reflexivity. }
  split.
  { unfold find_action. rewrite cleanup_actions, attach_clip_actions.
    exact Fr. }
  split.
  { intros master F.
    destruct (imported_armature_recent _ _ _ _ _ _ C) as [Hrec _].
    destruct (find_object_below _ _ _ F) as [Hid Hin].
    pose proof (fresh_obj_stale _ _ Hin) as [Hm _]. rewrite Hid in Hm.
    assert (P1 : forall o, In o (objects (attach_clip host m action name d0)) ->
                           placed (fresh_obj (bpy w)) o).
    { apply attach_clip_placed. apply fbx_into_placed. }
    rewrite (cleanup_find_stale _ _ _ Hrec P1 m Hm).
    rewrite (attach_clip_find host _ _ _ _ _ (fbx_into_find host contents _ _ _ F)).
    fold d0. unfold action_name. rewrite Fs1, Fr. reflexivity. }
  split.
  { apply filter_In. split; [exact Himp|].
    unfold belongs_to. rewrite Nat.eqb_refl. reflexivity. }
  split; [exact Ids|].
  split.
  { intros o Ho. apply filter_In in Ho as [Ho B]. exact (Gone o Ho B). }
  intros o Ho. eapply cleanup_removes. exact Ho.
Qed.

(** C3 as stated fails: when the imported armature carries no animation
    data the pass deletes nothing, and the imported objects stay in the
    scene. *)
Lemma imported_objects_may_remain :
  ~ (forall host m p c w,
       spec_no_imported_left (bpy w) (bpy (snd (process_file host m p c w)))).
Proof.
  intros H.
  specialize (H demo_host 2 "/work/anims/still.fbx" 0 demo_loaded
                (mkObject 4 "Armature" "ARMATURE" None true None)).
  assert (I : In (mkObject 4 "Armature" "ARMATURE" None true None)
                 (objects (bpy (snd (process_file demo_host 2
                                       "/work/anims/still.fbx" 0 demo_loaded))))).
  { vm_compute. auto 10. }
  specialize (H I). vm_compute in H.
  repeat (destruct H as [H | H]; [discriminate H|]). exact H.
Qed.

(** Even a merged clip leaves behind what was imported but is not parented
    directly to the imported armature. *)
Lemma imported_grandchildren_remain :
  fst (process_file demo_host 2 "/work/anims/walk.fbx" 0 demo_loaded) = Ret 1
  /\ In (mkObject 6 "Hat" "MESH" None false None)
        (objects (bpy (snd (process_file demo_host 2
                              "/work/anims/walk.fbx" 0 demo_loaded)))).
Proof. split; [reflexivity | vm_compute; auto 10]. Qed.





(** On every platform a name starting with a dot is skipped, whatever its
    extension. *)
Lemma fbx_selection_skips_hidden (fl : os_flavour) :
  spec_selects ".take1.fbx" = true
  /\ ~ In (path_join fl "anims" ".take1.fbx")
          (find_fbx_files fl
             (mkFs (fun _ => true) (fun _ => [".take1.fbx"]) (fun _ _ => []))
             "anims").
Proof.
  split; [reflexivity|]. destruct fl; vm_compute; tauto.
Qed.

(** C6: the three options are required.  When the arguments the script
    parses (what follows the first [--] of [sys.argv]; nothing when there is
    no [--]) leave out one of [--master], [--anims], [--output], the process
    exits during argument parsing and the world is untouched: no scene
    reset, no file loaded, nothing exported. *)
Theorem required_flags (host : Host) (sys_argv : list string) (w : World) :
  ~ In "--" sys_argv \/ (exists d, absent d (script_args sys_argv)) ->
  exists code,
    (code = 0%Z \/ code = 2%Z)
    /\ main host sys_argv w = (SysExit code, w).
Proof.
  intros H.
  assert (A : exists d, absent d (script_args sys_argv)).
  { destruct H as [H | H]; [|exact H].
    exists Master. rewrite (script_args_without_separator _ H).
    intros arg []. }
  destruct A as [d A]. destruct (parse_args_requires d _ A) as [code P].
  exists code. split; [exact (parse_args_exit_code _ _ P)|].
  rewrite main_run, P. reflexivity.
Qed.

Lemma required_flags_witness :
  exists code,
    (code = 0%Z \/ code = 2%Z)
    /\ main demo_host ["blender"; "--"; "--master"; "/work/master.blend";
                       "--anims"; "/work/anims"] demo_world
       = (SysExit code, demo_world).
Proof.
  apply required_flags. right. exists Output.
  intros arg H. cbn in H.
  repeat (destruct H as [<- | H]; [reflexivity|]). contradiction.
Defined.

(** C7: the patch never lets an exception out; a class that already has
    [cast_shadow] is left as it is; otherwise the class either gets the
    [cast_shadow] property -- always, when the probe light and the class
    can be handled -- or stays as it is with a warning printed; on a class
    with the property every read of [cast_shadow] gives [True] and every
    write leaves the instance as it was; and patching twice leaves the class
    as patching once does. *)
Theorem patch_is_safe_and_idempotent (host : Host) (w : World) :
  let once := snd (apply_nuclear_patch host w) in
  let twice := snd (apply_nuclear_patch host once) in
  let patched :=
    setattr (cycles_class w) "cast_shadow"
            (PropertyAttr (mkProperty (fun self => PyTrue) (fun self v => self))) in
  fst (apply_nuclear_patch host w) = Ret tt
  /\ (if hasattr (cycles_class w) "cast_shadow"
      then cycles_class once = cycles_class w
      else (cycles_class once = cycles_class w
            /\ exists e, In (MsgPatchWarning e) (out once))
           \/ cycles_class once = patched)
  /\ match lights_new_error host (bpy w), cycles_error host, setattr_error host with
     | None, None, None =>
         hasattr (cycles_class once) "cast_shadow" = true
     | _, _, _ => cycles_class once = cycles_class w
     end
  /\ (forall self v,
        read_attribute patched self "cast_shadow" = Some PyTrue
        /\ write_attribute patched self "cast_shadow" v = self)
  /\ cycles_class twice = cycles_class once.
Proof.
  cbv zeta.
  destruct (apply_nuclear_patch_run host w)
    as [w1 [R1 [C1 [_ [B1 [msgs [O1 W1]]]]]]].
  destruct (apply_nuclear_patch_run host w1) as [w2 [R2 [C2 _]]].
  rewrite R1. cbn [fst snd]. rewrite R2. cbn [snd].
  split; [reflexivity|]. split; [|split; [|split]].
  - destruct (patched_class_cases host w) as [P | [H P]].
    + destruct (hasattr (cycles_class w) "cast_shadow") eqn:H; [congruence|].
      left. split; [congruence|].
      assert (X : existsb is_patch_warning msgs = true)
        by (apply W1; congruence).
      apply existsb_exists in X as [m [Hm X]].
      destruct m; try discriminate X. exists e.
      rewrite O1. apply in_or_app. right. right. exact Hm.
    + rewrite H. right. rewrite C1, P. reflexivity.
  - rewrite C1. unfold patched_class.
    destruct (lights_new_error host (bpy w)), (cycles_error host),
      (setattr_error host); try reflexivity.
    destruct (hasattr (cycles_class w) "cast_shadow") eqn:H;
      [exact H | apply hasattr_setattr].
  - intros self v. unfold read_attribute, write_attribute.
    rewrite getattr_setattr. split; reflexivity.
  - rewrite C2, C1. apply patched_class_twice; assumption.
Qed.

(** C8: the batch loop never deletes the master armature.  The armature
    taken as imported is never the master; and whatever the files are, the
    loop returns, the master's reference still finds it, with the same name,
    type, parent and action, its earlier tracks intact and one track added
    per merged file; every other object that was in the scene is still
    there. *)
Theorem master_armature_survives (host : Host) (m : nat) (files : list string)
  (c : nat) (w : World) (master : Object) :
  find_object m (bpy w) = Some master ->
  (forall d imp, find_imported_armature m d = Some imp -> obj_id imp <> m)
  /\ exists c' w' master' new,
       merge_loop host m files c w = (Ret c', w')
       /\ find_object m (bpy w') = Some master'
       /\ same_rig master master' new
       /\ c' = c + List.length new
       /\ (forall o, In o (objects (bpy w)) -> obj_id o <> m ->
                     exists o', In o' (objects (bpy w')) /\ same_object o o').
Proof.
  intros F. split.
  - intros d imp H. unfold find_imported_armature in H.
    apply find_some in H as [_ H]. apply andb_true_iff in H as [_ H].
    apply negb_true_iff, Nat.eqb_neq in H. exact H.
  - apply merge_loop_keeps_master. exact F.
Qed.

Lemma master_armature_survives_witness :
  (forall d imp, find_imported_armature 2 d = Some imp -> obj_id imp <> 2)
  /\ exists c' w' master' new,
       merge_loop demo_host 2
         ["/work/anims/bad.FBX"; "/work/anims/still.fbx"; "/work/anims/walk.fbx"]
         0 demo_loaded = (Ret c', w')
       /\ find_object 2 (bpy w') = Some master'
       /\ same_rig (mkObject 2 "Rig" "ARMATURE" None true None) master' new
       /\ c' = 0 + List.length new
       /\ (forall o, In o (objects (bpy demo_loaded)) -> obj_id o <> 2 ->
                     exists o', In o' (objects (bpy w')) /\ same_object o o').
Proof.
  apply (master_armature_survives demo_host 2 _ 0 demo_loaded).
  reflexivity.
Defined.

(** C9, as the code has it: the master armature is the first object of
    type ARMATURE in the order in which [bpy.data.objects] yields the
    objects -- the host's order of names -- however many armatures follow
    it.  The run goes on after naming it and prints nothing more about
    armatures; every call that creates animation data, a track or a strip
    acts on it; after the run it has, on top of its tracks, one track for
    each file of the batch that brought a clip, in the order of the batch;
    and every other object of the master file, the other armatures
    included, is as it was. *)
Theorem first_armature_is_master (host : Host) (sys_argv : list string)
  (w : World) (args : Args) (master_path anims_dir output_path : string)
  (d : BpyData) (before after : list Object) (master : Object) :
  parse_args (script_args sys_argv) = Parsed args ->
  paths_of host args = Some (master_path, anims_dir, output_path) ->
  fs_exists (fs w) master_path = true ->
  blend_file host (fs w) master_path = inr d ->
  data_objects host d = before ++ master :: after ->
  (forall o, In o before -> is_armature o = false) ->
  is_armature master = true ->
  find_object (obj_id master) d = Some master ->
  let w' := snd (main host sys_argv w) in
  exists evs msgs master' new,
    trace w' =
    trace w ++ [Called (ReadHomefile true); Called (OpenMainfile master_path)]
            ++ evs
    /\ out w' =
       out w ++ [MsgBanner (version_string host);
                 MsgConfiguration master_path anims_dir output_path;
                 MsgClearingScene;
                 MsgOpeningMaster master_path;
                 MsgMasterLoaded;
                 MsgTargetRig (obj_name master)]
             ++ msgs
    /\ forallb (fun m => negb (about_armature m)) msgs = true
    /\ (forall e o, In e evs -> track_owner e = Some o -> o = obj_id master)
    /\ find_object (obj_id master) (bpy w') = Some master'
    /\ same_rig master master' new
    /\ Forall2 (clip_track host (fs w) (bpy w'))
         (filter (brings_clip host (fs w))
                 (find_fbx_files (flavour host) (fs w) anims_dir))
         new
    /\ (forall o, In o (objects d) -> obj_id o <> obj_id master ->
          exists o', In o' (objects (bpy w')) /\ same_object o o').
Proof.
  intros P Pa Ex Bl Ho Hb Hm Fm. cbv zeta.
  assert (Fa : find is_armature (data_objects host d) = Some master)
    by (rewrite Ho; apply find_first; assumption).
  destruct (main_batch host sys_argv w args master_path anims_dir output_path
              d master master P Pa Ex Bl Fa Fm)
    as [w4 [mo' [new [evs [msgs [R [F4 [_ [T4 [E4 [O4 [B4 [M4 [S4 [C4 [H4 _]]]]]]]]]]]]]]]].
  rewrite R. pose proof (export_phase_bpy host output_path (List.length new) w4) as B.
  rewrite export_phase_run in *. cbv zeta in *.
  pose proof (batch_msgs_quiet _ B4) as Q4.
  pose proof (export_header_quiet host output_path (bpy w4)) as QH.
  assert (Own : forall tail e o,
             (forall x, In x tail -> track_owner x = None) ->
             In e (evs ++ tail) -> track_owner e = Some o -> o = obj_id master).
  { intros tail e o Ht Hin T. apply in_app_iff in Hin as [Hin | Hin].
    - exact (file_events_owner _ _ _ _ E4 Hin T).
    - rewrite (Ht e Hin) in T. discriminate T. }
  destruct (os_makedirs host (fs w4) _) as [e|f1].
  { exists (evs ++ [Threw (Makedirs (os_path_dirname host output_path) true) e]),
      (msgs ++ export_header host output_path (bpy w4)), mo', new.
    rewrite B. unfold traced, printed. cbn [fst snd trace out].
    rewrite T4, O4, <- !app_assoc.
    split; [reflexivity|]. split; [reflexivity|].
    split; [rewrite forallb_app, Q4, QH; reflexivity|].
    split; [intros x o; apply Own; intros y [<- | []]; reflexivity|].
    auto. }
  destruct (gltf_export host _ (bpy w4) f1) as [e|f2].
  { exists (evs ++ [Called (Makedirs (os_path_dirname host output_path) true);
                    Threw (ExportGltf (export_settings output_path)) e]),
      (msgs ++ export_header host output_path (bpy w4)), mo', new.
    rewrite B. unfold traced, printed, with_fs. cbn [fst snd trace out].
    rewrite T4, O4, <- !app_assoc.
    split; [reflexivity|]. split; [reflexivity|].
    split; [rewrite forallb_app, Q4, QH; reflexivity|].
    split; [intros x o; apply Own; intros y [<- | [<- | []]]; reflexivity|].
    auto. }
  destruct (fs_exists f2 _).
  - exists (evs ++ [Called (Makedirs (os_path_dirname host output_path) true);
                    Called (ExportGltf (export_settings output_path))]),
      (msgs ++ export_header host output_path (bpy w4)
            ++ [MsgSuccess output_path;
                MsgPipelineComplete (List.length new)]), mo', new.
    rewrite B. unfold traced, printed, with_fs. cbn [fst snd trace out].
    rewrite T4, O4, <- !app_assoc.
    split; [reflexivity|]. split; [reflexivity|].
    split; [rewrite !forallb_app, Q4, QH; reflexivity|].
    split; [intros x o; apply Own; intros y [<- | [<- | []]]; reflexivity|].
    auto.
  - exists (evs ++ [Called (Makedirs (os_path_dirname host output_path) true);
                    Called (ExportGltf (export_settings output_path))]),
      (msgs ++ export_header host output_path (bpy w4) ++ [MsgExportFailed]),
      mo', new.
    rewrite B. unfold traced, printed, with_fs. cbn [fst snd trace out].
    rewrite T4, O4, <- !app_assoc.
    split; [reflexivity|]. split; [reflexivity|].
    split; [rewrite !forallb_app, Q4, QH; reflexivity|].
    split; [intros x o; apply Own; intros y [<- | [<- | []]]; reflexivity|].
    auto.
Qed.

Lemma first_armature_is_master_witness :
  exists evs msgs master' new,
    trace (snd (main demo_host (demo_argv "/work/anims") demo_world)) =
    trace demo_world
    ++ [Called (ReadHomefile true); Called (OpenMainfile "/work/master.blend")]
    ++ evs
    /\ out (snd (main demo_host (demo_argv "/work/anims") demo_world)) =
       out demo_world
       ++ [MsgBanner "5.0.0";
           MsgConfiguration "/work/master.blend" "/work/anims" "/out/cortex.glb";
           MsgClearingScene;
           MsgOpeningMaster "/work/master.blend";
           MsgMasterLoaded;
           MsgTargetRig "Rig"]
       ++ msgs
    /\ forallb (fun m => negb (about_armature m)) msgs = true
    /\ (forall e o, In e evs -> track_owner e = Some o -> o = 2)
    /\ find_object 2 (bpy (snd (main demo_host (demo_argv "/work/anims")
                                     demo_world)))
       = Some master'
    /\ same_rig (mkObject 2 "Rig" "ARMATURE" None true None) master' new
    /\ Forall2 (clip_track demo_host demo_fs
                  (bpy (snd (main demo_host (demo_argv "/work/anims")
                                  demo_world))))
         ["/work/anims/walk.fbx"] new
    /\ (forall o, In o (objects demo_master) -> obj_id o <> 2 ->
          exists o',
            In o' (objects (bpy (snd (main demo_host (demo_argv "/work/anims")
                                           demo_world))))
            /\ same_object o o').
Proof.
  apply (first_armature_is_master demo_host (demo_argv "/work/anims") demo_world
           (mkArgs (Str "/work/master.blend") (Str "/work/anims")
                   (Str "/out/cortex.glb"))
           "/work/master.blend" "/work/anims" "/out/cortex.glb"
           demo_master
           [mkObject 1 "Body" "MESH" (Some 2) false None]
           [mkObject 3 "SpareRig" "ARMATURE" None false None]
           (mkObject 2 "Rig" "ARMATURE" None true None)).
  - reflexivity.
  - reflexivity.
  - reflexivity.
  - reflexivity.
  - reflexivity.
  - intros o [<- | []]. reflexivity.
  - reflexivity.
  - reflexivity.
Defined.

(** C9 as stated fails: the scene's order is not what decides.  In a master
    file whose scene yields the armature [Rig] before the armature
    [Armature], the first armature of [bpy.data.objects] is [Armature], and
    this one is taken as the target rig. *)
Lemma scene_order_does_not_decide :
  ~ (forall host sys_argv w args master_path anims_dir output_path d master,
       parse_args (script_args sys_argv) = Parsed args ->
       paths_of host args = Some (master_path, anims_dir, output_path) ->
       fs_exists (fs w) master_path = true ->
       blend_file host (fs w) master_path = inr d ->
       find is_armature (objects d) = Some master ->
       In (MsgTargetRig (obj_name master)) (out (snd (main host sys_argv w)))).
Proof.
  intros H.
  specialize (H two_rigs_host (demo_argv "/work/none") demo_world
                (mkArgs (Str "/work/master.blend") (Str "/work/none")
                        (Str "/out/cortex.glb"))
                "/work/master.blend" "/work/none" "/out/cortex.glb"
                two_rigs (mkObject 1 "Rig" "ARMATURE" None false None)
                eq_refl eq_refl eq_refl eq_refl eq_refl).
  vm_compute in H.
  repeat (destruct H as [H | H]; [discriminate H|]). exact H.
Qed.

(** In that file the clips go to [Armature] as well, and [Rig] gets
    none. *)
Lemma scene_order_does_not_decide_tracks :
  let d := bpy (snd (main two_rigs_host (demo_argv "/work/anims") demo_world)) in
  find is_armature (objects two_rigs)
  = Some (mkObject 1 "Rig" "ARMATURE" None false None)
  /\ option_map tracks_of (find_object 1 d) = Some []
  /\ option_map (fun o => map track_name (tracks_of o)) (find_object 2 d)
     = Some ["walk"].
Proof. repeat split; vm_compute; reflexivity. Qed.

(** C10: an empty batch is not an error.  With no matching file in the
    animations directory the run prints the warning, makes no import call,
    exports the master file's data as loaded, and -- the export having
    produced the output file -- returns normally, reporting zero merged
    animations. *)
Theorem empty_batch_exports_base_model (host : Host) (sys_argv : list string)
  (w : World) (args : Args) (master_path anims_dir output_path : string)
  (d : BpyData) (master : Object) (f1 f2 : Fs) :
  parse_args (script_args sys_argv) = Parsed args ->
  paths_of host args = Some (master_path, anims_dir, output_path) ->
  fs_exists (fs w) master_path = true ->
  blend_file host (fs w) master_path = inr d ->
  find is_armature (data_objects host d) = Some master ->
  find_fbx_files (flavour host) (fs w) anims_dir = [] ->
  os_makedirs host (fs w) (os_path_dirname host output_path) = inr f1 ->
  gltf_export host (export_settings output_path) d f1 = inr f2 ->
  fs_exists f2 output_path = true ->
  main host sys_argv w =
  (Ret tt,
   mkWorld f2 d (cycles_class w)
     (out w ++ [MsgBanner (version_string host);
                MsgConfiguration master_path anims_dir output_path;
                MsgClearingScene;
                MsgOpeningMaster master_path;
                MsgMasterLoaded;
                MsgTargetRig (obj_name master);
                MsgNoFbxFiles;
                MsgExportingBaseOnly]
            ++ export_header host output_path d
            ++ [MsgSuccess output_path; MsgPipelineComplete 0])
     (trace w ++ [Called (ReadHomefile true);
                  Called (OpenMainfile master_path);
                  Called (Makedirs (os_path_dirname host output_path) true);
                  Called (ExportGltf (export_settings output_path))])).
Proof.
  intros P Pa Ex Bl Fa Em Mk Xp Ox.
  rewrite main_run, P, Pa. cbv zeta. rewrite Ex, Bl, Fa.
  norm_world.
  erewrite bind_ret by (apply merge_phase_empty; exact Em).
  norm_world. rewrite export_phase_run. cbv zeta. norm_world.
  rewrite Mk. norm_world. rewrite Xp. norm_world. rewrite Ox. norm_world.
  repeat rewrite <- app_assoc. reflexivity.
Qed.

Lemma empty_batch_exports_base_model_witness :
  fst (main demo_host (demo_argv "/work/none") demo_world) = Ret tt.
Proof.
  exact (f_equal fst
           (empty_batch_exports_base_model demo_host (demo_argv "/work/none")
              demo_world
              (mkArgs (Str "/work/master.blend") (Str "/work/none")
                      (Str "/out/cortex.glb"))
              "/work/master.blend" "/work/none" "/out/cortex.glb"
              demo_master (mkObject 2 "Rig" "ARMATURE" None true None)
              demo_fs
              (mkFs (fun p => String.eqb p "/out/cortex.glb" || fs_exists demo_fs p)
                    (fs_listdir demo_fs) (fs_glob demo_fs))
              eq_refl eq_refl eq_refl eq_refl eq_refl eq_refl eq_refl eq_refl
              eq_refl)).
Defined.

(* ================================================================== *)
(** * Further properties of the selection of the files (lines 135-152) *)
(* ================================================================== *)

Lemma ascii_compare_trans (a b c : ascii) :
  Ascii.compare a b = Lt -> Ascii.compare b c = Lt -> Ascii.compare a c = Lt.
Proof. unfold Ascii.compare. rewrite !N.compare_lt_iff. lia. Qed.

Lemma str_lt_trans (a b c : string) : str_lt a b -> str_lt b c -> str_lt a c.
Proof.
  unfold str_lt. revert b c.
  induction a as [|x a IH]; intros [|y b] [|z c]; simpl; try discriminate; auto.
  destruct (Ascii.compare x y) eqn:E1; try discriminate.
  - apply Ascii.compare_eq_iff in E1. subst y.
    destruct (Ascii.compare x z); try discriminate; auto. apply IH.
  - intros _. destruct (Ascii.compare y z) eqn:E2; try discriminate.
    + apply Ascii.compare_eq_iff in E2. subst z. rewrite E1. auto.
    + intros _. rewrite (ascii_compare_trans _ _ _ E1 E2). reflexivity.
Qed.

Lemma str_lt_irrefl (a : string) : ~ str_lt a a.
Proof.
  unfold str_lt. intros H. pose proof (String.compare_antisym a a) as A.
  rewrite H in A. discriminate A.
Qed.

Lemma insert_sorted_sorted (x : string) (l : list string) :
  StronglySorted str_lt l -> StronglySorted str_lt (insert_sorted x l).
Proof.
  induction l as [|y l IH]; intros S; simpl.
  - repeat constructor.
  - inversion S as [|? ? S' F]; subst.
    destruct (String.compare x y) eqn:E.
    + exact S.
    + constructor; [exact S|]. constructor; [exact E|].
      eapply Forall_impl; [|exact F]. intros z Hz.
      eapply str_lt_trans; eauto.
    + constructor; [apply IH; exact S'|].
      apply Forall_forall. intros z Hz.
      apply in_insert_sorted in Hz as [-> | Hz].
      * unfold str_lt. rewrite String.compare_antisym, E. reflexivity.
      * rewrite Forall_forall in F. auto.
Qed.

Lemma sorted_set_sorted (l : list string) : StronglySorted str_lt (sorted_set l).
Proof.
  induction l as [|x l IH]; [constructor|].
  unfold sorted_set in *. simpl. apply insert_sorted_sorted. exact IH.
Qed.

Lemma sorted_nodup (l : list string) : StronglySorted str_lt l -> NoDup l.
Proof.
  induction 1 as [|x l S IH F]; constructor; [|exact IH].
  intros Hx. rewrite Forall_forall in F. exact (str_lt_irrefl x (F x Hx)).
Qed.






(* ------------------------------------------------------------------ *)
(** ** Base names and extensions *)
















(* ================================================================== *)
(** * Further properties: the batch of animation files *)
(* ================================================================== *)

(** X1: the batch is in strictly increasing code-point order of the paths,
    so no path occurs twice in it, whatever the two patterns matched. *)
Theorem fbx_files_sorted (fl : os_flavour) (f : Fs) (anims_dir : string) :
  StronglySorted (fun a b => String.compare a b = Lt)
                 (find_fbx_files fl f anims_dir)
  /\ NoDup (find_fbx_files fl f anims_dir).
Proof.
  assert (S : StronglySorted str_lt (find_fbx_files fl f anims_dir))
    by apply sorted_set_sorted.
  split; [exact S | exact (sorted_nodup _ S)].
Qed.









(* ================================================================== *)
(** * Further properties of the command line (lines 74-84) *)
(* ================================================================== *)

Lemma script_args_after_separator (pre post : list string) :
  ~ In "--" pre -> script_args (pre ++ "--" :: post) = post.
Proof.
  intros N. unfold script_args.
  rewrite existsb_app. cbn [existsb]. rewrite (String.eqb_refl "--").
  rewrite orb_true_r.
  induction pre as [|a pre IH]; cbn [app after_first].
  - rewrite String.eqb_refl. reflexivity.
  - destruct (String.eqb_spec a "--") as [->|_].
    + exfalso. apply N. left. reflexivity.
    + apply IH. intros H. apply N. right. exact H.
Qed.

Lemma positional_not_separator (v : string) :
  parse_optional v = Positional -> String.eqb v "--" = false.
Proof.
  destruct (String.eqb_spec v "--") as [->|]; [discriminate | reflexivity].
Qed.

Lemma unrecognized_not_separator (v : string) :
  parse_optional v = Unrecognized -> String.eqb v "--" = false.
Proof.
  destruct (String.eqb_spec v "--") as [->|]; [discriminate | reflexivity].
Qed.

Lemma flag_not_separator (d : dest) : String.eqb (flag d) "--" = false.
Proof. destruct d; reflexivity. Qed.

Lemma parse_optional_flag (d : dest) :
  parse_optional (flag d) = Optional (Store d) (flag d) None.
Proof. destruct d; reflexivity. Qed.

(** With a left-over argument behind, the parser does not succeed. *)
Lemma consume_extras (toks : list (string * arg_kind)) (ns : Namespace)
  (p : option dest) (a : Args) :
  consume toks ns p true <> Parsed a.
Proof.
  revert ns p. induction toks as [|[s k] rest IH]; intros ns p; cbn [consume].
  - destruct p; [discriminate|].
    destruct (ns_master ns), (ns_anims ns), (ns_output ns); discriminate.
  - destruct p as [d|].
    + destruct k; try discriminate. apply IH.
    + destruct k as [| |[|d] os [e|]| |]; try discriminate; try apply IH.
      destruct (_ && _); discriminate.
Qed.

Lemma consume_all_positional (l : list string) (ns : Namespace) :
  consume (map (fun s => (s, Positional)) l) ns None true = ParserExit 2.
Proof.
  induction l as [|s l IH]; cbn [map consume].
  - destruct (ns_master ns), (ns_anims ns), (ns_output ns); reflexivity.
  - exact IH.
Qed.

(** A successful parse, followed by more tokens: the parser goes on from
    the values found so far. *)
Lemma consume_app (toks tail : list (string * arg_kind)) (ns : Namespace)
  (p : option dest) (e : bool) (a : Args) :
  consume toks ns p e = Parsed a ->
  consume (toks ++ tail) ns p e = consume tail (namespace_of a) None false.
Proof.
  revert ns p e. induction toks as [|[s k] rest IH]; intros ns p e;
    cbn [consume app].
  - destruct p; [discriminate|].
    destruct ns as [[m|] [n|] [o|]]; cbn [ns_master ns_anims ns_output];
      try discriminate.
    destruct e; [discriminate|]. intros H. inversion H. reflexivity.
  - destruct p as [d|].
    + destruct k; try discriminate. apply IH.
    + destruct k as [| |[|d] os [x|]| |]; try discriminate; try apply IH.
      destruct (_ && _); discriminate.
Qed.

Lemma classify_app (argv tail : list string) (ns : Namespace)
  (p : option dest) (e : bool) (a : Args) :
  consume (classify argv) ns p e = Parsed a ->
  classify (argv ++ tail) = classify argv ++ classify tail.
Proof.
  revert ns p e. induction argv as [|x argv IH]; intros ns p e;
    cbn [classify app]; [reflexivity|].
  destruct (String.eqb x "--").
  - cbn [consume]. destruct p; [discriminate|].
    intros H. exfalso. revert H. generalize (map (fun s => (s, Positional)) argv).
    intros l H. exact (consume_extras l ns None a H).
  - cbn [consume]. intros H. cbn [app]. f_equal.
    destruct p as [d|].
    + destruct (parse_optional x); try discriminate. exact (IH _ _ _ H).
    + destruct (parse_optional x) as [| |[|d] os [y|]| |]; try discriminate;
        try exact (IH _ _ _ H).
      destruct (_ && _); discriminate.
Qed.

Lemma parse_args_parsed (argv : list string) (a : Args) :
  parse_args argv = Parsed a ->
  existsb is_ambiguous (classify argv) = false
  /\ consume (classify argv) (mkNamespace None None None) None false = Parsed a.
Proof.
  unfold parse_args. destruct (existsb is_ambiguous (classify argv));
    [discriminate | auto].
Qed.

Lemma parse_args_app (argv tail : list string) (a : Args) :
  parse_args argv = Parsed a ->
  existsb is_ambiguous (classify tail) = false ->
  parse_args (argv ++ tail) = consume (classify tail) (namespace_of a) None false.
Proof.
  intros H T. apply parse_args_parsed in H as [Am C].
  unfold parse_args. rewrite (classify_app _ tail _ _ _ _ C).
  rewrite existsb_app, Am, T. cbn [orb].
  apply consume_app. exact C.
Qed.

Lemma prefix_in_prefixes (o s : string) :
  String.prefix o s = true -> o <> "" -> In o (prefixes s).
Proof.
  revert o. induction s as [|c s IH]; intros [|a o]; simpl; try congruence.
  destruct (Ascii.ascii_dec a c) as [->|]; [|discriminate].
  intros H _. destruct o as [|b o]; [left; reflexivity|].
  right. apply in_map. apply IH; [exact H | discriminate].
Qed.

(** An abbreviation of an option is read as the option. *)
Lemma parse_optional_abbreviation (d : dest) (o : string) :
  String.prefix o (flag d) = true -> 2 < String.length o ->
  parse_optional o = Optional (Store d) (flag d) None.
Proof.
  intros P L. apply prefix_in_prefixes in P; [|intros ->; cbn in L; lia].
  destruct d; cbn in P;
    repeat (destruct P as [<- | P]; [first [reflexivity | cbn in L; lia]|]);
    contradiction.
Qed.

Lemma abbreviation_not_separator (o : string) :
  2 < String.length o -> String.eqb o "--" = false.
Proof.
  intros L. destruct (String.eqb_spec o "--") as [->|]; [cbn in L; lia | reflexivity].
Qed.

Lemma consume_abbreviation (d : dest) (o : string) (pre post : list string)
  (ns : Namespace) (p : option dest) (e : bool) :
  String.prefix o (flag d) = true -> 2 < String.length o ->
  consume (classify (pre ++ o :: post)) ns p e
  = consume (classify (pre ++ flag d :: post)) ns p e.
Proof.
  intros P L. revert ns p e.
  induction pre as [|x pre IH]; intros ns p e; cbn [app classify].
  - rewrite (abbreviation_not_separator o L), (flag_not_separator d).
    rewrite (parse_optional_abbreviation d o P L), (parse_optional_flag d).
    cbn [consume]. destruct p; reflexivity.
  - destruct (String.eqb x "--").
    + cbn [consume]. destruct p; [reflexivity|].
      rewrite !consume_all_positional. reflexivity.
    + cbn [consume]. destruct p as [d'|].
      * destruct (parse_optional x); try reflexivity. apply IH.
      * destruct (parse_optional x) as [| |[|d'] os [y|]| |]; try reflexivity;
          apply IH.
Qed.

Lemma ambiguous_all_positional (l : list string) :
  existsb is_ambiguous (map (fun s => (s, Positional)) l) = false.
Proof. induction l as [|s l IH]; [reflexivity | exact IH]. Qed.

Lemma ambiguous_abbreviation (d : dest) (o : string) (pre post : list string) :
  String.prefix o (flag d) = true -> 2 < String.length o ->
  existsb is_ambiguous (classify (pre ++ o :: post))
  = existsb is_ambiguous (classify (pre ++ flag d :: post)).
Proof.
  intros P L. induction pre as [|x pre IH]; cbn [app classify].
  - rewrite (abbreviation_not_separator o L), (flag_not_separator d).
    rewrite (parse_optional_abbreviation d o P L), (parse_optional_flag d).
    reflexivity.
  - destruct (String.eqb x "--"); cbn [existsb].
    + rewrite !ambiguous_all_positional. reflexivity.
    + rewrite IH. reflexivity.
Qed.

Lemma split_eq_flag (d : dest) (v : string) :
  split_eq (flag d ++ String "=" v)%string = Some (flag d, v).
Proof. destruct d; reflexivity. Qed.

Lemma parse_optional_equals (d : dest) (v : string) :
  parse_optional (flag d ++ String "=" v)%string = Optional (Store d) (flag d) (Some v).
Proof. destruct d; reflexivity. Qed.

Lemma equals_not_separator (d : dest) (v : string) :
  String.eqb (flag d ++ String "=" v)%string "--" = false.
Proof. destruct d; reflexivity. Qed.

Lemma explicit_value_str (v : string) :
  String.eqb v "--" = false -> explicit_value v = Str v.
Proof. unfold explicit_value. intros ->. reflexivity. Qed.

Lemma consume_equals (d : dest) (v : string) (pre post : list string)
  (ns : Namespace) (p : option dest) (e : bool) :
  parse_optional v = Positional ->
  consume (classify (pre ++ (flag d ++ String "=" v)%string :: post)) ns p e
  = consume (classify (pre ++ flag d :: v :: post)) ns p e.
Proof.
  intros V. revert ns p e.
  induction pre as [|x pre IH]; intros ns p e; cbn [app classify].
  - rewrite (equals_not_separator d v), (flag_not_separator d).
    rewrite (parse_optional_equals d v), (parse_optional_flag d).
    rewrite (positional_not_separator v V), V.
    cbn [consume]. destruct p; [reflexivity|].
    rewrite (explicit_value_str v (positional_not_separator v V)). reflexivity.
  - destruct (String.eqb x "--").
    + cbn [consume]. destruct p; [reflexivity|].
      rewrite !consume_all_positional. reflexivity.
    + cbn [consume]. destruct p as [d'|].
      * destruct (parse_optional x); try reflexivity. apply IH.
      * destruct (parse_optional x) as [| |[|d'] os [y|]| |]; try reflexivity;
          apply IH.
Qed.

Lemma ambiguous_equals (d : dest) (v : string) (pre post : list string) :
  parse_optional v = Positional ->
  existsb is_ambiguous (classify (pre ++ (flag d ++ String "=" v)%string :: post))
  = existsb is_ambiguous (classify (pre ++ flag d :: v :: post)).
Proof.
  intros V. induction pre as [|x pre IH]; cbn [app classify].
  - rewrite (equals_not_separator d v), (flag_not_separator d).
    rewrite (parse_optional_equals d v), (parse_optional_flag d).
    rewrite (positional_not_separator v V), V. reflexivity.
  - destruct (String.eqb x "--"); cbn [existsb].
    + rewrite !ambiguous_all_positional. reflexivity.
    + rewrite IH. reflexivity.
Qed.

(** X6: what precedes the first [--] of [sys.argv] -- the host's own
    arguments -- plays no part: the script parses what follows it, and runs
    as if only that were given. *)
Theorem arguments_before_separator_ignored (host : Host)
  (pre post : list string) (w : World) :
  ~ In "--" pre ->
  script_args (pre ++ "--" :: post) = post
  /\ main host (pre ++ "--" :: post) w = main host ("--" :: post) w.
Proof.
  intros N. split; [exact (script_args_after_separator pre post N)|].
  unfold main. rewrite (script_args_after_separator pre post N).
  change ("--" :: post) with ([] ++ "--" :: post).
  rewrite (script_args_after_separator [] post); [reflexivity | intros []].
Qed.

Lemma arguments_before_separator_ignored_witness :
  script_args (["blender"; "--background"; "--python"; "merge_animations.py"]
               ++ "--" :: ["--master"; "/work/master.blend"])
  = ["--master"; "/work/master.blend"]
  /\ main demo_host
       (["blender"; "--background"; "--python"; "merge_animations.py"]
        ++ "--" :: ["--master"; "/work/master.blend"]) demo_world
     = main demo_host ("--" :: ["--master"; "/work/master.blend"]) demo_world.
Proof.
  apply arguments_before_separator_ignored.
  cbn. intuition discriminate.
Defined.

(** X7: the three options may come in any order.  Each followed by a value
    that the parser reads as a plain argument, they parse, and each option
    has the value that followed it. *)
Theorem options_in_any_order (d1 d2 d3 : dest) (v1 v2 v3 : string) :
  d1 <> d2 -> d1 <> d3 -> d2 <> d3 ->
  parse_optional v1 = Positional ->
  parse_optional v2 = Positional ->
  parse_optional v3 = Positional ->
  exists args,
    parse_args [flag d1; v1; flag d2; v2; flag d3; v3] = Parsed args
    /\ arg_of d1 args = Str v1 /\ arg_of d2 args = Str v2
    /\ arg_of d3 args = Str v3.
Proof.
  intros N12 N13 N23 V1 V2 V3.
  unfold parse_args. cbn [classify].
  rewrite !flag_not_separator, !parse_optional_flag.
  rewrite (positional_not_separator v1 V1), (positional_not_separator v2 V2),
    (positional_not_separator v3 V3), V1, V2, V3.
  cbn [existsb is_ambiguous snd orb consume].
  destruct d1, d2, d3; try congruence;
    (eexists; split; [reflexivity|]; repeat split).
Qed.

Lemma options_in_any_order_witness :
  exists args,
    parse_args [flag Output; "out/cortex.glb"; flag Master; "master.blend";
                flag Anims; "-1"]
    = Parsed args
    /\ arg_of Output args = Str "out/cortex.glb"
    /\ arg_of Master args = Str "master.blend"
    /\ arg_of Anims args = Str "-1".
Proof.
  apply options_in_any_order; (discriminate || reflexivity).
Defined.

(** X8: an option given again at the end of a command line that parses
    replaces the earlier value and leaves the other two as they were. *)
Theorem last_value_wins (argv : list string) (args : Args) (d : dest)
  (v : string) :
  parse_args argv = Parsed args ->
  parse_optional v = Positional ->
  parse_args (argv ++ [flag d; v]) = Parsed (with_arg d (Str v) args).
Proof.
  intros H V. rewrite (parse_args_app argv [flag d; v] args H).
  - cbn [classify]. rewrite flag_not_separator, parse_optional_flag.
    rewrite (positional_not_separator v V), V.
    destruct d; reflexivity.
  - cbn [classify]. rewrite flag_not_separator, parse_optional_flag.
    rewrite (positional_not_separator v V), V. reflexivity.
Qed.

Lemma last_value_wins_witness :
  parse_args (["--master"; "a.blend"; "--anims"; "anims"; "--output"; "o.glb"]
              ++ [flag Master; "b.blend"])
  = Parsed (with_arg Master (Str "b.blend")
              (mkArgs (Str "a.blend") (Str "anims") (Str "o.glb"))).
Proof.
  apply last_value_wins; reflexivity.
Defined.

(** X9: a command line that parses no longer does once an argument is added
    that is no option and no option's value -- a stray word or an unknown
    option: the parser exits with status 2, and [main] with it, before
    anything is done. *)
Theorem stray_argument_rejected (host : Host) (sys_argv : list string)
  (args : Args) (s : string) (w : World) :
  parse_args (script_args sys_argv) = Parsed args ->
  parse_optional s = Positional \/ parse_optional s = Unrecognized ->
  parse_args (script_args sys_argv ++ [s]) = ParserExit 2
  /\ main host (sys_argv ++ [s]) w = (SysExit 2, w).
Proof.
  intros H K.
  assert (Sep : In "--" sys_argv).
  { destruct (in_dec string_dec "--" sys_argv) as [Y | N]; [exact Y|].
    rewrite (script_args_without_separator _ N) in H. discriminate H. }
  assert (P : parse_args (script_args sys_argv ++ [s]) = ParserExit 2).
  { rewrite (parse_args_app _ [s] args H).
    - cbn [classify].
      destruct K as [K | K];
        [rewrite (positional_not_separator s K)
        | rewrite (unrecognized_not_separator s K)];
        rewrite K; reflexivity.
    - cbn [classify].
      destruct K as [K | K];
        [rewrite (positional_not_separator s K)
        | rewrite (unrecognized_not_separator s K)];
        rewrite K; reflexivity. }
  split; [exact P|].
  assert (E : script_args (sys_argv ++ [s]) = script_args sys_argv ++ [s]).
  { apply in_split in Sep as [l1 [l2 ->]].
    assert (X : exists pre post, l1 ++ "--" :: l2 = pre ++ "--" :: post
                                 /\ ~ In "--" pre).
    { clear. induction l1 as [|a l1 [pre [post [E N]]]].
      - exists [], l2. split; [reflexivity | intros []].
      - destruct (string_dec a "--") as [->|Na].
        + exists [], (l1 ++ "--" :: l2). split; [reflexivity | intros []].
        + exists (a :: pre), post. cbn [app]. rewrite E.
          split; [reflexivity|]. intros [X | X]; [congruence | contradiction]. }
    destruct X as [pre [post [-> N]]].
    rewrite <- app_assoc. cbn [app].
    rewrite !script_args_after_separator by exact N. reflexivity. }
  rewrite main_run, E, P. reflexivity.
Qed.

Lemma stray_argument_rejected_witness :
  parse_args (script_args (demo_argv "/work/anims") ++ ["--fast"]) = ParserExit 2
  /\ main demo_host (demo_argv "/work/anims" ++ ["--fast"]) demo_world
     = (SysExit 2, demo_world).
Proof.
  apply (stray_argument_rejected demo_host (demo_argv "/work/anims")
           (mkArgs (Str "/work/master.blend") (Str "/work/anims")
                   (Str "/out/cortex.glb")) "--fast" demo_world).
  - reflexivity.
  - right. reflexivity.
Defined.

(** X10: an option may be abbreviated to any of its prefixes longer than the
    bare [--]: the command line parses as with the full option name. *)
Theorem abbreviated_option (d : dest) (o : string) (pre post : list string) :
  String.prefix o (flag d) = true -> 2 < String.length o ->
  parse_args (pre ++ o :: post) = parse_args (pre ++ flag d :: post).
Proof.
  intros P L. unfold parse_args.
  rewrite (ambiguous_abbreviation d o pre post P L).
  rewrite (consume_abbreviation d o pre post _ _ _ P L). reflexivity.
Qed.

Lemma abbreviated_option_witness :
  parse_args (["--master"; "m.blend"] ++ "--an" :: ["anims"; "--output"; "o.glb"])
  = parse_args (["--master"; "m.blend"] ++ flag Anims :: ["anims"; "--output"; "o.glb"]).
Proof.
  apply abbreviated_option; [reflexivity | cbn; lia].
Defined.

(** X11: an option and its value may be written as one argument,
    [--option=value]: the command line parses as with the two apart. *)
Theorem value_after_equals (d : dest) (v : string) (pre post : list string) :
  parse_optional v = Positional ->
  parse_args (pre ++ (flag d ++ String "=" v)%string :: post)
  = parse_args (pre ++ flag d :: v :: post).
Proof.
  intros V. unfold parse_args.
  rewrite (ambiguous_equals d v pre post V).
  rewrite (consume_equals d v pre post _ _ _ V). reflexivity.
Qed.

Lemma value_after_equals_witness :
  parse_args (["--master"; "m.blend"] ++ (flag Anims ++ String "=" "anims")%string
                :: ["--output"; "o.glb"])
  = parse_args (["--master"; "m.blend"] ++ flag Anims :: "anims"
                  :: ["--output"; "o.glb"]).
Proof.
  apply value_after_equals. reflexivity.
Defined.

(** X12: a value that begins with a dash and is no number is not accepted
    as the argument that follows its option -- the parser exits with status
    2 -- but is accepted behind [=]. *)
Theorem dash_value_needs_equals (argv : list string) (args : Args) (d : dest)
  (v : string) :
  parse_args argv = Parsed args ->
  parse_optional v = Unrecognized ->
  parse_args (argv ++ [flag d; v]) = ParserExit 2
  /\ parse_args (argv ++ [(flag d ++ String "=" v)%string])
     = Parsed (with_arg d (Str v) args).
Proof.
  intros H V. split.
  - rewrite (parse_args_app argv [flag d; v] args H).
    + cbn [classify]. rewrite flag_not_separator, parse_optional_flag.
      rewrite (unrecognized_not_separator v V), V. reflexivity.
    + cbn [classify]. rewrite flag_not_separator, parse_optional_flag.
      rewrite (unrecognized_not_separator v V), V. reflexivity.
  - rewrite (parse_args_app argv [(flag d ++ String "=" v)%string] args H).
    + cbn [classify]. rewrite equals_not_separator, parse_optional_equals.
      cbn [consume].
      rewrite (explicit_value_str v (unrecognized_not_separator v V)).
      destruct d; reflexivity.
    + cbn [classify]. rewrite equals_not_separator, parse_optional_equals.
      reflexivity.
Qed.

(** What the parser reads as a negative number is a value like any other:
    also before a newline that ends it, and in the decimal digits of any
    script (here the Arabic-Indic digit three, in UTF-8). *)
Example negative_number_values :
  parse_optional "-1" = Positional
  /\ parse_optional ("-1" ++ String "010" "") = Positional
  /\ parse_optional ("-" ++ String "217" (String "163" "")) = Positional
  /\ parse_optional "-.5" = Positional
  /\ parse_optional "-1." = Unrecognized
  /\ parse_optional "-1x" = Unrecognized.
Proof. repeat split; reflexivity. Qed.

Lemma dash_value_needs_equals_witness :
  parse_args (["--master"; "m.blend"; "--anims"; "anims"; "--output"; "o.glb"]
              ++ [flag Anims; "-clips"])
  = ParserExit 2
  /\ parse_args (["--master"; "m.blend"; "--anims"; "anims"; "--output"; "o.glb"]
                 ++ [(flag Anims ++ String "=" "-clips")%string])
     = Parsed (with_arg Anims (Str "-clips")
                 (mkArgs (Str "m.blend") (Str "anims") (Str "o.glb"))).
Proof.
  apply dash_value_needs_equals; reflexivity.
Defined.

(* ================================================================== *)
(** * Further properties of the patch (lines 34-62) *)
(* ================================================================== *)

Lemma filter_fresh_light (l : list nat) (n : nat) :
  (forall x, In x l -> x < n) ->
  filter (fun x => negb (x =? n)) (l ++ [n]) = l.
Proof.
  intros H. rewrite filter_app. cbn. rewrite Nat.eqb_refl. cbn.
  rewrite app_nil_r. induction l as [|x l IH]; [reflexivity|].
  cbn. assert (X : x < n) by (apply H; left; reflexivity).
  destruct (Nat.eqb_spec x n); [lia|]. cbn. f_equal.
  apply IH. intros y Hy. apply H. right. exact Hy.
Qed.

Lemma probe_light_fresh (d : BpyData) (x : nat) :
  In x (lights d) -> x < probe_light d.
Proof. intros H. unfold probe_light. apply list_max_ge in H. lia. Qed.

Lemma getattr_filter_other (cls : PyClass) (name other : string) :
  String.eqb name other = false ->
  getattr (filter (fun kv => negb (String.eqb (fst kv) name)) cls) other
  = getattr cls other.
Proof.
  intros N. induction cls as [|[k a] cls IH]; [reflexivity|].
  cbn [filter fst getattr]. destruct (String.eqb_spec k name) as [->|Hk]; cbn [negb].
  - rewrite N. exact IH.
  - cbn [getattr]. rewrite IH. reflexivity.
Qed.

Lemma getattr_setattr_other (cls : PyClass) (name other : string) (a : ClassAttr) :
  String.eqb name other = false ->
  getattr (setattr cls name a) other = getattr cls other.
Proof.
  intros N. unfold setattr. cbn [getattr]. rewrite N.
  apply getattr_filter_other. exact N.
Qed.

Section PatchData.
Variable host : Host.

(** The patch, step by step: what it leaves in [bpy.data], and whether it
    ends with the warning. *)
Lemma apply_nuclear_patch_data (w : World) :
  exists w',
    apply_nuclear_patch host w = (Ret tt, w')
    /\ objects (bpy w') = objects (bpy w)
    /\ actions (bpy w') = actions (bpy w)
    /\ lights (bpy w') =
       match lights_new_error host (bpy w), patch_failure host w with
       | Some _, _ => lights (bpy w)
       | None, Some _ => lights (bpy w) ++ [probe_light (bpy w)]
       | None, None => lights (bpy w)
       end
    /\ (exists msgs,
          out w' = out w ++ MsgApplyingPatch :: msgs
          /\ match patch_failure host w with
             | Some e => exists before, msgs = before ++ [MsgPatchWarning e]
             | None => existsb is_patch_warning msgs = false
             end).
Proof.
  unfold apply_nuclear_patch, patch_failure, lights_new, light_cycles,
    class_setattr, lights_remove.
  run.
  destruct (lights_new_error host (bpy w)) as [e|] eqn:LN; run.
  { eexists. split; [reflexivity|]. cbn [fs bpy cycles_class out trace].
    repeat (split; [reflexivity|]).
    eexists. rewrite <- app_assoc. split; [reflexivity|].
    exists []. reflexivity. }
  destruct (cycles_error host) as [e|] eqn:CE; run.
  { eexists. split; [reflexivity|].
    cbn [fs bpy cycles_class out trace objects actions lights].
    repeat (split; [reflexivity|]).
    eexists. rewrite <- app_assoc. split; [reflexivity|].
    exists []. reflexivity. }
  fold (probe_light (bpy w)). fold (with_probe (bpy w)).
  destruct (hasattr (cycles_class w) "cast_shadow") eqn:HA; cbn [negb]; run.
  - destruct (lights_remove_error host (with_probe (bpy w))) as [e|] eqn:LR; run;
      (eexists; split; [reflexivity|];
       cbn [fs bpy cycles_class out trace objects actions lights with_probe];
       split; [reflexivity|]; split; [reflexivity|]).
    + split; [reflexivity|].
      eexists. rewrite <- !app_assoc. split; [reflexivity|].
      exists [MsgPatchNotNeeded]. reflexivity.
    + split; [apply filter_fresh_light; apply probe_light_fresh|].
      eexists. rewrite <- !app_assoc. split; reflexivity.
  - destruct (setattr_error host) as [e|] eqn:SE; run.
    { eexists. split; [reflexivity|].
      cbn [fs bpy cycles_class out trace objects actions lights].
      repeat (split; [reflexivity|]).
      eexists. rewrite <- !app_assoc. split; [reflexivity|].
      exists [MsgInjectingMock]. reflexivity. }
    destruct (lights_remove_error host (with_probe (bpy w))) as [e|] eqn:LR; run;
      (eexists; split; [reflexivity|];
       cbn [fs bpy cycles_class out trace objects actions lights with_probe];
       split; [reflexivity|]; split; [reflexivity|]).
    + split; [reflexivity|].
      eexists. rewrite <- !app_assoc. split; [reflexivity|].
      exists [MsgInjectingMock; MsgPatchApplied]. reflexivity.
    + split; [apply filter_fresh_light; apply probe_light_fresh|].
      eexists. rewrite <- !app_assoc. split; reflexivity.
Qed.

End PatchData.

(** X13: the patch leaves the objects and the actions of [bpy.data] alone,
    and removes its probe light only when every step succeeds: when a step
    after the creation of the light raises, the light stays in
    [bpy.data.lights]; and the warning is printed exactly when a step
    raises. *)
Theorem patch_probe_light (host : Host) (w : World) :
  let w' := snd (apply_nuclear_patch host w) in
  objects (bpy w') = objects (bpy w)
  /\ actions (bpy w') = actions (bpy w)
  /\ lights (bpy w') =
     match lights_new_error host (bpy w), patch_failure host w with
     | Some _, _ => lights (bpy w)
     | None, Some _ => lights (bpy w) ++ [probe_light (bpy w)]
     | None, None => lights (bpy w)
     end
  /\ exists msgs,
       out w' = out w ++ MsgApplyingPatch :: msgs
       /\ existsb is_patch_warning msgs
          = match patch_failure host w with Some _ => true | None => false end.
Proof.
  cbv zeta.
  destruct (apply_nuclear_patch_data host w)
    as [w' [R [O [A [L [msgs [Out W]]]]]]].
  rewrite R. cbn [snd].
  split; [exact O|]. split; [exact A|]. split; [exact L|].
  exists msgs. split; [exact Out|].
  destruct (patch_failure host w) as [e|]; [|exact W].
  destruct W as [before ->]. rewrite existsb_app. cbn. apply orb_true_r.
Qed.

(** X14: the patch touches no attribute of the class but [cast_shadow]:
    every other attribute is looked up, read and written after the patch as
    before. *)
Theorem patch_keeps_other_attributes (host : Host) (w : World)
  (name : string) :
  name <> "cast_shadow" ->
  let cls := cycles_class (snd (apply_nuclear_patch host w)) in
  getattr cls name = getattr (cycles_class w) name
  /\ (forall self, read_attribute cls self name
                   = read_attribute (cycles_class w) self name)
  /\ (forall self v, write_attribute cls self name v
                     = write_attribute (cycles_class w) self name v).
Proof.
  intros N. cbv zeta.
  destruct (apply_nuclear_patch_run host w) as [w' [R [C _]]].
  rewrite R. cbn [snd]. rewrite C.
  assert (G : getattr (patched_class host w) name = getattr (cycles_class w) name).
  { destruct (patched_class_cases host w) as [-> | [_ ->]]; [reflexivity|].
    apply getattr_setattr_other.
    destruct (String.eqb_spec "cast_shadow" name); [congruence | reflexivity]. }
  unfold read_attribute, write_attribute. rewrite G. auto.
Qed.

Lemma patch_keeps_other_attributes_witness :
  let cls := cycles_class
               (snd (apply_nuclear_patch demo_host
                       (mkWorld demo_fs empty_data
                          [("use_multiple_importance_sampling", NativeAttr)] [] []))) in
  getattr cls "use_multiple_importance_sampling" = Some NativeAttr
  /\ getattr cls "cast_shadow" = Some (PropertyAttr cast_shadow_mock).
Proof.
  split; [|reflexivity].
  exact (proj1 (patch_keeps_other_attributes demo_host
                  (mkWorld demo_fs empty_data
                     [("use_multiple_importance_sampling", NativeAttr)] [] [])
                  "use_multiple_importance_sampling"
                  ltac:(discriminate))).
Defined.

(* ------------------------------------------------------------------ *)
(** ** What [main] leaves behind *)

Lemma export_phase_appends (host : Host) (output_path : string) (c : nat)
  (w : World) :
  exists evs msgs,
    trace (snd (export_phase host output_path c w)) = trace w ++ evs
    /\ out (snd (export_phase host output_path c w)) = out w ++ msgs
    /\ cycles_class (snd (export_phase host output_path c w)) = cycles_class w
    /\ bpy (snd (export_phase host output_path c w)) = bpy w.
Proof.
  rewrite export_phase_run. cbv zeta.
  destruct (os_makedirs host (fs w) _) as [e|f1];
    [|destruct (gltf_export host _ (bpy w) f1) as [e|f2];
      [|destruct (fs_exists f2 output_path)]];
    unfold printed, traced, with_fs; cbn [snd fs bpy cycles_class out trace];
    eexists _, _; rewrite <- ?app_assoc; repeat split; reflexivity.
Qed.

(** [main] only adds to what was printed and to the calls made, and leaves
    the class of the light settings alone. *)
Lemma main_appends (host : Host) (sys_argv : list string) (w : World) :
  exists evs msgs,
    trace (snd (main host sys_argv w)) = trace w ++ evs
    /\ out (snd (main host sys_argv w)) = out w ++ msgs
    /\ cycles_class (snd (main host sys_argv w)) = cycles_class w.
Proof.
  rewrite main_run.
  destruct (parse_args (script_args sys_argv)) as [args|code].
  2:{ exists [], []. cbn [snd]. rewrite !app_nil_r. auto. }
  destruct (paths_of host args) as [[[master_path anims_dir] output_path]|].
  2:{ exists [], []. cbn [snd]. rewrite !app_nil_r. auto. }
  cbv zeta.
  destruct (fs_exists (fs w) master_path).
  2:{ unfold printed. cbn [snd fs bpy cycles_class out trace].
      eexists _, _. rewrite <- ?app_assoc. repeat split; reflexivity. }
  destruct (blend_file host (fs w) master_path) as [e|d].
  { unfold printed, traced. cbn [snd fs bpy cycles_class out trace].
    eexists _, _. rewrite <- ?app_assoc. repeat split; reflexivity. }
  destruct (find is_armature (data_objects host d)) as [mo|].
  2:{ unfold printed, traced, with_bpy. cbn [snd fs bpy cycles_class out trace].
      eexists _, _. rewrite <- ?app_assoc. repeat split; reflexivity. }
  match goal with
  | |- context [bind (merge_phase host ?m ?a) (export_phase host ?o) ?w0] =>
      destruct (merge_then_export host m a o w0)
        as [c [w4 [evs [msgs [R [F4 [K4 [T4 [_ [O4 _]]]]]]]]]]
  end.
  rewrite R.
  destruct (export_phase_appends host output_path c w4)
    as [evs' [msgs' [T5 [O5 [K5 _]]]]].
  rewrite T5, O5, K5, T4, O4, K4.
  unfold printed, traced, with_bpy. cbn [fs bpy cycles_class out trace].
  eexists _, _. rewrite <- ?app_assoc. repeat split; reflexivity.
Qed.

(** X15: the patch runs when the script is loaded, before the command line
    is looked at.  The script is [main] run from the world the patch
    leaves; the class of the light settings is, at the end, as the patch
    left it; and when the parser exits, the patch has been applied all the
    same. *)
Theorem patch_runs_before_parsing (host : Host) (sys_argv : list string)
  (w : World) :
  let w1 := snd (apply_nuclear_patch host w) in
  script host sys_argv w = main host sys_argv w1
  /\ (forall code, parse_args (script_args sys_argv) = ParserExit code ->
        script host sys_argv w = (SysExit code, w1))
  /\ exists msgs, out (snd (script host sys_argv w))
                  = out w ++ MsgApplyingPatch :: msgs.
Proof.
  cbv zeta.
  destruct (apply_nuclear_patch_run host w) as [w1 [R [_ [_ [_ [msgs [O _]]]]]]].
  assert (S : script host sys_argv w = main host sys_argv w1).
  { unfold script. rewrite (bind_ret _ _ _ _ _ R). reflexivity. }
  rewrite R. cbn [snd]. split; [exact S|]. split.
  - intros code P. rewrite S, main_run, P. reflexivity.
  - rewrite S. destruct (main_appends host sys_argv w1) as [evs [ms [_ [Om _]]]].
    rewrite Om, O. exists (msgs ++ ms). rewrite <- app_assoc. reflexivity.
Qed.

(* ================================================================== *)
(** * Further properties of the batch loop (lines 151-204) *)
(* ================================================================== *)

Section Detail.
Variable host : Host.

(** One pass of the loop: the count, the two lines printed, and the
    actions, of which none is lost. *)
Lemma process_file_detail (m : nat) (p : string) (c : nat) (w : World) :
  exists w' o,
    process_file host m p c w = (Ret ((if merged o then 1 else 0) + c), w')
    /\ out w' = out w ++ report host p o
    /\ (forall a, In a (actions (bpy w)) -> In a (actions (bpy w'))).
Proof.
  destruct (fbx_file host (fs w) (normalize_path host p)) as [e|contents] eqn:E.
  - rewrite (process_file_import_error host m p c w e E).
    eexists _, (ImportFailed e). cbn [merged Nat.add].
    split; [reflexivity|]. cbn [bpy out]. split; [reflexivity|]. auto.
  - destruct (clip_action (find_imported_armature m (fbx_into host contents (bpy w))))
      as [[imp action]|] eqn:C.
    + pose proof (process_file_merged host m p c w contents imp action E C) as R.
      cbv zeta in R.
      set (name := anim_name_of host p) in *.
      set (d0 := fbx_into host contents (bpy w)) in *.
      set (d1 := attach_clip host m action name d0) in *.
      destruct (clip_action_stored _ _ _ _ _ _ C) as [fa [n [Hfa [Fresh Ffa]]]].
      eexists _,
        (MergedClip (int_of_float (fst (action_frame_range action d1)))
                    (int_of_float (snd (action_frame_range action d1))) action).
      rewrite R. cbn [merged Nat.add report]. fold name.
      split; [reflexivity|]. cbn [bpy out]. split; [reflexivity|].
      intros a Ha. rewrite cleanup_actions. unfold d1.
      rewrite attach_clip_actions. apply rename_keeps_others.
      * unfold d0, fbx_into. cbn [actions]. apply in_app_iff. left. exact Ha.
      * apply old_action_below in Ha. lia.
    + rewrite (process_file_no_clip host m p c w contents E C).
      eexists _, NoAnimation. cbn [merged Nat.add].
      split; [reflexivity|]. cbn [bpy out]. split; [reflexivity|].
      intros a Ha. unfold fbx_into. cbn [actions]. apply in_app_iff.
      left. exact Ha.
Qed.

(** The loop, in full. *)
Lemma merge_loop_detail (m : nat) (files : list string) (c : nat) (w : World) :
  exists w' outcomes,
    merge_loop host m files c w
    = (Ret (List.length (filter merged outcomes) + c), w')
    /\ List.length outcomes = List.length files
    /\ out w' = out w ++ batch_report host files outcomes
    /\ (forall a, In a (actions (bpy w)) -> In a (actions (bpy w'))).
Proof.
  revert c w. induction files as [|p rest IH]; intros c w.
  - exists w, []. cbn. unfold ret. rewrite !app_nil_r. auto.
  - destruct (process_file_detail m p c w) as [w1 [o [R1 [O1 A1]]]].
    destruct (IH ((if merged o then 1 else 0) + c) w1)
      as [w2 [os [R2 [L2 [O2 A2]]]]].
    exists w2, (o :: os).
    cbn [merge_loop]. rewrite (bind_ret _ _ _ _ _ R1), R2.
    split.
    { f_equal. f_equal. cbn [filter]. destruct (merged o); cbn [List.length]; lia. }
    split; [cbn [List.length]; congruence|].
    split; [|auto].
    rewrite O2, O1. unfold batch_report. cbn [combine flat_map fst snd].
    rewrite <- app_assoc. reflexivity.
Qed.

End Detail.

Lemma filter_length_le {A} (p : A -> bool) (l : list A) :
  List.length (filter p l) <= List.length l.
Proof.
  induction l as [|x l IH]; [reflexivity|].
  cbn. destruct (p x); cbn; lia.
Qed.

(** X16: the log of the batch.  Every file of the batch gets exactly two
    lines, in the order of the batch: the announcement of the import, then
    the error, the warning or the merge; and the count the loop returns is
    the number of files reported as merged, so at most the number of
    files. *)
Theorem batch_log (host : Host) (m : nat) (files : list string) (c : nat)
  (w : World) :
  exists c' w' outcomes,
    merge_loop host m files c w = (Ret c', w')
    /\ List.length outcomes = List.length files
    /\ out w' = out w ++ batch_report host files outcomes
    /\ c' = c + List.length (filter merged outcomes)
    /\ c' <= c + List.length files.
Proof.
  destruct (merge_loop_detail host m files c w)
    as [w' [os [R [L [O _]]]]].
  exists (List.length (filter merged os) + c), w', os.
  split; [exact R|]. split; [exact L|]. split; [exact O|].
  split; [lia|]. pose proof (filter_length_le merged os). lia.
Qed.

(** X17: the tracks of the master armature after the batch.  The loop
    adds one track for each file that brings a clip -- its import returns
    and the first armature in it has an action --, after the tracks the
    armature had and in the order of the batch, and its count grows by the
    number of these files.  The track is named after the file and holds one
    strip; the strip starts at the first frame of the clip, truncated, and
    refers to an action of [bpy.data.actions] that has the frame range of
    the clip; action and strip are stored under the names the host made of
    the name of the file. *)
Theorem merged_tracks (host : Host) (m : nat) (files : list string) (c : nat)
  (w : World) (master : Object) :
  find_object m (bpy w) = Some master ->
  exists c' w' master' new,
    merge_loop host m files c w = (Ret c', w')
    /\ find_object m (bpy w') = Some master'
    /\ tracks_of master' = tracks_of master ++ new
    /\ Forall2 (clip_track host (fs w) (bpy w'))
         (filter (brings_clip host (fs w)) files) new
    /\ c' = c + List.length new.
Proof.
  intros F.
  destruct (merge_loop_spec host m files c w master F)
    as [w' [mo' [new [R [_ [M [S [T _]]]]]]]].
  exists (c + List.length new), w', mo', new.
  split; [exact R|]. split; [exact M|].
  split; [exact (proj2 (proj2 (proj2 (proj2 (proj2 S)))))|].
  split; [exact T | reflexivity].
Qed.

Lemma merged_tracks_witness :
  exists c' w' master' new,
    merge_loop demo_host 2
      ["/work/anims/bad.FBX"; "/work/anims/still.fbx"; "/work/anims/walk.fbx"]
      0 demo_loaded = (Ret c', w')
    /\ find_object 2 (bpy w') = Some master'
    /\ tracks_of master'
       = tracks_of (mkObject 2 "Rig" "ARMATURE" None true None) ++ new
    /\ Forall2 (clip_track demo_host (fs demo_loaded) (bpy w'))
         (filter (brings_clip demo_host (fs demo_loaded))
                 ["/work/anims/bad.FBX"; "/work/anims/still.fbx";
                  "/work/anims/walk.fbx"])
         new
    /\ c' = 0 + List.length new.
Proof.
  exact (merged_tracks demo_host 2
           ["/work/anims/bad.FBX"; "/work/anims/still.fbx"; "/work/anims/walk.fbx"]
           0 demo_loaded (mkObject 2 "Rig" "ARMATURE" None true None) eq_refl).
Defined.

(** Two files with the same stem: the second action and its strip get the
    name the host makes unique, the tracks both carry the name of the
    file. *)
Example same_stem_twice :
  let w' := snd (merge_loop demo_host 2
                   ["/work/anims/walk.fbx"; "/work/anims/walk.fbx"] 0
                   demo_loaded) in
  map act_name (data_actions demo_host (bpy w')) = ["walk"; "walk.001"]
  /\ option_map tracks_of (find_object 2 (bpy w'))
     = Some [mkTrack "walk" [mkStrip "walk" 1 1];
             mkTrack "walk" [mkStrip "walk.001" 1 2]].
Proof. split; vm_compute; reflexivity. Qed.

(** X18: the loop neither removes nor renames an action that was in
    [bpy.data.actions] before it: every action that is there before the
    loop is there after it, with its reference, its name and its frame
    range. *)
Theorem existing_actions_kept (host : Host) (m : nat) (files : list string)
  (c : nat) (w : World) (a : Action) :
  In a (data_actions host (bpy w)) ->
  In a (data_actions host (bpy (snd (merge_loop host m files c w)))).
Proof.
  intros H.
  destruct (merge_loop_detail host m files c w) as [w' [os [R [_ [_ A]]]]].
  rewrite R. cbn [snd].
  apply (proj2 (in_data_actions host (bpy w') a)), A.
  apply (proj1 (in_data_actions host (bpy w) a)). exact H.
Qed.

Lemma existing_actions_kept_witness :
  In (mkAction 1 "idle" ((0 # 1)%Q, (10 # 1)%Q))
     (data_actions demo_host
        (bpy (snd (merge_loop demo_host 2 ["/work/anims/walk.fbx"] 0
                     demo_with_action)))).
Proof.
  apply (existing_actions_kept demo_host 2 ["/work/anims/walk.fbx"] 0
           demo_with_action (mkAction 1 "idle" ((0 # 1)%Q, (10 # 1)%Q))).
  vm_compute. left. reflexivity.
Defined.

(** X19: only the first selected armature other than the master is looked
    at.  When it carries no action the file is skipped with the warning,
    whatever else the import selected -- also another armature that has an
    action. *)
Theorem first_selected_armature_decides (host : Host) (m : nat) (p : string)
  (c : nat) (w : World) (contents : FbxContents) (pre post : list Object)
  (a : Object) :
  fbx_file host (fs w) (normalize_path host p) = inr contents ->
  filter obj_selected (objects (fbx_into host contents (bpy w))) = pre ++ a :: post ->
  (forall o, In o pre -> is_armature o = false \/ obj_id o = m) ->
  is_armature a = true -> obj_id a <> m ->
  action_of a = None ->
  process_file host m p c w =
  (Ret c,
   mkWorld (fs w) (fbx_into host contents (bpy w)) (cycles_class w)
     (out w ++ [MsgImporting (anim_name_of host p);
                MsgNoAnimationData (anim_name_of host p)])
     (trace w ++ [Called (import_call (normalize_path host p))])).
Proof.
  intros E Sel Pre Arm Ne Act. apply process_file_no_clip; [exact E|].
  unfold find_imported_armature. rewrite Sel.
  rewrite (find_first _ pre post a).
  - unfold clip_action. unfold action_of in Act.
    destruct (obj_animation_data a) as [ad|]; [|reflexivity].
    rewrite Act. reflexivity.
  - intros o Ho. destruct (Pre o Ho) as [H | H].
    + rewrite H. reflexivity.
    + rewrite H, Nat.eqb_refl. apply andb_false_r.
  - rewrite Arm. apply Nat.eqb_neq in Ne. rewrite Ne. reflexivity.
Qed.

Lemma first_selected_armature_decides_witness :
  process_file twin_host 2 "/work/anims/twin.fbx" 0 demo_loaded =
  (Ret 0,
   mkWorld (fs demo_loaded) (fbx_into twin_host twin_fbx (bpy demo_loaded))
     (cycles_class demo_loaded)
     (out demo_loaded
      ++ [MsgImporting (anim_name_of twin_host "/work/anims/twin.fbx");
          MsgNoAnimationData (anim_name_of twin_host "/work/anims/twin.fbx")])
     (trace demo_loaded
      ++ [Called (import_call (normalize_path twin_host "/work/anims/twin.fbx"))])).
Proof.
  apply (first_selected_armature_decides twin_host 2 "/work/anims/twin.fbx" 0
           demo_loaded twin_fbx []
           [mkObject 5 "Armature" "ARMATURE" None true
                     (Some (mkAnimData (Some 1) []))]
           (mkObject 4 "Root" "ARMATURE" None true None)).
  - reflexivity.
  - reflexivity.
  - intros o [].
  - reflexivity.
  - discriminate.
  - reflexivity.
Defined.

(* ================================================================== *)
(** * Further properties of [main]: how a run ends *)
(* ================================================================== *)

(** Once the master armature is found, [main] is the export step run from
    where the batch step ends; the batch step has left the file system as
    it was. *)
Lemma main_reaches_export (host : Host) (sys_argv : list string) (w : World)
  (args : Args) (master_path anims_dir output_path : string) (d : BpyData)
  (master : Object) :
  parse_args (script_args sys_argv) = Parsed args ->
  paths_of host args = Some (master_path, anims_dir, output_path) ->
  fs_exists (fs w) master_path = true ->
  blend_file host (fs w) master_path = inr d ->
  find is_armature (data_objects host d) = Some master ->
  exists c w4,
    main host sys_argv w = export_phase host output_path c w4
    /\ fs w4 = fs w
    /\ bpy (snd (main host sys_argv w)) = bpy w4.
Proof.
  intros P Pa Ex Bl Fa. rewrite main_run, P, Pa. cbv zeta. rewrite Ex, Bl, Fa.
  match goal with
  | |- context [bind (merge_phase host ?m ?a) (export_phase host ?o) ?w0] =>
      destruct (merge_then_export host m a o w0)
        as [c [w4 [evs [msgs [R [F4 _]]]]]]
  end.
  exists c, w4. rewrite R. split; [reflexivity|].
  split; [exact F4|].
  destruct (export_phase_appends host output_path c w4) as [_ [_ [_ [_ [_ B]]]]].
  exact B.
Qed.

(** X20: [main] lets an exception out in four cases only: a value of the
    command line that is no string, and an exception raised by the opening
    of the master file, by [os.makedirs] or by the export.  What an import
    raises never ends the run. *)
Theorem uncaught_exceptions (host : Host) (sys_argv : list string) (w : World)
  (e : exn) :
  let w' := snd (main host sys_argv w) in
  fst (main host sys_argv w) = Raised e <->
  exists args,
    parse_args (script_args sys_argv) = Parsed args
    /\ ((paths_of host args = None /\ e = type_error)
        \/ exists master_path anims_dir output_path,
             paths_of host args = Some (master_path, anims_dir, output_path)
             /\ fs_exists (fs w) master_path = true
             /\ (blend_file host (fs w) master_path = inl e
                 \/ exists d master,
                      blend_file host (fs w) master_path = inr d
                      /\ find is_armature (objects d) = Some master
                      /\ (os_makedirs host (fs w)
                            (os_path_dirname host output_path) = inl e
                          \/ exists f1,
                               os_makedirs host (fs w)
                                 (os_path_dirname host output_path) = inr f1
                               /\ gltf_export host (export_settings output_path)
                                    (bpy w') f1 = inl e))).
Proof.
  cbv zeta. split.
  - rewrite main_run at 1.
    destruct (parse_args (script_args sys_argv)) as [args|code] eqn:P;
      [|discriminate].
    destruct (paths_of host args) as [[[master_path anims_dir] output_path]|] eqn:Pa.
    2:{ cbn [fst]. intros H. inversion H. exists args. auto. }
    cbv zeta.
    destruct (fs_exists (fs w) master_path) eqn:Ex; [|discriminate].
    destruct (blend_file host (fs w) master_path) as [e0|d] eqn:Bl.
    { cbn [fst]. intros H. inversion H; subst e0. exists args.
      split; [reflexivity|]. right. exists master_path, anims_dir, output_path.
      auto. }
    destruct (find is_armature (data_objects host d)) as [master|] eqn:Fa;
      [|discriminate].
    destruct (proj1 (find_data_objects_some host is_armature d)
                (ex_intro _ master Fa)) as [first Ff].
    intros H. exists args. split; [reflexivity|]. right.
    exists master_path, anims_dir, output_path.
    split; [exact Pa|]. split; [exact Ex|]. right. exists d, first.
    split; [exact Bl|]. split; [exact Ff|].
    destruct (main_reaches_export host sys_argv w args master_path anims_dir
                output_path d master P Pa Ex Bl Fa) as [c [w4 [R [F4 B4]]]].
    rewrite B4.
    match type of H with
    | fst ?x = _ => replace x with (export_phase host output_path c w4) in H
    end.
    2:{ rewrite <- R, main_run, P, Pa. cbv zeta. rewrite Ex, Bl, Fa. reflexivity. }
    rewrite export_phase_run in H. cbv zeta in H. rewrite F4 in H.
    destruct (os_makedirs host (fs w) _) as [e1|f1].
    { cbn [fst] in H. inversion H. left. reflexivity. }
    right. exists f1. split; [reflexivity|].
    destruct (gltf_export host _ (bpy w4) f1) as [e2|f2].
    { cbn [fst] in H. inversion H. reflexivity. }
    destruct (fs_exists f2 output_path); discriminate H.
  - intros [args [P [[Pa ->] | [master_path [anims_dir [output_path [Pa [Ex H]]]]]]]].
    { rewrite main_run, P, Pa. reflexivity. }
    destruct H as [Bl | [d [first [Bl [Ff H]]]]].
    { rewrite main_run, P, Pa. cbv zeta. rewrite Ex, Bl. reflexivity. }
    destruct (proj2 (find_data_objects_some host is_armature d)
                (ex_intro _ first Ff)) as [master Fa].
    destruct (main_reaches_export host sys_argv w args master_path anims_dir
                output_path d master P Pa Ex Bl Fa) as [c [w4 [R [F4 B4]]]].
    rewrite B4 in H. rewrite R, export_phase_run. cbv zeta. rewrite F4.
    destruct H as [Mk | [f1 [Mk Xp]]]; rewrite Mk; [reflexivity|].
    rewrite Xp. reflexivity.
Qed.

(** X21: [main] returns normally exactly when the command line parses, the
    master file exists, opens and holds an armature, [os.makedirs] and the
    export return, and the output file exists afterwards.  What happens to
    the animation files plays no part: a batch in which every file fails
    still ends normally. *)
Theorem normal_return (host : Host) (sys_argv : list string) (w : World) :
  let w' := snd (main host sys_argv w) in
  fst (main host sys_argv w) = Ret tt <->
  exists args master_path anims_dir output_path d master f1,
    parse_args (script_args sys_argv) = Parsed args
    /\ paths_of host args = Some (master_path, anims_dir, output_path)
    /\ fs_exists (fs w) master_path = true
    /\ blend_file host (fs w) master_path = inr d
    /\ find is_armature (objects d) = Some master
    /\ os_makedirs host (fs w) (os_path_dirname host output_path) = inr f1
    /\ gltf_export host (export_settings output_path) (bpy w') f1 = inr (fs w')
    /\ fs_exists (fs w') output_path = true.
Proof.
  cbv zeta. split.
  - rewrite main_run at 1.
    destruct (parse_args (script_args sys_argv)) as [args|code] eqn:P;
      [|discriminate].
    destruct (paths_of host args) as [[[master_path anims_dir] output_path]|] eqn:Pa;
      [|discriminate].
    cbv zeta.
    destruct (fs_exists (fs w) master_path) eqn:Ex; [|discriminate].
    destruct (blend_file host (fs w) master_path) as [e0|d] eqn:Bl; [discriminate|].
    destruct (find is_armature (data_objects host d)) as [master|] eqn:Fa;
      [|discriminate].
    destruct (proj1 (find_data_objects_some host is_armature d)
                (ex_intro _ master Fa)) as [first Ff].
    intros H.
    destruct (main_reaches_export host sys_argv w args master_path anims_dir
                output_path d master P Pa Ex Bl Fa) as [c [w4 [R [F4 B4]]]].
    match type of H with
    | fst ?x = _ => replace x with (export_phase host output_path c w4) in H
    end.
    2:{ rewrite <- R, main_run, P, Pa. cbv zeta. rewrite Ex, Bl, Fa. reflexivity. }
    rewrite B4, R. rewrite export_phase_run in *. cbv zeta in *. rewrite F4 in *.
    destruct (os_makedirs host (fs w) _) as [e1|f1] eqn:Mk; [discriminate H|].
    destruct (gltf_export host _ (bpy w4) f1) as [e2|f2] eqn:Xp; [discriminate H|].
    destruct (fs_exists f2 output_path) eqn:Ox; [|discriminate H].
    exists args, master_path, anims_dir, output_path, d, first, f1.
    unfold printed, traced, with_fs. cbn [snd fs].
    repeat (split; [assumption || reflexivity|]). exact Ox.
  - intros [args [master_path [anims_dir [output_path [d [first [f1
             [P [Pa [Ex [Bl [Ff [Mk [Xp Ox]]]]]]]]]]]]]].
    destruct (proj2 (find_data_objects_some host is_armature d)
                (ex_intro _ first Ff)) as [master Fa].
    destruct (main_reaches_export host sys_argv w args master_path anims_dir
                output_path d master P Pa Ex Bl Fa) as [c [w4 [R [F4 B4]]]].
    rewrite B4 in Xp. rewrite R in *. rewrite export_phase_run in *.
    cbv zeta in *. rewrite F4 in *. rewrite Mk in *.
    destruct (gltf_export host _ (bpy w4) f1) as [e2|f2]; [discriminate Xp|].
    destruct (fs_exists f2 output_path) eqn:Ox2; [reflexivity|].
    exfalso. unfold printed, traced, with_fs in Ox. cbn [snd fs] in Ox.
    congruence.
Qed.
